(** * The Cisco-style CLI simulator of [cisco_sim.go]

    A shallow embedding of the command interpreter: the mode state machine,
    the abbreviation resolver, the configuration handlers and the renderers
    of the [show] family, followed by the properties the specification
    states about them.

    Text is modelled by Rocq strings of 8-bit characters.  Case folding is
    the ASCII one: [strings.ToLower] and the [(?i)] flag of the regular
    expressions also fold a few non-ASCII letters, which no command name,
    keyword or canonical interface name contains. *)

From Stdlib Require Import String Ascii List ZArith NArith Lia Bool.
From Stdlib Require Import Permutation Sorted.
Import ListNotations.

Local Open Scope string_scope.
Local Open Scope list_scope.
Local Open Scope Z_scope.

(** String concatenation, Go's [+] on strings. *)
Infix "+++" := String.append (right associativity, at level 60).

(** ** Character classes *)

Definition isUpper (c : ascii) : bool :=
  ((65 <=? N_of_ascii c) && (N_of_ascii c <=? 90))%N.

Definition isLower (c : ascii) : bool :=
  ((97 <=? N_of_ascii c) && (N_of_ascii c <=? 122))%N.

Definition isDigit (c : ascii) : bool :=
  ((48 <=? N_of_ascii c) && (N_of_ascii c <=? 57))%N.

Definition isLetter (c : ascii) : bool := isUpper c || isLower c.

Definition isAlnum (c : ascii) : bool := isLetter c || isDigit c.

Definition isHex (c : ascii) : bool :=
  isDigit c
  || ((97 <=? N_of_ascii c) && (N_of_ascii c <=? 102))%N
  || ((65 <=? N_of_ascii c) && (N_of_ascii c <=? 70))%N.

(** Value of a decimal or hexadecimal digit. *)
Definition digitVal (c : ascii) : Z :=
  if isDigit c then Z.of_N (N_of_ascii c) - 48
  else if isLower c then Z.of_N (N_of_ascii c) - 97 + 10
  else Z.of_N (N_of_ascii c) - 65 + 10.

(** [span p s] splits [s] after its longest prefix of characters in [p]. *)
Fixpoint span (p : ascii -> bool) (s : string) : string * string :=
  match s with
  | EmptyString => (EmptyString, EmptyString)
  | String c r =>
      if p c then let (a, b) := span p r in (String c a, b)
      else (EmptyString, s)
  end.

Fixpoint forallb_string (p : ascii -> bool) (s : string) : bool :=
  match s with
  | EmptyString => true
  | String c r => p c && forallb_string p r
  end.

Definition isEmpty (s : string) : bool :=
  match s with EmptyString => true | _ => false end.

(** ** The parts of Go's standard library the simulator calls *)

Module strings.

Definition toLowerByte (c : ascii) : ascii :=
  if isUpper c then ascii_of_N (N_of_ascii c + 32) else c.

Fixpoint ToLower (s : string) : string :=
  match s with
  | EmptyString => EmptyString
  | String c r => String (toLowerByte c) (ToLower r)
  end.

(** [HasPrefix s p]: [s] begins with [p]. *)
Definition HasPrefix (s p : string) : bool := String.prefix p s.

Definition isSpace (c : ascii) : bool :=
  match N_of_ascii c with
  | 9%N | 10%N | 11%N | 12%N | 13%N | 32%N => true
  | _ => false
  end.

(** [Fields]: the maximal runs of non-space characters, in order.  [cur]
    is the field being read, if any. *)
Fixpoint fieldsFrom (cur : option string) (s : string) : list string :=
  match s with
  | EmptyString => match cur with Some w => [w] | None => [] end
  | String c r =>
      if isSpace c then
        match cur with
        | Some w => w :: fieldsFrom None r
        | None => fieldsFrom None r
        end
      else
        match cur with
        | Some w => fieldsFrom (Some (w +++ String c EmptyString)) r
        | None => fieldsFrom (Some (String c EmptyString)) r
        end
  end.

Definition Fields (s : string) : list string := fieldsFrom None s.

Fixpoint Join (elems : list string) (sep : string) : string :=
  match elems with
  | [] => EmptyString
  | [e] => e
  | e :: rest => e +++ sep +++ Join rest sep
  end.

Fixpoint dropLeft (p : ascii -> bool) (s : string) : string :=
  match s with
  | EmptyString => EmptyString
  | String c r => if p c then dropLeft p r else s
  end.

Fixpoint rev_string (s acc : string) : string :=
  match s with
  | EmptyString => acc
  | String c r => rev_string r (String c acc)
  end.

Definition TrimSpace (s : string) : string :=
  rev_string (dropLeft isSpace (rev_string (dropLeft isSpace s) "")) "".

End strings.

Module strconv.

Definition maxInt : Z := 9223372036854775807.
Definition minInt : Z := -9223372036854775808.

(** Decimal value of a string of digits, most significant first. *)
Fixpoint decimal (acc : Z) (s : string) : Z :=
  match s with
  | EmptyString => acc
  | String c r => decimal (10 * acc + digitVal c) r
  end.

(** [Atoi] on a 64-bit platform: the value and whether an error is
    returned.  A syntax error yields 0, a range error the nearest bound. *)
Definition Atoi (s : string) : Z * bool :=
  let (neg, body) :=
    match s with
    | String "-" r => (true, r)
    | String "+" r => (false, r)
    | _ => (false, s)
    end in
  if isEmpty body || negb (forallb_string isDigit body) then (0, true)
  else
    let v := decimal 0 body in
    if neg then (if -v <? minInt then (minInt, true) else (-v, false))
    else (if maxInt <? v then (maxInt, true) else (v, false)).

Fixpoint digitsOf (fuel : nat) (n : Z) (acc : string) : string :=
  match fuel with
  | O => acc
  | S f =>
      let acc' := String (ascii_of_N (Z.to_N (48 + n mod 10))) acc in
      if n <? 10 then acc' else digitsOf f (n / 10) acc'
  end.

(** [Itoa]: decimal rendering, as [%d] prints an int. *)
Definition Itoa (n : Z) : string :=
  if n <? 0 then String "-" (digitsOf (S (Z.to_nat (Z.log2 (- n)))) (- n) "")
  else digitsOf (S (Z.to_nat (Z.log2 n))) n "".

End strconv.

(** [net.ParseIP], after the parser of Go's [net] package: a text is
    dotted decimal or IPv6, the latter with at most one ellipsis and
    possibly a dotted quad in its last four bytes. *)
Module net.

Definition big : Z := 16777215.

Fixpoint dtoiLoop (n : Z) (i : nat) (s : string) : Z * nat * string * bool :=
  match s with
  | String c r =>
      if isDigit c then
        let n' := n * 10 + digitVal c in
        if n' >=? big then (big, i, s, false) else dtoiLoop n' (S i) r
      else (n, i, s, true)
  | EmptyString => (n, i, s, true)
  end.

(** [dtoi s]: the decimal number at the start of [s], the number of
    characters read, what follows them, and whether a number was read. *)
Definition dtoi (s : string) : Z * nat * string * bool :=
  let '(n, i, rest, ok) := dtoiLoop 0 0 s in
  if negb ok then (big, i, rest, false)
  else if Nat.eqb i 0 then (0, O, s, false)
  else (n, i, rest, true).

Fixpoint xtoiLoop (n : Z) (i : nat) (s : string) : Z * nat * string * bool :=
  match s with
  | String c r =>
      if isHex c then
        let n' := n * 16 + digitVal c in
        if n' >=? big then (0, i, s, false) else xtoiLoop n' (S i) r
      else (n, i, s, true)
  | EmptyString => (n, i, s, true)
  end.

Definition xtoi (s : string) : Z * nat * string * bool :=
  let '(n, i, rest, ok) := xtoiLoop 0 0 s in
  if negb ok then (0, i, rest, false)
  else if Nat.eqb i 0 then (0, O, s, false)
  else (n, i, rest, true).

(** [parseIPv4Loop k first s]: [k] octets are still to be read from [s]. *)
Fixpoint parseIPv4Loop (k : nat) (first : bool) (s : string) : bool :=
  match k with
  | O => isEmpty s
  | S k' =>
      if isEmpty s then false
      else
        let afterDot :=
          if first then Some s
          else match s with String "." r => Some r | _ => None end in
        match afterDot with
        | None => false
        | Some s1 =>
            let '(n, c, rest, ok) := dtoi s1 in
            if negb ok || (255 <? n) then false
            else if Nat.ltb 1 c && strings.HasPrefix s1 "0" then false
            else parseIPv4Loop k' false rest
        end
  end.

(** Dotted decimal, four octets of at most 255 without leading zeroes. *)
Definition parseIPv4 (s : string) : bool := parseIPv4Loop 4 true s.

(** What [parseIPv6] checks once its loop is left: the text is used up, and
    the sixteen bytes are filled exactly when there is no ellipsis. *)
Definition parseIPv6End (i : Z) (ellipsis : bool) (s : string) : bool :=
  isEmpty s && (if i <? 16 then ellipsis else negb ellipsis).

(** The loop of [parseIPv6] over the groups; [i] is the number of bytes
    filled, [ellipsis] whether [::] was seen.  Each turn fills two bytes, so
    nine turns are never exceeded. *)
Fixpoint parseIPv6Loop (fuel : nat) (i : Z) (ellipsis : bool) (s : string)
  : bool :=
  match fuel with
  | O => parseIPv6End i ellipsis s
  | S f =>
      if negb (i <? 16) then parseIPv6End i ellipsis s
      else
        let '(n, c, rest, ok) := xtoi s in
        if negb ok || (65535 <? n) then false
        else if strings.HasPrefix rest "." then
          if negb ellipsis && negb (i =? 12) then false
          else if 16 <? i + 4 then false
          else if negb (parseIPv4 s) then false
          else parseIPv6End (i + 4) ellipsis ""
        else
          let i := i + 2 in
          match rest with
          | EmptyString => parseIPv6End i ellipsis ""
          | String c1 r1 =>
              if negb (Ascii.eqb c1 ":") || isEmpty r1 then false
              else
                match r1 with
                | String ":" r2 =>
                    if ellipsis then false
                    else if isEmpty r2 then parseIPv6End i true ""
                    else parseIPv6Loop f i true r2
                | _ => parseIPv6Loop f i ellipsis r1
                end
          end
  end.

Definition parseIPv6 (s : string) : bool :=
  match s with
  | String ":" (String ":" r) =>
      if isEmpty r then true else parseIPv6Loop 9 0 true r
  | _ => parseIPv6Loop 9 0 false s
  end.

(** [ParseIP s] stands for [net.ParseIP(s) != nil], the only use the
    simulator makes of the result: the first dot or colon of [s] selects
    the dotted-decimal or the IPv6 parser; a text with neither is no
    address. *)
Fixpoint ParseIPFrom (whole s : string) : bool :=
  match s with
  | EmptyString => false
  | String c r =>
      if Ascii.eqb c "." then parseIPv4 whole
      else if Ascii.eqb c ":" then parseIPv6 whole
      else ParseIPFrom whole r
  end.

Definition ParseIP (s : string) : bool := ParseIPFrom s s.

End net.

Module sort.

Section Stable.
Context {A : Type} (less : A -> A -> bool).

(** [insert x l] puts [x], which stood before every element of [l], after
    the elements strictly smaller than it and before the others. *)
Fixpoint insert (x : A) (l : list A) : list A :=
  match l with
  | [] => [x]
  | y :: ys => if less y x then y :: insert x ys else x :: y :: ys
  end.

(** [SliceStable]: the stable rearrangement of [l] into ascending order of
    [less].  For a strict weak order it is unique, so that an insertion
    sort denotes it. *)
Fixpoint SliceStable (l : list A) : list A :=
  match l with
  | [] => []
  | x :: xs => insert x (SliceStable xs)
  end.

End Stable.

(** [Strings]: ascending byte-wise order. *)
Definition Strings (l : list string) : list string :=
  SliceStable String.ltb l.

End sort.

(** [fmt]'s verbs as the renderers use them. *)
Module fmt.

(** [%02d] *)
Definition d02 (n : Z) : string :=
  if (0 <=? n) && (n <? 10) then "0" +++ strconv.Itoa n else strconv.Itoa n.

Fixpoint spaces (n : nat) : string :=
  match n with
  | O => EmptyString
  | S k => String " " (spaces k)
  end.

(** [%-Ns]: left-justified in a field of [width] characters. *)
Definition padRight (width : nat) (s : string) : string :=
  s +++ spaces (width - String.length s).

End fmt.

(** ** Data model *)

(** The four mode constants.  The simulator only ever stores these in its
    [mode] field. *)
Inductive Mode : Set :=
| ModeUserExec
| ModePrivExec
| ModeGlobalConfig
| ModeInterfaceConfig.

Definition Mode_eqb (a b : Mode) : bool :=
  match a, b with
  | ModeUserExec, ModeUserExec
  | ModePrivExec, ModePrivExec
  | ModeGlobalConfig, ModeGlobalConfig
  | ModeInterfaceConfig, ModeInterfaceConfig => true
  | _, _ => false
  end.

(** The sentinel errors that [fmt.Errorf] wraps with [%w]. *)
Inductive Sentinel : Set :=
| ErrAmbiguousCommand
| ErrInvalidInput
| ErrIncompleteCommand
| ErrBadArguments.

(** An error value: [Wrapped e text] is [fmt.Errorf("%w: " + text, e)],
    [Plain text] an error that wraps no sentinel. *)
Inductive error : Set :=
| Wrapped (sentinel : Sentinel) (text : string)
| Plain (text : string).

Definition sentinelText (e : Sentinel) : string :=
  match e with
  | ErrAmbiguousCommand => "ambiguous command"
  | ErrInvalidInput => "invalid input"
  | ErrIncompleteCommand => "incomplete command"
  | ErrBadArguments => "invalid input or arguments"
  end.

(** The result of the [Error] method. *)
Definition errorText (e : error) : string :=
  match e with
  | Wrapped s text => sentinelText s +++ ": " +++ text
  | Plain text => text
  end.

(** [errors.Is]. *)
Definition errorsIs (e : error) (target : Sentinel) : bool :=
  match e, target with
  | Wrapped ErrAmbiguousCommand _, ErrAmbiguousCommand
  | Wrapped ErrInvalidInput _, ErrInvalidInput
  | Wrapped ErrIncompleteCommand _, ErrIncompleteCommand
  | Wrapped ErrBadArguments _, ErrBadArguments => true
  | _, _ => false
  end.

Record InterfaceConfig := mkInterfaceConfig {
  IPAddress : string;
  SubnetMask : string;
  Status : string;
  AdminStatus : string
}.

(** A Go map with string keys, as the list of its entries.  The order of
    the list is the order in which [range] yields them, which the language
    leaves open: a statement about every list is a statement about every
    iteration order. *)
Definition GoMap (V : Type) : Type := list (string * V).

Fixpoint mapGet {V : Type} (m : GoMap V) (k : string) : option V :=
  match m with
  | [] => None
  | (k', v) :: rest => if String.eqb k' k then Some v else mapGet rest k
  end.

(** [m[k] = v]: the entry is replaced where it is, or added. *)
Fixpoint mapSet {V : Type} (m : GoMap V) (k : string) (v : V) : GoMap V :=
  match m with
  | [] => [(k, v)]
  | (k', v') :: rest =>
      if String.eqb k' k then (k, v) :: rest else (k', v') :: mapSet rest k v
  end.

Definition mapKeys {V : Type} (m : GoMap V) : list string := map fst m.

Record RunningConfig := mkRunningConfig {
  Hostname : string;
  Interfaces : GoMap InterfaceConfig
}.

(** The simulator state.  [clock] is the machine's clock in seconds, which
    [time.Since] reads; the command tables, fixed once the constructor has
    run, are the constants [definedCommands] and [modeCommandMap] below;
    the readline instance belongs to the terminal. *)
Record CiscoDeviceSimulator := mkSim {
  hostname : string;
  mode : Mode;
  runningConfig : RunningConfig;
  currentInterface : string;
  commandHistory : list string;
  startTime : Z;
  clock : Z
}.

Definition setMode (sim : CiscoDeviceSimulator) (m : Mode) :=
  mkSim (hostname sim) m (runningConfig sim) (currentInterface sim)
        (commandHistory sim) (startTime sim) (clock sim).

Definition setCurrentInterface (sim : CiscoDeviceSimulator) (name : string) :=
  mkSim (hostname sim) (mode sim) (runningConfig sim) name
        (commandHistory sim) (startTime sim) (clock sim).

Definition setRunningConfig (sim : CiscoDeviceSimulator) (rc : RunningConfig) :=
  mkSim (hostname sim) (mode sim) rc (currentInterface sim)
        (commandHistory sim) (startTime sim) (clock sim).

Definition setCommandHistory (sim : CiscoDeviceSimulator) (h : list string) :=
  mkSim (hostname sim) (mode sim) (runningConfig sim) (currentInterface sim)
        h (startTime sim) (clock sim).

Definition setHostname (rc : RunningConfig) (name : string) : RunningConfig :=
  mkRunningConfig name (Interfaces rc).

(** [sim.runningConfig.Interfaces[name] = data] *)
Definition setInterface (sim : CiscoDeviceSimulator) (name : string)
    (data : InterfaceConfig) : CiscoDeviceSimulator :=
  setRunningConfig sim
    (mkRunningConfig (Hostname (runningConfig sim))
                     (mapSet (Interfaces (runningConfig sim)) name data)).

(** How a call ends: it returns, with the state it leaves, the lines it
    printed and its error result; or it ends the process through
    [os.Exit]; or it panics on a nil [*InterfaceConfig]. *)
Inductive Outcome :=
| Returned (sim : CiscoDeviceSimulator) (stdout : list string)
           (err : option error)
| Exited (stdout : list string)
| Panicked.

Definition CommandHandler : Type :=
  list string -> CiscoDeviceSimulator -> Outcome.

Record CommandDef := mkCommandDef {
  Name : string;
  Handler : CommandHandler;
  Modes : list Mode
}.

Definition NewCiscoDeviceSimulator (hostname : string) (now : Z)
  : CiscoDeviceSimulator :=
  {| hostname := hostname;
     mode := ModeUserExec;
     runningConfig := {| Hostname := hostname; Interfaces := [] |};
     currentInterface := "";
     commandHistory := [];
     startTime := now;
     clock := now |}.

(** ** Helper functions *)

Definition getPrompt (sim : CiscoDeviceSimulator) : string :=
  let host := Hostname (runningConfig sim) in
  match mode sim with
  | ModeUserExec => host +++ ">"
  | ModePrivExec => host +++ "#"
  | ModeGlobalConfig => host +++ "(config)#"
  | ModeInterfaceConfig => host +++ "(config-if)#"
  end.

(** [isValidIP] *)
Definition isValidIP (ipStr : string) : bool := net.ParseIP ipStr.

(** The pattern [^\d+/\d+$]: the two numbers of an interface, as one string
    and apart. *)
Definition matchSlotPort (s : string) : option (string * string) :=
  let (slot, r1) := span isDigit s in
  if isEmpty slot then None
  else
    match r1 with
    | String "/" r2 =>
        let (port, r3) := span isDigit r2 in
        if isEmpty port then None
        else if isEmpty r3 then Some (slot, port) else None
    | _ => None
    end.

Definition normalizeInterfaceName (typePart numPart : string)
  : string + error :=
  let t := strings.ToLower typePart in
  let base :=
    if strings.HasPrefix t "g" then Some "GigabitEthernet"
    else if strings.HasPrefix t "f" then Some "FastEthernet"
    else if strings.HasPrefix t "e" then Some "Ethernet"
    else None in
  match base with
  | None => inr (Plain ("invalid interface type: " +++ typePart))
  | Some base =>
      match matchSlotPort numPart with
      | None =>
          inr (Plain ("invalid interface number format: " +++ numPart))
      | Some _ => inl (base +++ numPart)
      end
  end.

(** ** Command handlers *)

Definition fail (sim : CiscoDeviceSimulator) (e : error) : Outcome :=
  Returned sim [] (Some e).

(** [doExitQuit]: leaves the simulator. *)
Definition doExitQuit (args : list string) (sim : CiscoDeviceSimulator)
  : Outcome :=
  match mode sim with
  | ModeUserExec | ModePrivExec => Exited ["Exiting simulator."]
  | _ => fail sim (Plain "exit/quit command not valid in this mode")
  end.

(** [doExitMode]: leaves the current configuration mode. *)
Definition doExitMode (args : list string) (sim : CiscoDeviceSimulator)
  : Outcome :=
  match mode sim with
  | ModeGlobalConfig => Returned (setMode sim ModePrivExec) [] None
  | ModeInterfaceConfig =>
      Returned (setCurrentInterface (setMode sim ModeGlobalConfig) "") [] None
  | _ => fail sim (Plain "exit command not valid in this mode")
  end.

Definition doEnd (args : list string) (sim : CiscoDeviceSimulator)
  : Outcome :=
  match mode sim with
  | ModeGlobalConfig | ModeInterfaceConfig =>
      Returned (setCurrentInterface (setMode sim ModePrivExec) "") [] None
  | _ => fail sim (Plain "end command not valid in this mode")
  end.

Definition doEnable (args : list string) (sim : CiscoDeviceSimulator)
  : Outcome :=
  Returned (setMode sim ModePrivExec) [] None.

Definition doDisable (args : list string) (sim : CiscoDeviceSimulator)
  : Outcome :=
  Returned (setMode sim ModeUserExec) [] None.

Definition doConfigure (args : list string) (sim : CiscoDeviceSimulator)
  : Outcome :=
  match args with
  | [] => fail sim (Wrapped ErrIncompleteCommand
                      "expecting 'configure terminal'")
  | a0 :: _ =>
      if negb (strings.HasPrefix (strings.ToLower a0) "t") then
        fail sim (Wrapped ErrIncompleteCommand
                    "expecting 'configure terminal'")
      else
        Returned (setMode sim ModeGlobalConfig)
          ["Enter configuration commands, one per line. End with CNTL/Z or 'end'."]
          None
  end.

(** [s] without its last character, and that character. *)
Fixpoint splitLast (s : string) : option (string * ascii) :=
  match s with
  | EmptyString => None
  | String c r =>
      match splitLast r with
      | None => Some (EmptyString, c)
      | Some (init, l) => Some (String c init, l)
      end
  end.

(** The pattern [^[a-zA-Z0-9]([a-zA-Z0-9\-]{0,61}[a-zA-Z0-9])?$]. *)
Definition matchHostname (s : string) : bool :=
  match s with
  | EmptyString => false
  | String c rest =>
      isAlnum c &&
      match splitLast rest with
      | None => true
      | Some (middle, l) =>
          Nat.leb (String.length middle) 61
          && forallb_string (fun x => isAlnum x || Ascii.eqb x "-") middle
          && isAlnum l
      end
  end.

Definition doHostname (args : list string) (sim : CiscoDeviceSimulator)
  : Outcome :=
  match args with
  | [] => fail sim (Wrapped ErrIncompleteCommand "expecting 'hostname <name>'")
  | newName :: _ =>
      if negb (matchHostname newName) then
        fail sim (Plain "invalid hostname format")
      else
        Returned (setRunningConfig sim (setHostname (runningConfig sim) newName))
                 [] None
  end.

(** The class [\s] of the regular expressions. *)
Definition isReSpace (c : ascii) : bool :=
  match N_of_ascii c with
  | 9%N | 10%N | 12%N | 13%N | 32%N => true
  | _ => false
  end.

(** The pattern [(?i)^([a-z]+?)\s*(\d+/\d+)$] and its two groups.  The
    three classes are disjoint and the pattern is anchored at both ends, so
    that the text splits in one way at most. *)
Definition matchInterface (s : string) : option (string * string) :=
  let (ty, r1) := span isLetter s in
  if isEmpty ty then None
  else
    let (_, r2) := span isReSpace r1 in
    match matchSlotPort r2 with
    | Some _ => Some (ty, r2)
    | None => None
    end.

Definition doInterface (args : list string) (sim : CiscoDeviceSimulator)
  : Outcome :=
  match args with
  | [] =>
      fail sim (Wrapped ErrIncompleteCommand
        "expecting 'interface <type><number>' or 'interface <type> <number>'")
  | _ :: _ =>
      let intfInput := strings.Join args "" in
      let groups :=
        match matchInterface intfInput with
        | Some m => Some m
        | None =>
            match args with
            | [a0; a1] => Some (a0, a1)
            | _ => None
            end
        end in
      match groups with
      | None =>
          fail sim (Plain ("invalid interface format: " +++ intfInput
                           +++ ". Expecting e.g., 'g0/0', 'FastEthernet0/1'"))
      | Some (intfTypePart, intfNumPart) =>
          match normalizeInterfaceName intfTypePart intfNumPart with
          | inr err => fail sim err
          | inl intfName =>
              let sim1 :=
                match mapGet (Interfaces (runningConfig sim)) intfName with
                | Some _ => sim
                | None =>
                    setInterface sim intfName
                      {| IPAddress := ""; SubnetMask := "";
                         Status := "administratively down";
                         AdminStatus := "down" |}
                end in
              Returned
                (setMode (setCurrentInterface sim1 intfName) ModeInterfaceConfig)
                [] None
          end
      end
  end.

Definition doIP (args : list string) (sim : CiscoDeviceSimulator)
  : Outcome :=
  if isEmpty (currentInterface sim) then
    fail sim (Plain "command must be run in interface configuration mode")
  else
    match args with
    | [] => fail sim (Wrapped ErrIncompleteCommand
                        "expecting 'ip address <ip> <subnet>'")
    | a0 :: _ =>
        if negb (strings.HasPrefix (strings.ToLower a0) "a") then
          fail sim (Wrapped ErrIncompleteCommand
                      "expecting 'ip address <ip> <subnet>'")
        else
          match args with
          | [_; ipAddr; subnetMask] =>
              if negb (isValidIP ipAddr) then
                fail sim (Plain ("invalid IP address format: " +++ ipAddr))
              else if negb (isValidIP subnetMask) then
                fail sim (Plain ("invalid subnet mask format: " +++ subnetMask))
              else
                match mapGet (Interfaces (runningConfig sim))
                             (currentInterface sim) with
                | None => Panicked
                | Some intfData =>
                    Returned
                      (setInterface sim (currentInterface sim)
                         {| IPAddress := ipAddr;
                            SubnetMask := subnetMask;
                            Status :=
                              if String.eqb (AdminStatus intfData) "up"
                              then "up" else Status intfData;
                            AdminStatus := AdminStatus intfData |})
                      [] None
                end
          | _ => fail sim (Wrapped ErrBadArguments
                             "expecting 'ip address <ip> <subnet>'")
          end
    end.

Definition doShutdown (args : list string) (sim : CiscoDeviceSimulator)
  : Outcome :=
  if isEmpty (currentInterface sim) then
    fail sim (Plain "command must be run in interface configuration mode")
  else
    match args with
    | _ :: _ => fail sim (Wrapped ErrBadArguments
                            "'shutdown' takes no arguments")
    | [] =>
        match mapGet (Interfaces (runningConfig sim))
                     (currentInterface sim) with
        | None => Panicked
        | Some intfData =>
            Returned
              (setInterface sim (currentInterface sim)
                 {| IPAddress := IPAddress intfData;
                    SubnetMask := SubnetMask intfData;
                    Status := "administratively down";
                    AdminStatus := "down" |})
              [] None
        end
    end.

Definition noShutdown (args : list string) (sim : CiscoDeviceSimulator)
  : Outcome :=
  if isEmpty (currentInterface sim) then fail sim (Plain "not in interface mode")
  else
    match args with
    | _ :: _ => fail sim (Wrapped ErrBadArguments
                            "'no shutdown' takes no arguments")
    | [] =>
        match mapGet (Interfaces (runningConfig sim))
                     (currentInterface sim) with
        | None => Panicked
        | Some intfData =>
            Returned
              (setInterface sim (currentInterface sim)
                 {| IPAddress := IPAddress intfData;
                    SubnetMask := SubnetMask intfData;
                    Status :=
                      if negb (isEmpty (IPAddress intfData))
                      then "up" else "down";
                    AdminStatus := "up" |})
              [] None
        end
    end.

Definition noIPAddress (args : list string) (sim : CiscoDeviceSimulator)
  : Outcome :=
  if isEmpty (currentInterface sim) then fail sim (Plain "not in interface mode")
  else
    match args with
    | _ :: _ => fail sim (Wrapped ErrBadArguments
                            "'no ip address' takes no further arguments")
    | [] =>
        match mapGet (Interfaces (runningConfig sim))
                     (currentInterface sim) with
        | None => Panicked
        | Some intfData =>
            Returned
              (setInterface sim (currentInterface sim)
                 {| IPAddress := "";
                    SubnetMask := "";
                    Status :=
                      if String.eqb (AdminStatus intfData) "up"
                      then "down" else Status intfData;
                    AdminStatus := AdminStatus intfData |})
              [] None
        end
    end.

(** The lookup of a sub-command among [options] that [doNo] and [doShow]
    share: the chosen option, or the empty string, and whether the input
    was ambiguous.  [matches] holds the options the input abbreviates. *)
Definition pickExact (input : string) (matches : list string)
  : string * bool :=
  match find (fun m => String.eqb (strings.ToLower m) (strings.ToLower input))
             matches with
  | Some m => (m, false)
  | None => ("", true)
  end.

Definition doNo (args : list string) (sim : CiscoDeviceSimulator)
  : Outcome :=
  match args with
  | [] => fail sim (Wrapped ErrIncompleteCommand "'no' command")
  | noSubCommandInput :: subArgs =>
      let possible :=
        match mode sim with
        | ModeInterfaceConfig => Some ["shutdown"; "ip"]
        | ModeGlobalConfig => Some ["hostname"; "interface"]
        | _ => None
        end in
      match possible with
      | None => fail sim (Plain "'no' command not applicable in this mode")
      | Some possibleNoCommands =>
          let matches :=
            filter (fun cmd =>
                      strings.HasPrefix (strings.ToLower cmd)
                                        (strings.ToLower noSubCommandInput))
                   possibleNoCommands in
          let '(matchedSubCommand, ambiguous) :=
            match matches with
            | [m] => (m, false)
            | [] => ("", false)
            | _ => pickExact noSubCommandInput matches
            end in
          if ambiguous then
            fail sim (Wrapped ErrAmbiguousCommand ("no " +++ noSubCommandInput))
          else if isEmpty matchedSubCommand then
            fail sim (Wrapped ErrInvalidInput ("no " +++ noSubCommandInput))
          else
            match mode sim with
            | ModeInterfaceConfig =>
                if String.eqb matchedSubCommand "shutdown" then
                  noShutdown subArgs sim
                else if String.eqb matchedSubCommand "ip" then
                  match subArgs with
                  | [] => fail sim (Wrapped ErrIncompleteCommand
                                      "expecting 'no ip address'")
                  | s0 :: rest =>
                      if negb (strings.HasPrefix (strings.ToLower s0) "a") then
                        fail sim (Wrapped ErrIncompleteCommand
                                    "expecting 'no ip address'")
                      else noIPAddress rest sim
                  end
                else
                  fail sim (Plain ("internal error: unhandled 'no' subcommand '"
                                   +++ matchedSubCommand +++ "' in IF mode"))
            | ModeGlobalConfig =>
                if String.eqb matchedSubCommand "hostname" then
                  fail sim (Plain "cannot 'no hostname'. Set a new one instead")
                else if String.eqb matchedSubCommand "interface" then
                  fail sim (Plain
                    "use 'default interface <name>' to reset an interface (not implemented)")
                else
                  fail sim (Plain ("internal error: unhandled 'no' subcommand '"
                                   +++ matchedSubCommand +++ "' in Global mode"))
            | _ =>
                fail sim (Plain
                  "internal error: 'no' command reached unexpected state")
            end
      end
  end.

(** ** The [show] family *)

Definition showVersion (args : list string) (sim : CiscoDeviceSimulator)
  : Outcome :=
  match args with
  | _ :: _ => fail sim (Wrapped ErrBadArguments
                          "'show version' takes no arguments")
  | [] =>
      let uptimeSeconds := clock sim - startTime sim in
      let hours := Z.quot uptimeSeconds 3600 in
      let minutes := Z.quot (Z.rem uptimeSeconds 3600) 60 in
      let seconds := Z.rem uptimeSeconds 60 in
      Returned sim
        [ "Basic Cisco IOS Simulator (Go)";
          "Version: 1.0 (Simulated)";
          "Hostname: " +++ Hostname (runningConfig sim);
          "Uptime: " +++ fmt.d02 hours +++ "h " +++ fmt.d02 minutes +++ "m "
             +++ fmt.d02 seconds +++ "s (Simulated)";
          "";
          "(Limited information in this simulation)" ]
        None
  end.

(** The leftmost match of [(?i)([a-z]+)(\d+)/(\d+)] that starts at the
    head of [s].  Each group is greedy and is followed by a character
    outside its class, so that only the longest runs can match. *)
Definition matchKeyHere (s : string) : option (string * string * string) :=
  let (ty, r1) := span isLetter s in
  if isEmpty ty then None
  else
    let (slot, r2) := span isDigit r1 in
    if isEmpty slot then None
    else
      match r2 with
      | String "/" r3 =>
          let (port, _) := span isDigit r3 in
          if isEmpty port then None else Some (ty, slot, port)
      | _ => None
      end.

(** The pattern searched anywhere in [s], leftmost first. *)
Fixpoint findKey (s : string) : option (string * string * string) :=
  match matchKeyHere s with
  | Some m => Some m
  | None =>
      match s with
      | EmptyString => None
      | String _ r => findKey r
      end
  end.

Definition sortInterfaceKey (intfName : string) : Z * Z * Z :=
  match findKey intfName with
  | None => (999, 0, 0)
  | Some (ty, slotText, portText) =>
      let typePrefix := strings.ToLower ty in
      let slot := fst (strconv.Atoi slotText) in
      let port := fst (strconv.Atoi portText) in
      let typeWeight := 99 in
      let typeWeight :=
        if strings.HasPrefix typePrefix "f" then 1 else typeWeight in
      let typeWeight :=
        if strings.HasPrefix typePrefix "g" then 2 else typeWeight in
      let typeWeight :=
        if strings.HasPrefix typePrefix "t" then 3 else typeWeight in
      (typeWeight, slot, port)
  end.

(** The comparison both renderers hand to [sort.SliceStable]. *)
Definition interfaceLess (a b : string) : bool :=
  let '(typeI, slotI, portI) := sortInterfaceKey a in
  let '(typeJ, slotJ, portJ) := sortInterfaceKey b in
  if negb (typeI =? typeJ) then typeI <? typeJ
  else if negb (slotI =? slotJ) then slotI <? slotJ
  else portI <? portJ.

(** The interface names collected from the map, then sorted. *)
Definition sortedInterfaceNames (sim : CiscoDeviceSimulator) : list string :=
  sort.SliceStable interfaceLess (mapKeys (Interfaces (runningConfig sim))).

(** The printing loop over the sorted names: [render] gives the lines of
    one interface.  A name without an entry would be a nil dereference. *)
Fixpoint printInterfaces (render : string -> InterfaceConfig -> list string)
    (interfaces : GoMap InterfaceConfig) (intfNames : list string)
  : option (list string) :=
  match intfNames with
  | [] => Some []
  | intfName :: rest =>
      match mapGet interfaces intfName with
      | None => None
      | Some intfData =>
          match printInterfaces render interfaces rest with
          | None => None
          | Some lines => Some (render intfName intfData ++ lines)
          end
      end
  end.

Definition runningConfigBlock (intfName : string) (intfData : InterfaceConfig)
  : list string :=
  ["interface " +++ intfName]
  ++ (if negb (isEmpty (IPAddress intfData))
         && negb (isEmpty (SubnetMask intfData))
      then [" ip address " +++ IPAddress intfData +++ " "
              +++ SubnetMask intfData]
      else [])
  ++ (if String.eqb (AdminStatus intfData) "down" then [" shutdown"] else [])
  ++ ["!"].

Definition showRunningConfig (args : list string) (sim : CiscoDeviceSimulator)
  : Outcome :=
  match args with
  | _ :: _ => fail sim (Wrapped ErrBadArguments
                          "'show running-config' takes no arguments")
  | [] =>
      match printInterfaces runningConfigBlock
              (Interfaces (runningConfig sim)) (sortedInterfaceNames sim) with
      | None => Panicked
      | Some blocks =>
          Returned sim
            ([ "Building configuration..."; "!";
               "version 1.0 (Simulated)"; "!";
               "hostname " +++ Hostname (runningConfig sim); "!" ]
             ++ blocks ++ ["!"; "end"])
            None
      end
  end.

Definition briefRow (intfName : string) (intfData : InterfaceConfig)
  : list string :=
  let assigned := negb (isEmpty (IPAddress intfData)) in
  let ipAddr := if assigned then IPAddress intfData else "unassigned" in
  let ok := if assigned then "YES" else "NO " in
  let method := if assigned then "manual" else "unset " in
  let status := Status intfData in
  let protocol := status in
  [ fmt.padRight 26 intfName +++ " " +++ fmt.padRight 15 ipAddr +++ " "
    +++ fmt.padRight 3 ok +++ " " +++ fmt.padRight 6 method +++ " "
    +++ fmt.padRight 21 status +++ " " +++ protocol ].

Definition showIPInterfaceBrief (args : list string)
    (sim : CiscoDeviceSimulator) : Outcome :=
  match args with
  | _ :: _ => fail sim (Wrapped ErrBadArguments
                          "extra arguments after 'show ip interface brief'")
  | [] =>
      match printInterfaces briefRow
              (Interfaces (runningConfig sim)) (sortedInterfaceNames sim) with
      | None => Panicked
      | Some rows =>
          Returned sim
            ("Interface                  IP-Address      OK? Method Status                Protocol"
             :: rows)
            None
      end
  end.

(** The numbered lines of the history, [i] being the number of the first. *)
Fixpoint historyLines (i : Z) (history : list string) : list string :=
  match history with
  | [] => []
  | line :: rest =>
      (" " +++ strconv.Itoa i +++ ": " +++ line) :: historyLines (i + 1) rest
  end.

Definition showHistoryCmd (args : list string) (sim : CiscoDeviceSimulator)
  : Outcome :=
  match args with
  | _ :: _ => fail sim (Wrapped ErrBadArguments "'history' takes no arguments")
  | [] =>
      Returned sim ("Command History:" :: historyLines 1 (commandHistory sim))
               None
  end.

(** [contains] *)
Definition contains (slice : list string) (item : string) : bool :=
  existsb (fun v => String.eqb v item) slice.

Definition showOptions : list string :=
  ["version"; "running-config"; "run"; "ip"; "history"].

Definition doShow (args : list string) (sim : CiscoDeviceSimulator)
  : Outcome :=
  match args with
  | [] => fail sim (Wrapped ErrIncompleteCommand
                      "expecting 'show <subcommand>'")
  | subCommandInput :: subArgs =>
      let matches :=
        filter (fun opt =>
                  strings.HasPrefix opt (strings.ToLower subCommandInput))
               showOptions in
      let '(matchedSubCommand, ambiguous) :=
        match matches with
        | [m] => (m, false)
        | [] => ("", false)
        | _ =>
            if String.eqb (strings.ToLower subCommandInput) "run"
               && contains matches "running-config"
            then ("running-config", false)
            else pickExact subCommandInput matches
        end in
      if ambiguous then
        fail sim (Wrapped ErrAmbiguousCommand ("show " +++ subCommandInput))
      else if isEmpty matchedSubCommand then
        fail sim (Wrapped ErrInvalidInput ("show " +++ subCommandInput))
      else if String.eqb matchedSubCommand "version" then
        showVersion subArgs sim
      else if String.eqb matchedSubCommand "running-config" then
        showRunningConfig subArgs sim
      else if String.eqb matchedSubCommand "ip" then
        match subArgs with
        | [] => fail sim (Wrapped ErrIncompleteCommand
                            "expecting 'show ip interface brief'")
        | s0 :: rest0 =>
            if negb (strings.HasPrefix (strings.ToLower s0) "i") then
              fail sim (Wrapped ErrIncompleteCommand
                          "expecting 'show ip interface brief'")
            else
              match rest0 with
              | [] => fail sim (Wrapped ErrIncompleteCommand
                                  "expecting 'show ip interface brief'")
              | s1 :: rest1 =>
                  if negb (strings.HasPrefix (strings.ToLower s1) "b") then
                    fail sim (Wrapped ErrIncompleteCommand
                                "expecting 'show ip interface brief'")
                  else
                    match rest1 with
                    | _ :: _ =>
                        fail sim (Wrapped ErrBadArguments
                          "extra arguments after 'show ip interface brief'")
                    | [] => showIPInterfaceBrief rest1 sim
                    end
              end
        end
      else if String.eqb matchedSubCommand "history" then
        showHistoryCmd subArgs sim
      else
        fail sim (Plain ("internal error: unhandled show command '"
                         +++ matchedSubCommand +++ "'"))
  end.

(** ** The command tables *)

(** The list that [registerCommands] walks. *)
Definition commands : list CommandDef :=
  [ mkCommandDef "enable" doEnable [ModeUserExec];
    mkCommandDef "exit" doExitQuit [ModeUserExec; ModePrivExec];
    mkCommandDef "quit" doExitQuit [ModeUserExec];
    mkCommandDef "disable" doDisable [ModePrivExec];
    mkCommandDef "configure" doConfigure [ModePrivExec];
    mkCommandDef "show" doShow [ModePrivExec];
    mkCommandDef "history" showHistoryCmd [ModePrivExec];
    mkCommandDef "end" doEnd [ModeGlobalConfig; ModeInterfaceConfig];
    mkCommandDef "exit" doExitMode [ModeGlobalConfig; ModeInterfaceConfig];
    mkCommandDef "hostname" doHostname [ModeGlobalConfig];
    mkCommandDef "interface" doInterface [ModeGlobalConfig];
    mkCommandDef "no" doNo [ModeGlobalConfig; ModeInterfaceConfig];
    mkCommandDef "ip" doIP [ModeInterfaceConfig];
    mkCommandDef "shutdown" doShutdown [ModeInterfaceConfig] ].

(** The deduplication of a mode list, first occurrences kept. *)
Fixpoint uniqueModes (seen : list Mode) (modes : list Mode) : list Mode :=
  match modes with
  | [] => []
  | m :: rest =>
      if existsb (Mode_eqb m) seen then uniqueModes seen rest
      else m :: uniqueModes (m :: seen) rest
  end.

(** One turn of the loop of [registerCommands]: a new name is entered with
    its definition; for a name already present only the modes are added to
    the existing definition. *)
Definition registerCommand (defined : GoMap CommandDef) (cmd : CommandDef)
  : GoMap CommandDef :=
  match mapGet defined (Name cmd) with
  | None => mapSet defined (Name cmd) cmd
  | Some existingCmd =>
      mapSet defined (Name cmd)
        {| Name := Name existingCmd;
           Handler := Handler existingCmd;
           Modes := uniqueModes [] (Modes existingCmd ++ Modes cmd) |}
  end.

Definition registerCommands (defined : GoMap CommandDef) : GoMap CommandDef :=
  fold_left registerCommand commands defined.

(** The table the constructor leaves in [sim.definedCommands]. *)
Definition definedCommands : GoMap CommandDef := registerCommands [].

(** [buildModeCommandMaps]: the commands of each mode. *)
Definition buildModeCommandMaps (defined : GoMap CommandDef) (m : Mode)
  : GoMap CommandDef :=
  fold_left
    (fun acc entry =>
       let cmdDef := snd entry in
       if existsb (Mode_eqb m) (Modes cmdDef)
       then mapSet acc (Name cmdDef) cmdDef else acc)
    defined [].

Definition modeCommandMap : Mode -> GoMap CommandDef :=
  buildModeCommandMaps definedCommands.

Definition getValidCommandsForMode (sim : CiscoDeviceSimulator)
  : list string :=
  sort.Strings (mapKeys (modeCommandMap (mode sim)) ++ ["?"]).

Definition doHelp (args : list string) (sim : CiscoDeviceSimulator)
  : Outcome :=
  Returned sim
    (["Available commands in this context:"]
     ++ map (fun cmd => "  " +++ cmd) (getValidCommandsForMode sim)
     ++ ["(Use TAB for completion, abbreviations are supported)"])
    None.

(** ** Resolution and dispatch *)

(** The loop of [findCommandByAbbreviation] over the available names. *)
Definition collectMatches (userInputLower : string)
    (availableCommands : list string) : list CommandDef :=
  fold_left
    (fun matches cmdName =>
       if String.eqb cmdName "?" then matches
       else if strings.HasPrefix (strings.ToLower cmdName) userInputLower then
         match mapGet definedCommands cmdName with
         | Some cmdDef => matches ++ [cmdDef]
         | None => matches
         end
       else matches)
    availableCommands [].

Definition findCommandByAbbreviation (sim : CiscoDeviceSimulator)
    (userInput : string) : CommandDef + error :=
  let userInputLower := strings.ToLower userInput in
  let availableCommands := getValidCommandsForMode sim in
  if String.eqb userInput "?" then
    inl {| Name := "?"; Handler := doHelp; Modes := [] |}
  else
    let matches := collectMatches userInputLower availableCommands in
    match matches with
    | [m] => inl m
    | [] => inr (Wrapped ErrInvalidInput userInput)
    | _ =>
        match find (fun m => String.eqb (strings.ToLower (Name m))
                                        userInputLower) matches with
        | Some m => inl m
        | None => inr (Wrapped ErrAmbiguousCommand userInput)
        end
    end.

(** [processCommand].  A handler is never nil here, so that the branch of
    the source for a definition without handler has no counterpart. *)
Definition processCommand (line : string) (sim : CiscoDeviceSimulator)
  : Outcome :=
  match strings.Fields line with
  | [] => Returned sim [] None
  | userCmdInput :: args =>
      match findCommandByAbbreviation sim userCmdInput with
      | inr err => fail sim err
      | inl cmdDef => Handler cmdDef args sim
      end
  end.

(** One turn of the input loop of [run] and [runBasic] on a line that was
    read: the line is trimmed, an empty one is skipped, any other is
    recorded in the history and processed.  The diagnostics the loop
    prints for an error are left out; the state it continues with is the
    one the handler left. *)
Definition loopTurn (line : string) (sim : CiscoDeviceSimulator) : Outcome :=
  let line := strings.TrimSpace line in
  if isEmpty line then Returned sim [] None
  else
    processCommand line
      (setCommandHistory sim (commandHistory sim ++ [line])).

(** The loop over the lines of a session, as long as every turn returns. *)
Fixpoint session (lines : list string) (sim : CiscoDeviceSimulator)
  : option CiscoDeviceSimulator :=
  match lines with
  | [] => Some sim
  | line :: rest =>
      match loopTurn line sim with
      | Returned sim' _ _ => session rest sim'
      | _ => None
      end
  end.

(** ** Vocabulary of the specification *)

(** A command is valid in a mode when the mode is among its [Modes]. *)
Definition validIn (m : Mode) (d : CommandDef) : bool :=
  existsb (Mode_eqb m) (Modes d).

(** The registered commands valid in mode [m]. *)
Definition commandsOf (m : Mode) : list CommandDef :=
  filter (validIn m) (map snd definedCommands).

(** [token] is a prefix of the name of [d], case being ignored. *)
Definition abbreviates (token : string) (d : CommandDef) : bool :=
  String.prefix (strings.ToLower token) (strings.ToLower (Name d)).

(** [token] is the name of [d], case being ignored. *)
Definition namedBy (token : string) (d : CommandDef) : bool :=
  String.eqb (strings.ToLower (Name d)) (strings.ToLower token).

(** The outcome the specification prescribes for a token, given the
    commands of the mode: none matching is invalid input, one is the
    answer, and among several the only one named by the token. *)
Definition resolution (token : string) (available : list CommandDef)
  : CommandDef + error :=
  match filter (abbreviates token) available with
  | [] => inr (Wrapped ErrInvalidInput token)
  | [d] => inl d
  | candidates =>
      match filter (namedBy token) candidates with
      | [d] => inl d
      | _ => inr (Wrapped ErrAmbiguousCommand token)
      end
  end.

(** The decision of the resolver once the matches are collected. *)
Definition decide (token : string) (matches : list CommandDef)
  : CommandDef + error :=
  match matches with
  | [m] => inl m
  | [] => inr (Wrapped ErrInvalidInput token)
  | _ =>
      match find (fun m => String.eqb (strings.ToLower (Name m))
                                      (strings.ToLower token)) matches with
      | Some m => inl m
      | None => inr (Wrapped ErrAmbiguousCommand token)
      end
  end.

(** The invariant of an interface: the operational status follows from the
    administrative status and the presence of an address. *)
Definition interfaceStateOK (d : InterfaceConfig) : Prop :=
  (AdminStatus d = "down" -> Status d = "administratively down")
  /\ (AdminStatus d = "up" -> IPAddress d <> "" -> Status d = "up")
  /\ (AdminStatus d = "up" -> IPAddress d = "" -> Status d = "down").

(** Every interface of the configuration satisfies the invariant. *)
Definition configOK (sim : CiscoDeviceSimulator) : Prop :=
  Forall (fun entry => interfaceStateOK (snd entry))
         (Interfaces (runningConfig sim)).

(** The handlers of the simulator: those of the command table, the help
    action, and the ones [doNo] and [doShow] pass control to. *)
Definition handlers : list CommandHandler :=
  [ doHelp; doExitQuit; doExitMode; doEnd; doEnable; doDisable; doConfigure;
    doHostname; doInterface; doIP; doShutdown; doNo; noShutdown; noIPAddress;
    doShow; showVersion; showRunningConfig; showIPInterfaceBrief;
    showHistoryCmd ].

(** What is asked of a handler: a call that returns keeps the invariant,
    and one that returns an error leaves the state as it was. *)
Definition wellBehaved (h : CommandHandler) : Prop :=
  forall args sim sim' out err,
    h args sim = Returned sim' out err ->
    (configOK sim -> configOK sim') /\ (err <> None -> sim' = sim).

(** A state in interface configuration mode, bound to an interface that is
    administratively up and has no address yet. *)
Definition boundSim : CiscoDeviceSimulator :=
  {| hostname := "Router";
     mode := ModeInterfaceConfig;
     runningConfig :=
       {| Hostname := "Router";
          Interfaces :=
            [("GigabitEthernet0/0",
              {| IPAddress := ""; SubnetMask := "";
                 Status := "down"; AdminStatus := "up" |})] |};
     currentInterface := "GigabitEthernet0/0";
     commandHistory := [];
     startTime := 0;
     clock := 0 |}.

(** The exit command the table registers for the configuration modes. *)
Definition exitCommand : CommandDef :=
  mkCommandDef "exit" doExitQuit
    [ModeUserExec; ModePrivExec; ModeGlobalConfig; ModeInterfaceConfig].

(** The first argument begins with the letter t, in either case. *)
Definition beginsWithT (args : list string) : bool :=
  match args with
  | a :: _ => String.prefix "t" (strings.ToLower a)
  | [] => false
  end.

(** [s] cut at every occurrence of [sep]. *)
Fixpoint splitOn (sep : ascii) (s : string) : list string :=
  match s with
  | EmptyString => [EmptyString]
  | String c r =>
      if Ascii.eqb c sep then EmptyString :: splitOn sep r
      else
        match splitOn sep r with
        | w :: ws => String c w :: ws
        | [] => [String c EmptyString]
        end
  end.

(** An IPv4 literal in the words of the specification: four decimal
    numbers of one to three digits, none above 255, separated by dots. *)
Definition ipv4Literal (s : string) : bool :=
  match splitOn "." s with
  | [a; b; c; d] =>
      forallb (fun t => negb (isEmpty t) && forallb_string isDigit t
                        && Nat.leb (String.length t) 3
                        && (strconv.decimal 0 t <=? 255))
              [a; b; c; d]
  | _ => false
  end.

(** What the specification asks of a handler without arguments: given
    any, it returns an error for bad arguments and leaves the state. *)
Definition rejectsArguments (h : CommandHandler) : Prop :=
  forall args sim, args <> [] ->
    exists text, h args sim = Returned sim [] (Some (Wrapped ErrBadArguments text)).



(** The weight of an interface type, by its first letter. *)
Definition typeWeight (ty : string) : Z :=
  match strings.ToLower ty with
  | String "f" _ => 1
  | String "g" _ => 2
  | String "t" _ => 3
  | _ => 99
  end.

(** The lines a renderer prints for the interface called [name]. *)
Definition entryLines (render : string -> InterfaceConfig -> list string)
    (interfaces : GoMap InterfaceConfig) (name : string) : list string :=
  match mapGet interfaces name with
  | Some intfData => render name intfData
  | None => []
  end.

(** The strict order of sort keys that [interfaceLess] computes. *)
Definition keyLtb (k1 k2 : Z * Z * Z) : bool :=
  let '(t1, s1, p1) := k1 in
  let '(t2, s2, p2) := k2 in
  if negb (t1 =? t2) then t1 <? t2
  else if negb (s1 =? s2) then s1 <? s2
  else p1 <? p2.

(** A text of digits, at least one. *)
Definition isNumber (s : string) : bool :=
  negb (isEmpty s) && forallb_string isDigit s.

(** A text of letters, at least one. *)
Definition isWord (s : string) : bool :=
  negb (isEmpty s) && forallb_string isLetter s.

(** The commands of each mode in the order of their sorted names, the
    order in which the resolver meets them. *)
Definition sortedCommands (m : Mode) : list CommandDef :=
  match m with
  | ModeUserExec =>
      [ mkCommandDef "enable" doEnable [ModeUserExec];
        mkCommandDef "exit" doExitQuit
          [ModeUserExec; ModePrivExec; ModeGlobalConfig; ModeInterfaceConfig];
        mkCommandDef "quit" doExitQuit [ModeUserExec] ]
  | ModePrivExec =>
      [ mkCommandDef "configure" doConfigure [ModePrivExec];
        mkCommandDef "disable" doDisable [ModePrivExec];
        mkCommandDef "exit" doExitQuit
          [ModeUserExec; ModePrivExec; ModeGlobalConfig; ModeInterfaceConfig];
        mkCommandDef "history" showHistoryCmd [ModePrivExec];
        mkCommandDef "show" doShow [ModePrivExec] ]
  | ModeGlobalConfig =>
      [ mkCommandDef "end" doEnd [ModeGlobalConfig; ModeInterfaceConfig];
        mkCommandDef "exit" doExitQuit
          [ModeUserExec; ModePrivExec; ModeGlobalConfig; ModeInterfaceConfig];
        mkCommandDef "hostname" doHostname [ModeGlobalConfig];
        mkCommandDef "interface" doInterface [ModeGlobalConfig];
        mkCommandDef "no" doNo [ModeGlobalConfig; ModeInterfaceConfig] ]
  | ModeInterfaceConfig =>
      [ mkCommandDef "end" doEnd [ModeGlobalConfig; ModeInterfaceConfig];
        mkCommandDef "exit" doExitQuit
          [ModeUserExec; ModePrivExec; ModeGlobalConfig; ModeInterfaceConfig];
        mkCommandDef "ip" doIP [ModeInterfaceConfig];
        mkCommandDef "no" doNo [ModeGlobalConfig; ModeInterfaceConfig];
        mkCommandDef "shutdown" doShutdown [ModeInterfaceConfig] ]
  end.

(** The state after a session from a fresh simulator, if every line
    returns. *)
Definition after (lines : list string) : option CiscoDeviceSimulator :=
  session lines (NewCiscoDeviceSimulator "Router" 0).

(** ** Further vocabulary *)

(** The table that the loop of [registerCommands] builds from any list of
    definitions. *)
Definition registered (cmds : list CommandDef) : GoMap CommandDef :=
  fold_left registerCommand cmds [].

(** A table whose keys are distinct and are the names of its entries. *)
Definition tableOK (t : GoMap CommandDef) : Prop :=
  NoDup (mapKeys t) /\ Forall (fun e => Name (snd e) = fst e) t.

(** The current interface, if there is one, has an entry in the map. *)
Definition bound (sim : CiscoDeviceSimulator) : Prop :=
  currentInterface sim = ""
  \/ exists intfData,
       mapGet (Interfaces (runningConfig sim)) (currentInterface sim)
       = Some intfData.

(** What a handler that returns leaves alone: the fields outside the
    running configuration and the mode, the entries of the interfaces
    other than the one it ends bound to, the presence of every interface,
    the binding to an existing interface, and a host name it did not
    validate. *)
Definition framed (h : CommandHandler) : Prop :=
  forall args sim sim' out err,
    h args sim = Returned sim' out err ->
    hostname sim' = hostname sim
    /\ commandHistory sim' = commandHistory sim
    /\ startTime sim' = startTime sim
    /\ clock sim' = clock sim
    /\ (forall k, k <> currentInterface sim' ->
          mapGet (Interfaces (runningConfig sim')) k
          = mapGet (Interfaces (runningConfig sim)) k)
    /\ (forall k, In k (mapKeys (Interfaces (runningConfig sim))) ->
          In k (mapKeys (Interfaces (runningConfig sim'))))
    /\ (bound sim -> bound sim')
    /\ (Hostname (runningConfig sim') = Hostname (runningConfig sim)
        \/ matchHostname (Hostname (runningConfig sim')) = true).

(** A handler never runs into the nil dereference when the current
    interface, if any, exists; and it ends the process only from the two
    exec modes. *)
Definition guarded (h : CommandHandler) : Prop :=
  forall args sim,
    (bound sim -> h args sim <> Panicked)
    /\ (forall out, h args sim = Exited out ->
          out = ["Exiting simulator."]
          /\ (mode sim = ModeUserExec \/ mode sim = ModePrivExec)).

(** The characters of a host name. *)
Definition isHostChar (c : ascii) : bool := isAlnum c || Ascii.eqb c "-".

(** The changes of mode a line can bring about. *)
Definition modeStep (m m' : Mode) : Prop :=
  m' = m
  \/ match m, m' with
     | ModeUserExec, ModePrivExec
     | ModePrivExec, ModeUserExec
     | ModePrivExec, ModeGlobalConfig
     | ModeGlobalConfig, ModeInterfaceConfig
     | ModeGlobalConfig, ModePrivExec
     | ModeInterfaceConfig, ModePrivExec => True
     | _, _ => False
     end.

(** Interface mode goes with a current interface, and only it. *)
Definition modeBinding (sim : CiscoDeviceSimulator) : bool :=
  Bool.eqb (Mode_eqb (mode sim) ModeInterfaceConfig)
           (negb (isEmpty (currentInterface sim))).

(** A handler that changes neither the mode nor the current interface. *)
Definition keepsContext (h : CommandHandler) : Prop :=
  forall args sim sim' out err,
    h args sim = Returned sim' out err ->
    mode sim' = mode sim /\ currentInterface sim' = currentInterface sim.

(** The three full type names that [normalizeInterfaceName] produces. *)
Definition baseNames : list string :=
  ["GigabitEthernet"; "FastEthernet"; "Ethernet"].

(** A canonical interface name: a full type name, a slot and a port. *)
Definition canonicalName (name : string) : Prop :=
  exists base slot port,
    name = base +++ slot +++ "/" +++ port
    /\ In base baseNames
    /\ isNumber slot = true /\ isNumber port = true.

(** A token: a non-empty text without white space. *)
Definition isToken (t : string) : bool :=
  negb (isEmpty t) && forallb_string (fun c => negb (strings.isSpace c)) t.

(** The characters of [s] that satisfy [p], in order. *)
Fixpoint filterString (p : ascii -> bool) (s : string) : string :=
  match s with
  | EmptyString => EmptyString
  | String c r => if p c then String c (filterString p r) else filterString p r
  end.

(** ** The diagnostics of the input loop *)

(** [s] without its first [n] characters. *)
Fixpoint dropN (n : nat) (s : string) : string :=
  match n, s with
  | O, _ => s
  | S k, String _ r => dropN k r
  | S _, EmptyString => EmptyString
  end.

(** [strings.Index]: where [sub] first occurs in [s], counted from [i];
    -1 when it does not occur. *)
Fixpoint indexFrom (i : Z) (s sub : string) : Z :=
  if String.prefix sub s then i
  else
    match s with
    | EmptyString => -1
    | String _ r => indexFrom (i + 1) r sub
    end.

Definition Index (s sub : string) : Z := indexFrom 0 s sub.

(** [strings.IndexFunc]: where the first character satisfying [f] is. *)
Fixpoint indexFuncFrom (i : Z) (s : string) (f : ascii -> bool) : Z :=
  match s with
  | EmptyString => -1
  | String c r => if f c then i else indexFuncFrom (i + 1) r f
  end.

Definition IndexFunc (s : string) (f : ascii -> bool) : Z :=
  indexFuncFrom 0 s f.

(** [strings.SplitN(s, sep, 2)] for a non-empty separator: the text before
    and after the first occurrence of [sep], or [s] alone without one. *)
Fixpoint splitFirst (sep s : string) : option (string * string) :=
  if String.prefix sep s then Some (EmptyString, dropN (String.length sep) s)
  else
    match s with
    | EmptyString => None
    | String c r =>
        match splitFirst sep r with
        | Some (a, b) => Some (String c a, b)
        | None => None
        end
    end.

Definition SplitN2 (s sep : string) : list string :=
  match splitFirst sep s with
  | Some (a, b) => [a; b]
  | None => [s]
  end.

(** The double quote. *)
Definition quote : string := String "034"%char EmptyString.

(** [printInvalidInputMarker]: the three lines it prints. *)
Definition printInvalidInputMarker (line badPart : string) : list string :=
  let lowerLine := strings.ToLower line in
  let lowerBadPart := strings.ToLower badPart in
  let markerPos := Index lowerLine lowerBadPart in
  let markerPos :=
    if markerPos =? -1 then
      let p := IndexFunc line
                 (fun r => negb (Ascii.eqb r " " || Ascii.eqb r "009")) in
      if p =? -1 then 0 else p
    else markerPos in
  [ "% Invalid input detected at '^' marker.";
    "  " +++ line;
    "  " +++ fmt.spaces (Z.to_nat markerPos) +++ "^" ].

(** The part of an error message after the first colon and space, or the
    line when there is none. *)
Definition reportedPart (line : string) (processErr : error) : string :=
  match SplitN2 (errorText processErr) ": " with
  | [_; part] => part
  | _ => line
  end.

(** What [run] and [runBasic] do with the error of a line: the lines
    printed, and the message handed to the logger. *)
Definition reportError (line : string) (processErr : error)
  : list string * list string :=
  if errorsIs processErr ErrAmbiguousCommand then
    (["% Ambiguous command: " +++ quote +++ reportedPart line processErr
        +++ quote], [])
  else if errorsIs processErr ErrInvalidInput then
    (printInvalidInputMarker line (reportedPart line processErr), [])
  else if errorsIs processErr ErrIncompleteCommand
          || errorsIs processErr ErrBadArguments then
    (["% " +++ errorText processErr], [])
  else
    ([], ["Error processing command: " +++ errorText processErr]).

(** ** Completion *)

(** [strings.HasSuffix]. *)
Definition HasSuffix (s suffix : string) : bool :=
  Nat.leb (String.length suffix) (String.length s)
  && String.eqb (dropN (String.length s - String.length suffix) s) suffix.

(** [parts[lo:hi]], for a slice whose capacity is its length; [None] is
    the run-time panic of a bound out of range. *)
Definition slice (parts : list string) (lo hi : Z) : option (list string) :=
  if (0 <=? lo) && (lo <=? hi) && (hi <=? Z.of_nat (length parts)) then
    Some (firstn (Z.to_nat (hi - lo)) (skipn (Z.to_nat lo) parts))
  else None.

(** [parts[i]]; [None] is the run-time panic of an index out of range. *)
Definition index (parts : list string) (i : Z) : option string :=
  if 0 <=? i then nth_error parts (Z.to_nat i) else None.

(** The options among [opts] that begin with [text]. *)
Definition beginningWith (text : string) (opts : list string) : list string :=
  filter (fun opt => strings.HasPrefix opt text) opts.

(** [completeShow]. *)
Definition completeShow (parts : list string) (text : string) (wordIndex : Z)
  : option (list string) :=
  let ipOptions := ["interface"] in
  let ipIntOptions := ["brief"] in
  if wordIndex =? 1 then Some (beginningWith text showOptions)
  else if wordIndex =? 2 then
    match index parts 1 with
    | None => None
    | Some p1 =>
        if strings.HasPrefix p1 "ip" then Some (beginningWith text ipOptions)
        else Some []
    end
  else if wordIndex =? 3 then
    match index parts 1 with
    | None => None
    | Some p1 =>
        if strings.HasPrefix p1 "ip" then
          match index parts 2 with
          | None => None
          | Some p2 =>
              if strings.HasPrefix p2 "int"
              then Some (beginningWith text ipIntOptions)
              else Some []
          end
        else Some []
    end
  else Some [].

(** The regular expression of [completeInterface] against the whole of
    [s]: one digit or more, then possibly a slash and any number of
    digits, up to the end. *)
Definition matchNumPart (s : string) : bool :=
  let '(digits, rest) := span isDigit s in
  negb (isEmpty digits)
  && match rest with
     | EmptyString => true
     | String c rest' => Ascii.eqb c "/" && forallb_string isDigit rest'
     end.

(** [FindStringSubmatch]: the leftmost match, which ends where [s] ends. *)
Fixpoint findNumPart (s : string) : option string :=
  if matchNumPart s then Some s
  else
    match s with
    | EmptyString => None
    | String _ r => findNumPart r
    end.

(** The port numbers [completeInterface] proposes. *)
Definition portNumbers : list string :=
  map (fun i => "0/" +++ strconv.Itoa i) [0; 1; 2; 3; 4].

(** The loop that drops the completions seen before. *)
Fixpoint uniqueStrings (seen completions : list string) : list string :=
  match completions with
  | [] => []
  | c :: rest =>
      if contains seen c then uniqueStrings seen rest
      else c :: uniqueStrings (c :: seen) rest
  end.

Definition interfaceTypes : list string :=
  ["GigabitEthernet"; "FastEthernet"; "g"; "f"; "gi"; "fa"].

(** [completeInterface]. *)
Definition completeInterface (parts : list string) (text : string)
    (wordIndex : Z) (sim : CiscoDeviceSimulator) : option (list string) :=
  let types := interfaceTypes in
  let existing := mapKeys (Interfaces (runningConfig sim)) in
  let completions :=
    if wordIndex =? 1 then
      let possible := sort.Strings (types ++ existing) in
      Some (filter (fun opt => strings.HasPrefix (strings.ToLower opt)
                                                 (strings.ToLower text))
                   possible)
    else if 1 <=? wordIndex then
      match slice parts 1 wordIndex with
      | None => None
      | Some between =>
          let currentPrefix := strings.Join between "" +++ text in
          let found :=
            filter (fun name => strings.HasPrefix (strings.ToLower name)
                                  (strings.ToLower currentPrefix))
                   existing in
          let foundExisting := match found with [] => false | _ => true end in
          if negb foundExisting && (wordIndex =? 1)
             && (1 <? Z.of_nat (length parts))
             && match index parts 1 with
                | Some p1 => strings.HasPrefix p1 "g" || strings.HasPrefix p1 "f"
                | None => false
                end
          then
            let numPartTyped :=
              match findNumPart text with
              | Some m => m
              | None => EmptyString
              end in
            Some (found ++ beginningWith numPartTyped portNumbers)
          else Some found
      end
    else Some [] in
  match completions with
  | Some l => Some (uniqueStrings [] l)
  | None => None
  end.

(** [completeNoSubcommand]. *)
Definition completeNoSubcommand (text : string) (sim : CiscoDeviceSimulator)
  : list string :=
  let possibleNoCommands :=
    match mode sim with
    | ModeInterfaceConfig => ["shutdown"; "ip"]
    | ModeGlobalConfig => ["hostname"; "interface"]
    | _ => []
    end in
  beginningWith text possibleNoCommands.

(** The word being completed: its index and the text typed so far. *)
Definition wordToComplete (line : string) (parts : list string)
  : option (Z * string) :=
  let isStartingNewWord := HasSuffix line " " in
  if isStartingNewWord then Some (Z.of_nat (length parts), EmptyString)
  else if 0 <? Z.of_nat (length parts) then
    let wordIndex := Z.of_nat (length parts) - 1 in
    match index parts wordIndex with
    | Some textToComplete => Some (wordIndex, textToComplete)
    | None => None
    end
  else Some (0, EmptyString).

(** [getDynamicCompletions]; [None] is a run-time panic. *)
Definition getDynamicCompletions (line : string) (sim : CiscoDeviceSimulator)
  : option (list string) :=
  let parts := strings.Fields line in
  let currentModeCommands := getValidCommandsForMode sim in
  match wordToComplete line parts with
  | None => None
  | Some (wordIndex, textToComplete) =>
      if wordIndex =? 0 then
        Some (beginningWith textToComplete currentModeCommands)
      else if 0 <? Z.of_nat (length parts) then
        match index parts 0 with
        | None => None
        | Some firstCmdInput =>
            let baseCmd :=
              match findCommandByAbbreviation sim firstCmdInput with
              | inl cmdDef => Name cmdDef
              | inr _ => EmptyString
              end in
            if String.eqb baseCmd "show" then
              if Mode_eqb (mode sim) ModePrivExec
              then completeShow parts textToComplete wordIndex
              else Some []
            else if String.eqb baseCmd "configure" then
              if Mode_eqb (mode sim) ModePrivExec && (wordIndex =? 1)
              then Some (beginningWith textToComplete ["terminal"])
              else Some []
            else if String.eqb baseCmd "interface" then
              if Mode_eqb (mode sim) ModeGlobalConfig && (1 <=? wordIndex)
              then completeInterface parts textToComplete wordIndex sim
              else Some []
            else if String.eqb baseCmd "ip" then
              if Mode_eqb (mode sim) ModeInterfaceConfig && (wordIndex =? 1)
              then Some (beginningWith textToComplete ["address"])
              else Some []
            else if String.eqb baseCmd "no" then
              if wordIndex =? 1 then
                Some (completeNoSubcommand textToComplete sim)
              else if (wordIndex =? 2) && (1 <? Z.of_nat (length parts))
                      && match index parts 1 with
                         | Some p1 => strings.HasPrefix p1 "ip"
                         | None => false
                         end
              then
                if Mode_eqb (mode sim) ModeInterfaceConfig
                then Some (beginningWith textToComplete ["address"])
                else Some []
              else Some []
            else Some []
        end
      else Some []
  end.

(** A sub-command that [doShow] or [doNo] was given is recognised when the
    error, if any, is neither invalid input nor an ambiguity. *)
Definition recognised (o : Outcome) : bool :=
  match o with
  | Returned _ _ (Some e) =>
      negb (errorsIs e ErrInvalidInput || errorsIs e ErrAmbiguousCommand)
  | _ => true
  end.

(** ** The command tables, computed *)

Lemma definedCommands_eq :
  definedCommands =
  [ ("enable", mkCommandDef "enable" doEnable [ModeUserExec]);
    ("exit", mkCommandDef "exit" doExitQuit
               [ModeUserExec; ModePrivExec; ModeGlobalConfig;
                ModeInterfaceConfig]);
    ("quit", mkCommandDef "quit" doExitQuit [ModeUserExec]);
    ("disable", mkCommandDef "disable" doDisable [ModePrivExec]);
    ("configure", mkCommandDef "configure" doConfigure [ModePrivExec]);
    ("show", mkCommandDef "show" doShow [ModePrivExec]);
    ("history", mkCommandDef "history" showHistoryCmd [ModePrivExec]);
    ("end", mkCommandDef "end" doEnd [ModeGlobalConfig; ModeInterfaceConfig]);
    ("hostname", mkCommandDef "hostname" doHostname [ModeGlobalConfig]);
    ("interface", mkCommandDef "interface" doInterface [ModeGlobalConfig]);
    ("no", mkCommandDef "no" doNo [ModeGlobalConfig; ModeInterfaceConfig]);
    ("ip", mkCommandDef "ip" doIP [ModeInterfaceConfig]);
    ("shutdown", mkCommandDef "shutdown" doShutdown [ModeInterfaceConfig]) ].
Proof. reflexivity. Qed.

Lemma getValidCommandsForMode_eq (sim : CiscoDeviceSimulator) :
  getValidCommandsForMode sim =
  match mode sim with
  | ModeUserExec => ["?"; "enable"; "exit"; "quit"]
  | ModePrivExec => ["?"; "configure"; "disable"; "exit"; "history"; "show"]
  | ModeGlobalConfig => ["?"; "end"; "exit"; "hostname"; "interface"; "no"]
  | ModeInterfaceConfig => ["?"; "end"; "exit"; "ip"; "no"; "shutdown"]
  end.
Proof.
  unfold getValidCommandsForMode.
  destruct (mode sim); vm_compute; reflexivity.
Qed.

(** ** Resolution (C1) *)

(** Replaces the lower-casing of a literal by its value. *)
Ltac lower_literals :=
  repeat match goal with
  | |- context [strings.ToLower (String ?c ?s)] =>
      let v := eval vm_compute in (strings.ToLower (String c s)) in
      change (strings.ToLower (String c s)) with v
  | H : context [strings.ToLower (String ?c ?s)] |- _ =>
      let v := eval vm_compute in (strings.ToLower (String c s)) in
      change (strings.ToLower (String c s)) with v in H
  end.

Lemma commandsOf_eq (m : Mode) :
  commandsOf m =
  match m with
  | ModeUserExec =>
      [ mkCommandDef "enable" doEnable [ModeUserExec];
        mkCommandDef "exit" doExitQuit
          [ModeUserExec; ModePrivExec; ModeGlobalConfig; ModeInterfaceConfig];
        mkCommandDef "quit" doExitQuit [ModeUserExec] ]
  | ModePrivExec =>
      [ mkCommandDef "exit" doExitQuit
          [ModeUserExec; ModePrivExec; ModeGlobalConfig; ModeInterfaceConfig];
        mkCommandDef "disable" doDisable [ModePrivExec];
        mkCommandDef "configure" doConfigure [ModePrivExec];
        mkCommandDef "show" doShow [ModePrivExec];
        mkCommandDef "history" showHistoryCmd [ModePrivExec] ]
  | ModeGlobalConfig =>
      [ mkCommandDef "exit" doExitQuit
          [ModeUserExec; ModePrivExec; ModeGlobalConfig; ModeInterfaceConfig];
        mkCommandDef "end" doEnd [ModeGlobalConfig; ModeInterfaceConfig];
        mkCommandDef "hostname" doHostname [ModeGlobalConfig];
        mkCommandDef "interface" doInterface [ModeGlobalConfig];
        mkCommandDef "no" doNo [ModeGlobalConfig; ModeInterfaceConfig] ]
  | ModeInterfaceConfig =>
      [ mkCommandDef "exit" doExitQuit
          [ModeUserExec; ModePrivExec; ModeGlobalConfig; ModeInterfaceConfig];
        mkCommandDef "end" doEnd [ModeGlobalConfig; ModeInterfaceConfig];
        mkCommandDef "no" doNo [ModeGlobalConfig; ModeInterfaceConfig];
        mkCommandDef "ip" doIP [ModeInterfaceConfig];
        mkCommandDef "shutdown" doShutdown [ModeInterfaceConfig] ]
  end.
Proof.
  unfold commandsOf. rewrite definedCommands_eq. destruct m; reflexivity.
Qed.


Lemma getValidCommandsForMode_sorted (sim : CiscoDeviceSimulator) :
  getValidCommandsForMode sim = "?" :: map Name (sortedCommands (mode sim)).
Proof.
  rewrite getValidCommandsForMode_eq. destruct (mode sim); reflexivity.
Qed.

(** Every sorted command is the table's entry under its name, and none is
    called [?]. *)
Lemma sortedCommands_registered (m : Mode) :
  Forall (fun d => mapGet definedCommands (Name d) = Some d
                   /\ String.eqb (Name d) "?" = false)
         (sortedCommands m).
Proof.
  rewrite definedCommands_eq.
  destruct m; repeat constructor.
Qed.

(** Proves that one explicit list rearranges another, element by element. *)
Ltac perm_solve :=
  lazymatch goal with
  | |- Permutation nil nil => apply perm_nil
  | |- Permutation (?a :: ?l) ?r =>
      let rec go pre rest :=
        lazymatch rest with
        | a :: ?t => apply (Permutation_cons_app pre t a)
        | ?b :: ?t => go (pre ++ [b]) t
        end in
      go (@nil CommandDef) r; cbn [app]; perm_solve
  end.

Lemma sortedCommands_perm (m : Mode) :
  Permutation (sortedCommands m) (commandsOf m).
Proof.
  rewrite commandsOf_eq.
  destruct m; cbv [sortedCommands]; perm_solve.
Qed.

(** The names of a mode stay distinct when case is ignored. *)
Lemma sortedCommands_NoDup (m : Mode) :
  NoDup (map (fun d => strings.ToLower (Name d)) (sortedCommands m)).
Proof.
  destruct m; vm_compute;
    repeat (constructor; [cbn; intuition discriminate |]); constructor.
Qed.

Section Resolver.

Variable token : string.

(** The loop of the resolver keeps, of the commands whose names it walks,
    those that the token abbreviates. *)
Lemma collectMatches_loop (ds acc : list CommandDef) :
  Forall (fun d => mapGet definedCommands (Name d) = Some d
                   /\ String.eqb (Name d) "?" = false) ds ->
  fold_left
    (fun matches cmdName =>
       if String.eqb cmdName "?" then matches
       else if strings.HasPrefix (strings.ToLower cmdName)
                                 (strings.ToLower token) then
         match mapGet definedCommands cmdName with
         | Some cmdDef => matches ++ [cmdDef]
         | None => matches
         end
       else matches)
    (map Name ds) acc
  = acc ++ filter (abbreviates token) ds.
Proof.
  intros H. revert acc.
  induction H as [| d ds [Hget Hq] _ IH]; intros acc; cbn [map fold_left filter].
  - now rewrite app_nil_r.
  - rewrite Hq, Hget, IH. unfold abbreviates, strings.HasPrefix.
    destruct (String.prefix _ _); [now rewrite <- app_assoc | reflexivity].
Qed.

Lemma collectMatches_sorted (sim : CiscoDeviceSimulator) :
  collectMatches (strings.ToLower token) (getValidCommandsForMode sim)
  = filter (abbreviates token) (sortedCommands (mode sim)).
Proof.
  rewrite getValidCommandsForMode_sorted. unfold collectMatches.
  cbn [fold_left]. change (String.eqb "?" "?") with true. cbv iota.
  apply (collectMatches_loop _ []), sortedCommands_registered.
Qed.

(** [find] yields the head of the filtered list. *)
Lemma find_filter {A : Type} (p : A -> bool) (l : list A) :
  find p l = hd_error (filter p l).
Proof.
  induction l as [| a l IH]; cbn; [reflexivity |].
  destruct (p a); [reflexivity | exact IH].
Qed.

(** Commands with distinct lower-cased names: the token names one at most. *)
Lemma namedBy_unique (l : list CommandDef) :
  NoDup (map (fun d => strings.ToLower (Name d)) l) ->
  (length (filter (namedBy token) l) <= 1)%nat.
Proof.
  induction l as [| d l IH]; cbn [map filter]; intros Hnd; [cbn; lia |].
  inversion Hnd as [| x xs Hnotin Hnd']; subst.
  destruct (namedBy token d) eqn:E; [| auto].
  cbn [length].
  destruct (filter (namedBy token) l) as [| d' r] eqn:F; [cbn; lia |].
  exfalso. apply Hnotin.
  assert (Hin : In d' (filter (namedBy token) l)) by (rewrite F; now left).
  apply filter_In in Hin. destruct Hin as [Hin Hn].
  unfold namedBy in E, Hn.
  apply String.eqb_eq in E. apply String.eqb_eq in Hn.
  rewrite E, <- Hn.
  apply (in_map (fun d => strings.ToLower (Name d))), Hin.
Qed.

Lemma NoDup_filter {A : Type} (f : A -> string) (p : A -> bool) (l : list A) :
  NoDup (map f l) -> NoDup (map f (filter p l)).
Proof.
  induction l as [| a l IH]; cbn [map filter]; intros H; [constructor |].
  inversion H as [| x xs Hnotin Hnd]; subst.
  destruct (p a); [| auto].
  cbn [map]. constructor; [| auto].
  intros Hin. apply Hnotin.
  apply in_map_iff in Hin. destruct Hin as [b [Eb Hb]].
  apply filter_In in Hb. rewrite <- Eb. apply in_map, Hb.
Qed.

(** The decision does not depend on the order in which the commands are
    met, as long as their names are distinct. *)
Lemma decide_resolution (l l' : list CommandDef) :
  Permutation l l' ->
  NoDup (map (fun d => strings.ToLower (Name d)) l) ->
  decide token (filter (abbreviates token) l) = resolution token l'.
Proof.
  intros Hp Hnd. unfold resolution, decide.
  assert (Hc : Permutation (filter (abbreviates token) l)
                           (filter (abbreviates token) l')).
  { clear Hnd. induction Hp; cbn [filter];
      repeat match goal with |- context [abbreviates token ?x] =>
               destruct (abbreviates token x) end;
      eauto using Permutation, Permutation_refl. }
  pose proof (NoDup_filter _ (abbreviates token) _ Hnd) as Hnd'.
  pose proof (namedBy_unique _ Hnd') as Hle.
  set (c := filter (abbreviates token) l) in *.
  set (c' := filter (abbreviates token) l') in *.
  assert (He : Permutation (filter (namedBy token) c) (filter (namedBy token) c')).
  { clear Hle Hnd'. induction Hc; cbn [filter];
      repeat match goal with |- context [namedBy token ?x] =>
               destruct (namedBy token x) end;
      eauto using Permutation, Permutation_refl. }
  change (fun m => String.eqb (strings.ToLower (Name m)) (strings.ToLower token))
    with (namedBy token).
  rewrite find_filter.
  destruct c' as [| d1 [| d2 r']].
  - apply Permutation_sym, Permutation_nil in Hc. now rewrite Hc.
  - apply Permutation_sym, Permutation_length_1_inv in Hc. now rewrite Hc.
  - destruct c as [| e1 [| e2 r]].
    + apply Permutation_nil in Hc. discriminate.
    + apply Permutation_length_1_inv in Hc. discriminate.
    + destruct (filter (namedBy token) (d1 :: d2 :: r')) as [| x [| y t]] eqn:F.
      * apply Permutation_sym, Permutation_nil in He. now rewrite He.
      * apply Permutation_sym, Permutation_length_1_inv in He. now rewrite He.
      * apply Permutation_length in He. rewrite He in Hle. cbn in Hle. lia.
Qed.

End Resolver.

Lemma prefix_same (s : string) : String.prefix s s = true.
Proof.
  induction s as [| c s IH]; cbn; [reflexivity |].
  destruct (ascii_dec c c); [exact IH | congruence].
Qed.

Lemma findCommandByAbbreviation_decide
    (sim : CiscoDeviceSimulator) (token : string) :
  token <> "?" ->
  findCommandByAbbreviation sim token
  = decide token (filter (abbreviates token) (sortedCommands (mode sim))).
Proof.
  intros Hq. unfold findCommandByAbbreviation.
  destruct (String.eqb_spec token "?") as [E | _]; [contradiction |].
  rewrite collectMatches_sorted. reflexivity.
Qed.

Lemma commandsOf_NoDup (m : Mode) :
  NoDup (map (fun d => strings.ToLower (Name d)) (commandsOf m)).
Proof.
  eapply Permutation_NoDup; [| apply (sortedCommands_NoDup m)].
  apply Permutation_map, sortedCommands_perm.
Qed.

(** A token that names one of distinctly named commands resolves to it,
    whatever else it abbreviates. *)
Lemma resolution_named (token : string) (l : list CommandDef) (d : CommandDef) :
  NoDup (map (fun d => strings.ToLower (Name d)) l) ->
  In d l -> namedBy token d = true ->
  resolution token l = inl d.
Proof.
  intros Hnd Hin Hn. unfold resolution.
  assert (Hab : abbreviates token d = true).
  { unfold namedBy in Hn. apply String.eqb_eq in Hn.
    unfold abbreviates. rewrite Hn. apply prefix_same. }
  assert (Hc : In d (filter (abbreviates token) l)) by (apply filter_In; auto).
  pose proof (namedBy_unique token _ (NoDup_filter _ (abbreviates token) _ Hnd))
    as Hle.
  assert (He : In d (filter (namedBy token) (filter (abbreviates token) l)))
    by (apply filter_In; auto).
  destruct (filter (abbreviates token) l) as [| x [| y r]] eqn:F.
  - destruct Hc.
  - destruct Hc as [-> | []]. reflexivity.
  - destruct (filter (namedBy token) (x :: y :: r)) as [| e [| e' t]].
    + destruct He.
    + destruct He as [-> | []]. reflexivity.
    + cbn in Hle. lia.
Qed.

(** C1 (amended): for every mode and every token other than the literal
    [?], the resolver returns what the specification prescribes over the
    commands valid in the mode: invalid input when the token abbreviates
    none of them, the command when it abbreviates exactly one, and among
    several the one it names, else an ambiguity.  In particular a token
    that is the name of a command of the mode, case being ignored,
    resolves to that command. *)
Theorem findCommandByAbbreviation_resolution
    (sim : CiscoDeviceSimulator) (token : string) :
  token <> "?" ->
  findCommandByAbbreviation sim token
    = resolution token (commandsOf (mode sim))
  /\ (forall d, In d (commandsOf (mode sim)) ->
        strings.ToLower token = strings.ToLower (Name d) ->
        findCommandByAbbreviation sim token = inl d).
Proof.
  intros Hq.
  assert (H : findCommandByAbbreviation sim token
              = resolution token (commandsOf (mode sim))).
  { rewrite findCommandByAbbreviation_decide by assumption.
    apply decide_resolution;
      [apply sortedCommands_perm | apply sortedCommands_NoDup]. }
  split; [exact H |].
  intros d Hin Hl. rewrite H.
  apply resolution_named; [apply commandsOf_NoDup | assumption |].
  unfold namedBy. rewrite Hl. apply String.eqb_refl.
Qed.

Lemma findCommandByAbbreviation_resolution_witness :
  "sh" <> "?" /\
  findCommandByAbbreviation (setMode (NewCiscoDeviceSimulator "Router" 0)
                                     ModePrivExec) "sh"
  = inl (mkCommandDef "show" doShow [ModePrivExec]).
Proof.
  split; [discriminate |].
  destruct (findCommandByAbbreviation_resolution
              (setMode (NewCiscoDeviceSimulator "Router" 0) ModePrivExec) "sh")
    as [H _]; [discriminate |].
  rewrite H. reflexivity.
Defined.

(** C1 as stated fails at the token [?]: no command name begins with it,
    so that invalid input is prescribed, while the resolver answers with
    the help command, in every mode. *)
Lemma findCommandByAbbreviation_question_mark :
  resolution "?" (commandsOf ModeUserExec) = inr (Wrapped ErrInvalidInput "?")
  /\ findCommandByAbbreviation (NewCiscoDeviceSimulator "Router" 0) "?"
     = inl (mkCommandDef "?" doHelp [])
  /\ findCommandByAbbreviation (NewCiscoDeviceSimulator "Router" 0) "?"
     <> resolution "?" (commandsOf ModeUserExec).
Proof.
  assert (R : resolution "?" (commandsOf ModeUserExec)
              = inr (Wrapped ErrInvalidInput "?"))
    by (rewrite commandsOf_eq; reflexivity).
  split; [exact R |]. split; [reflexivity |].
  rewrite R. discriminate.
Qed.

(** ** The handlers keep the invariant and fail without effect (C2, C4) *)

Lemma mapGet_In {V : Type} (m : GoMap V) (k : string) (v : V) :
  mapGet m k = Some v -> exists k', In (k', v) m.
Proof.
  induction m as [| [k0 v0] m IH]; cbn; [discriminate |].
  destruct (String.eqb k0 k).
  - intros [= ->]. exists k0. now left.
  - intros H. destruct (IH H) as [k' Hin]. exists k'. now right.
Qed.

Lemma Forall_mapSet {V : Type} (P : V -> Prop) (m : GoMap V) (k : string)
    (v : V) :
  Forall (fun entry => P (snd entry)) m -> P v ->
  Forall (fun entry => P (snd entry)) (mapSet m k v).
Proof.
  intros Hm Hv. induction Hm as [| [k0 v0] m H0 Hm IH]; cbn.
  - constructor; [exact Hv | constructor].
  - destruct (String.eqb k0 k); constructor; auto.
Qed.

Lemma configOK_lookup (sim : CiscoDeviceSimulator) (k : string)
    (d : InterfaceConfig) :
  configOK sim -> mapGet (Interfaces (runningConfig sim)) k = Some d ->
  interfaceStateOK d.
Proof.
  intros Hok Hget. destruct (mapGet_In _ _ _ Hget) as [k' Hin].
  unfold configOK in Hok. rewrite Forall_forall in Hok.
  exact (Hok _ Hin).
Qed.

Lemma configOK_setInterface (sim : CiscoDeviceSimulator) (k : string)
    (d : InterfaceConfig) :
  configOK sim -> interfaceStateOK d -> configOK (setInterface sim k d).
Proof.
  intros Hok Hd. unfold configOK, setInterface. cbn.
  now apply Forall_mapSet.
Qed.

Lemma isEmpty_true (s : string) : isEmpty s = true -> s = "".
Proof. destruct s; [reflexivity | discriminate]. Qed.

Lemma isEmpty_false (s : string) : isEmpty s = false -> s <> "".
Proof. destruct s; [discriminate | intros _ H; discriminate H]. Qed.

Lemma Returned_inj (s s' : CiscoDeviceSimulator) (o o' : list string)
    (e e' : option error) :
  Returned s o e = Returned s' o' e' -> s = s' /\ o = o' /\ e = e'.
Proof. intros H. inversion H. auto. Qed.

(** Opens a call that returned, branch by branch. *)
Ltac case_outcome H :=
  unfold fail in H;
  repeat match type of H with
  | Returned _ _ _ = Returned _ _ _ =>
      apply Returned_inj in H; destruct H as [? [? ?]]; subst
  | context [match ?x with _ => _ end] => destruct x eqn:?; try discriminate H
  end.

(** The invariant of a record that a handler has just written. *)
Ltac new_state_ok :=
  match goal with
  | Hok : configOK ?sim, Hget : mapGet _ _ = Some ?d |- interfaceStateOK _ =>
      let Hd := fresh "Hd" in
      pose proof (configOK_lookup sim _ d Hok Hget) as Hd;
      destruct Hd as [Hd1 [Hd2 Hd3]];
      unfold interfaceStateOK; cbn [IPAddress SubnetMask Status AdminStatus];
      repeat match goal with
      | |- context [String.eqb ?a ?b] => destruct (String.eqb_spec a b)
      | |- context [isEmpty ?a] => destruct a eqn:?; cbn [isEmpty negb]
      end;
      repeat split; intros; subst; auto; try congruence; try discriminate
  | |- interfaceStateOK _ =>
      unfold interfaceStateOK; cbn; repeat split; intros; congruence
  end.

Ltac open_call :=
  intros args sim sim' out err H; case_outcome H.

Ltac close_call :=
  split;
  [ intros Hok; try exact Hok;
    try (apply configOK_setInterface; [exact Hok | new_state_ok])
  | intros He; try reflexivity; try congruence ].

Ltac behaves := open_call; close_call.

Lemma doHelp_wellBehaved : wellBehaved doHelp.
Proof.
  unfold doHelp. behaves.
Qed.

Lemma doExitQuit_wellBehaved : wellBehaved doExitQuit.
Proof. unfold doExitQuit. behaves. Qed.

Lemma doExitMode_wellBehaved : wellBehaved doExitMode.
Proof. unfold doExitMode. behaves. Qed.

Lemma doEnd_wellBehaved : wellBehaved doEnd.
Proof. unfold doEnd. behaves. Qed.

Lemma doEnable_wellBehaved : wellBehaved doEnable.
Proof. unfold doEnable. behaves. Qed.

Lemma doDisable_wellBehaved : wellBehaved doDisable.
Proof. unfold doDisable. behaves. Qed.

Lemma doConfigure_wellBehaved : wellBehaved doConfigure.
Proof. unfold doConfigure. behaves. Qed.

Lemma doHostname_wellBehaved : wellBehaved doHostname.
Proof. unfold doHostname. behaves. Qed.

Lemma doInterface_wellBehaved : wellBehaved doInterface.
Proof.
  unfold doInterface. behaves.
  match goal with
  | |- context [mapGet ?m ?k] => destruct (mapGet m k)
  end; [exact Hok |].
  apply (configOK_setInterface sim); [exact Hok | new_state_ok].
Qed.

Lemma doIP_wellBehaved : wellBehaved doIP.
Proof. unfold doIP. behaves. Qed.

Lemma doShutdown_wellBehaved : wellBehaved doShutdown.
Proof. unfold doShutdown. behaves. Qed.

Lemma noShutdown_wellBehaved : wellBehaved noShutdown.
Proof. unfold noShutdown. behaves. Qed.

Lemma noIPAddress_wellBehaved : wellBehaved noIPAddress.
Proof. unfold noIPAddress. behaves. Qed.

Lemma doNo_wellBehaved : wellBehaved doNo.
Proof.
  unfold doNo. open_call;
    try (now apply (noShutdown_wellBehaved _ _ _ _ _ H));
    try (now apply (noIPAddress_wellBehaved _ _ _ _ _ H));
    close_call.
Qed.

Lemma showVersion_wellBehaved : wellBehaved showVersion.
Proof. unfold showVersion. behaves. Qed.

Lemma showRunningConfig_wellBehaved : wellBehaved showRunningConfig.
Proof. unfold showRunningConfig. behaves. Qed.

Lemma showIPInterfaceBrief_wellBehaved : wellBehaved showIPInterfaceBrief.
Proof. unfold showIPInterfaceBrief. behaves. Qed.

Lemma showHistoryCmd_wellBehaved : wellBehaved showHistoryCmd.
Proof. unfold showHistoryCmd. behaves. Qed.

Lemma doShow_wellBehaved : wellBehaved doShow.
Proof.
  unfold doShow. open_call;
    try (now apply (showVersion_wellBehaved _ _ _ _ _ H));
    try (now apply (showRunningConfig_wellBehaved _ _ _ _ _ H));
    try (now apply (showIPInterfaceBrief_wellBehaved _ _ _ _ _ H));
    try (now apply (showHistoryCmd_wellBehaved _ _ _ _ _ H));
    close_call.
Qed.

Lemma handlers_wellBehaved : Forall wellBehaved handlers.
Proof.
  unfold handlers.
  repeat (constructor;
          [ first [ exact doHelp_wellBehaved | exact doExitQuit_wellBehaved
                  | exact doExitMode_wellBehaved | exact doEnd_wellBehaved
                  | exact doEnable_wellBehaved | exact doDisable_wellBehaved
                  | exact doConfigure_wellBehaved | exact doHostname_wellBehaved
                  | exact doInterface_wellBehaved | exact doIP_wellBehaved
                  | exact doShutdown_wellBehaved | exact doNo_wellBehaved
                  | exact noShutdown_wellBehaved | exact noIPAddress_wellBehaved
                  | exact doShow_wellBehaved | exact showVersion_wellBehaved
                  | exact showRunningConfig_wellBehaved
                  | exact showIPInterfaceBrief_wellBehaved
                  | exact showHistoryCmd_wellBehaved ] |]).
  constructor.
Qed.

Lemma decide_In (token : string) (l : list CommandDef) (d : CommandDef) :
  decide token l = inl d -> In d l.
Proof.
  unfold decide. destruct l as [| a [| b r]].
  - discriminate.
  - intros [= ->]. now left.
  - destruct (find _ _) eqn:F; [| discriminate].
    intros [= ->]. exact (proj1 (find_some _ _ F)).
Qed.

Ltac in_list := repeat first [left; reflexivity | right].

(** The resolver only hands out handlers of the list [handlers]. *)
Lemma resolved_handler (sim : CiscoDeviceSimulator) (token : string)
    (d : CommandDef) :
  findCommandByAbbreviation sim token = inl d -> In (Handler d) handlers.
Proof.
  destruct (String.eqb_spec token "?") as [-> | Hq].
  - unfold findCommandByAbbreviation. cbn [String.eqb Ascii.eqb Bool.eqb].
    intros [= <-]. cbn [Handler]. unfold handlers. in_list.
  - rewrite findCommandByAbbreviation_decide by assumption.
    intros H. apply decide_In, filter_In in H. destruct H as [H _].
    unfold handlers.
    destruct (mode sim); cbn [sortedCommands In] in H;
      repeat (destruct H as [<- | H]; [cbn [Handler]; in_list |]);
      destruct H.
Qed.

Lemma processCommand_wellBehaved (line : string) :
  wellBehaved (fun _ => processCommand line).
Proof.
  intros args sim sim' out err H. unfold processCommand in H.
  destruct (strings.Fields line) as [| userCmdInput rest].
  - case_outcome H. split; [auto | congruence].
  - destruct (findCommandByAbbreviation sim userCmdInput) as [d | e] eqn:F.
    + pose proof (resolved_handler _ _ _ F) as Hin.
      pose proof handlers_wellBehaved as Hall.
      rewrite Forall_forall in Hall.
      exact (Hall _ Hin _ _ _ _ _ H).
    + case_outcome H. split; [auto | reflexivity].
Qed.

(** C2: a call of any handler that returns leaves every interface of the
    configuration in a state where administratively down goes with
    [AdminStatus] down, and with [AdminStatus] up the status is up when an
    address is set and down when none is, provided the configuration was
    so before the call. *)
Theorem handlers_keep_invariant (h : CommandHandler) (args : list string)
    (sim sim' : CiscoDeviceSimulator) (out : list string) (err : option error) :
  In h handlers ->
  configOK sim ->
  h args sim = Returned sim' out err ->
  configOK sim'.
Proof.
  intros Hin Hok H.
  pose proof handlers_wellBehaved as Hall. rewrite Forall_forall in Hall.
  exact (proj1 (Hall _ Hin _ _ _ _ _ H) Hok).
Qed.

(** The same for a whole line, and for every state a session reaches. *)
Lemma processCommand_keeps_invariant (line : string)
    (sim sim' : CiscoDeviceSimulator) (out : list string) (err : option error) :
  configOK sim -> processCommand line sim = Returned sim' out err ->
  configOK sim'.
Proof.
  intros Hok H.
  exact (proj1 (processCommand_wellBehaved line [] _ _ _ _ H) Hok).
Qed.

Lemma session_keeps_invariant (lines : list string)
    (sim sim' : CiscoDeviceSimulator) :
  configOK sim -> session lines sim = Some sim' -> configOK sim'.
Proof.
  revert sim. induction lines as [| line rest IH]; cbn [session]; intros sim Hok.
  - now intros [= <-].
  - destruct (loopTurn line sim) as [s1 o1 e1 | |] eqn:T; try discriminate.
    apply IH. unfold loopTurn in T.
    destruct (isEmpty (strings.TrimSpace line)).
    + apply Returned_inj in T. destruct T as [<- _]. exact Hok.
    + eapply processCommand_keeps_invariant; [| exact T]. exact Hok.
Qed.

Lemma reachable_invariant (name : string) (now : Z) (lines : list string)
    (sim : CiscoDeviceSimulator) :
  session lines (NewCiscoDeviceSimulator name now) = Some sim -> configOK sim.
Proof.
  apply session_keeps_invariant. constructor.
Qed.

(** C4: a line whose processing returns an error leaves the running
    configuration, host name and interfaces, as it was. *)
Theorem failed_line_keeps_config (line : string)
    (sim sim' : CiscoDeviceSimulator) (out : list string) (e : error) :
  processCommand line sim = Returned sim' out (Some e) ->
  Hostname (runningConfig sim') = Hostname (runningConfig sim)
  /\ Interfaces (runningConfig sim') = Interfaces (runningConfig sim).
Proof.
  intros H.
  assert (E : sim' = sim).
  { apply (proj2 (processCommand_wellBehaved line [] _ _ _ _ H)). discriminate. }
  now rewrite E.
Qed.

(** Each handler that returns an error has changed nothing at all. *)
Lemma handlers_fail_without_effect (h : CommandHandler) (args : list string)
    (sim sim' : CiscoDeviceSimulator) (out : list string) (e : error) :
  In h handlers -> h args sim = Returned sim' out (Some e) -> sim' = sim.
Proof.
  intros Hin H.
  pose proof handlers_wellBehaved as Hall. rewrite Forall_forall in Hall.
  apply (proj2 (Hall _ Hin _ _ _ _ _ H)). discriminate.
Qed.

Lemma handlers_keep_invariant_witness :
  In doIP handlers
  /\ configOK boundSim
  /\ configOK
       (setInterface boundSim "GigabitEthernet0/0"
          {| IPAddress := "10.0.0.1"; SubnetMask := "255.255.255.0";
             Status := "up"; AdminStatus := "up" |}).
Proof.
  assert (Hin : In doIP handlers) by (unfold handlers; in_list).
  assert (Hok : configOK boundSim).
  { repeat constructor; cbn; intros; congruence. }
  split; [exact Hin |]. split; [exact Hok |].
  apply (handlers_keep_invariant doIP
           ["address"; "10.0.0.1"; "255.255.255.0"] boundSim _ [] None
           Hin Hok).
  reflexivity.
Defined.

Lemma failed_line_keeps_config_witness :
  processCommand "hostname -edge-" (setMode boundSim ModeGlobalConfig)
    = Returned (setMode boundSim ModeGlobalConfig) []
               (Some (Plain "invalid hostname format"))
  /\ Hostname (runningConfig (setMode boundSim ModeGlobalConfig)) = "Router".
Proof.
  assert (H : processCommand "hostname -edge-" (setMode boundSim ModeGlobalConfig)
              = Returned (setMode boundSim ModeGlobalConfig) []
                         (Some (Plain "invalid hostname format")))
    by reflexivity.
  split; [exact H |].
  exact (proj1 (failed_line_keeps_config _ _ _ _ _ H)).
Defined.

(** ** The exit command in the configuration modes (C3) *)

Lemma resolve_exit (sim : CiscoDeviceSimulator) :
  findCommandByAbbreviation sim "exit" = inl exitCommand.
Proof.
  rewrite findCommandByAbbreviation_decide by discriminate.
  destruct (mode sim); reflexivity.
Qed.

(** C3, on the code: in global and in interface configuration mode the
    line [exit] resolves to the command registered first under that name,
    whose handler is [doExitQuit]; it returns an error and the mode and
    the current interface stay as they are, whereas [doExitMode], which
    the second registration names, would have left the mode. *)
Theorem exit_in_configuration_mode (sim : CiscoDeviceSimulator) :
  Handler exitCommand = doExitQuit
  /\ processCommand "exit" (setMode sim ModeGlobalConfig)
     = Returned (setMode sim ModeGlobalConfig) []
         (Some (Plain "exit/quit command not valid in this mode"))
  /\ processCommand "exit" (setMode sim ModeInterfaceConfig)
     = Returned (setMode sim ModeInterfaceConfig) []
         (Some (Plain "exit/quit command not valid in this mode"))
  /\ doExitMode [] (setMode sim ModeGlobalConfig)
     = Returned (setMode sim ModePrivExec) [] None
  /\ doExitMode [] (setMode sim ModeInterfaceConfig)
     = Returned (setCurrentInterface (setMode sim ModeGlobalConfig) "") [] None.
Proof.
  split; [reflexivity |].
  unfold processCommand.
  change (strings.Fields "exit") with ["exit"]. cbv beta iota.
  rewrite !resolve_exit.
  repeat split.
Qed.

(** ** Handlers without arguments (C5) *)

(** C5 (amended): [shutdown] and [no shutdown], in a state with a current
    interface, [show version] and [history] return the bad-arguments
    error that says the command takes no arguments whenever they are given
    one or more arguments, and leave the state as it is. *)
Theorem argument_checks (args : list string) (sim : CiscoDeviceSimulator) :
  args <> [] ->
  showVersion args sim
    = Returned sim [] (Some (Wrapped ErrBadArguments
                               "'show version' takes no arguments"))
  /\ showHistoryCmd args sim
     = Returned sim [] (Some (Wrapped ErrBadArguments
                                "'history' takes no arguments"))
  /\ (currentInterface sim <> "" ->
      doShutdown args sim
        = Returned sim [] (Some (Wrapped ErrBadArguments
                                   "'shutdown' takes no arguments"))
      /\ noShutdown args sim
         = Returned sim [] (Some (Wrapped ErrBadArguments
                                    "'no shutdown' takes no arguments"))).
Proof.
  intros Hargs. destruct args as [| a rest]; [contradiction |].
  repeat split.
  - unfold doShutdown. destruct (currentInterface sim); [contradiction |].
    reflexivity.
  - unfold noShutdown. destruct (currentInterface sim); [contradiction |].
    reflexivity.
Qed.

Lemma argument_checks_witness :
  ["now"] <> []
  /\ currentInterface boundSim <> ""
  /\ doShutdown ["now"] boundSim
     = Returned boundSim [] (Some (Wrapped ErrBadArguments
                                     "'shutdown' takes no arguments")).
Proof.
  assert (Ha : ["now"] <> []) by discriminate.
  assert (Hc : currentInterface boundSim <> "") by discriminate.
  split; [exact Ha |]. split; [exact Hc |].
  exact (proj1 (proj2 (proj2 (argument_checks ["now"] boundSim Ha)) Hc)).
Defined.

(** C5 as stated fails for [enable], and alike for [disable], [end] and
    the exit of the configuration modes: they do not look at their
    arguments and carry out the transition. *)
Lemma enable_ignores_arguments :
  ~ rejectsArguments doEnable
  /\ doEnable ["now"] (NewCiscoDeviceSimulator "Router" 0)
     = Returned (setMode (NewCiscoDeviceSimulator "Router" 0) ModePrivExec)
                [] None
  /\ doDisable ["now"] (setMode boundSim ModePrivExec)
     = Returned (setMode boundSim ModeUserExec) [] None
  /\ doEnd ["now"] boundSim
     = Returned (setCurrentInterface (setMode boundSim ModePrivExec) "")
                [] None
  /\ doExitMode ["now"] boundSim
     = Returned (setCurrentInterface (setMode boundSim ModeGlobalConfig) "")
                [] None.
Proof.
  split; [| repeat split].
  intros H.
  destruct (H ["now"] (NewCiscoDeviceSimulator "Router" 0)) as [text E];
    [discriminate |].
  discriminate E.
Qed.

(** ** The configure handler (C6) *)

Lemma prefix_of_terminal (a : string) :
  a <> "" -> String.prefix (strings.ToLower a) "terminal" = true ->
  String.prefix "t" (strings.ToLower a) = true.
Proof.
  destruct a as [| c r]; [contradiction |]. intros _.
  cbn [strings.ToLower String.prefix].
  destruct (ascii_dec (strings.toLowerByte c) "t") as [-> | ]; [| discriminate].
  intros _. destruct (ascii_dec "t" "t"); [| congruence].
  now destruct (strings.ToLower r).
Qed.

(** C6 (amended): the configure handler enters global configuration mode
    exactly when its first argument begins with the letter t, in either
    case, which every non-empty abbreviation of [terminal] does; with no
    argument, or one that begins otherwise, it returns the
    incomplete-command error and leaves the state, the mode with it. *)
Theorem doConfigure_first_letter (args : list string)
    (sim : CiscoDeviceSimulator) :
  doConfigure args sim
    = (if beginsWithT args then
         Returned (setMode sim ModeGlobalConfig)
           ["Enter configuration commands, one per line. End with CNTL/Z or 'end'."]
           None
       else
         Returned sim []
           (Some (Wrapped ErrIncompleteCommand "expecting 'configure terminal'")))
  /\ (forall a rest, args = a :: rest -> a <> "" ->
        String.prefix (strings.ToLower a) "terminal" = true ->
        beginsWithT args = true).
Proof.
  split.
  - unfold doConfigure, beginsWithT, strings.HasPrefix, fail.
    destruct args as [| a rest]; [reflexivity |].
    now destruct (String.prefix "t" (strings.ToLower a)).
  - intros a rest -> Ha Hp. now apply prefix_of_terminal.
Qed.

(** C6 as stated fails: [tomato] is no abbreviation of [terminal], and
    [configure tomato] enters global configuration mode. *)
Lemma configure_tomato :
  String.prefix (strings.ToLower "tomato") "terminal" = false
  /\ processCommand "configure tomato" (setMode boundSim ModePrivExec)
     = Returned (setMode boundSim ModeGlobalConfig)
         ["Enter configuration commands, one per line. End with CNTL/Z or 'end'."]
         None.
Proof. split; reflexivity. Qed.

(** ** The ip address handler (C7) *)

(** With a current interface that exists, [ip address] succeeds exactly
    when [isValidIP] accepts both operands, and then stores them and
    brings the interface up unless it is administratively down. *)
Lemma doIP_succeeds_iff (kw ipAddr subnetMask : string)
    (sim : CiscoDeviceSimulator) (intfData : InterfaceConfig) :
  currentInterface sim <> "" ->
  mapGet (Interfaces (runningConfig sim)) (currentInterface sim)
    = Some intfData ->
  String.prefix "a" (strings.ToLower kw) = true ->
  (isValidIP ipAddr && isValidIP subnetMask = true ->
   doIP [kw; ipAddr; subnetMask] sim
   = Returned
       (setInterface sim (currentInterface sim)
          {| IPAddress := ipAddr; SubnetMask := subnetMask;
             Status := if String.eqb (AdminStatus intfData) "up"
                       then "up" else Status intfData;
             AdminStatus := AdminStatus intfData |})
       [] None)
  /\ (isValidIP ipAddr && isValidIP subnetMask = false ->
      exists e, doIP [kw; ipAddr; subnetMask] sim = Returned sim [] (Some e)).
Proof.
  intros Hc Hget Hkw. unfold doIP, strings.HasPrefix, fail.
  destruct (currentInterface sim) eqn:C; [contradiction |].
  cbn [isEmpty]. rewrite Hkw. cbn [negb]. rewrite Hget.
  destruct (isValidIP ipAddr), (isValidIP subnetMask); cbn [negb andb];
    split; intros H; try discriminate H; eauto.
Qed.

(** C7, on the code: [::1] is no IPv4 literal, yet [ip address] accepts
    it as the address of the current interface. *)
Theorem doIP_accepts_ipv6 :
  ipv4Literal "::1" = false
  /\ isValidIP "::1" = true
  /\ doIP ["address"; "::1"; "255.255.255.0"] boundSim
     = Returned
         (setInterface boundSim "GigabitEthernet0/0"
            {| IPAddress := "::1"; SubnetMask := "255.255.255.0";
               Status := "up"; AdminStatus := "up" |})
         [] None.
Proof. repeat split. Qed.

Lemma doConfigure_first_letter_witness :
  "ter" <> ""
  /\ String.prefix (strings.ToLower "ter") "terminal" = true
  /\ beginsWithT ["ter"] = true.
Proof.
  assert (Ha : "ter" <> "") by discriminate.
  assert (Hp : String.prefix (strings.ToLower "ter") "terminal" = true)
    by reflexivity.
  split; [exact Ha |]. split; [exact Hp |].
  exact (proj2 (doConfigure_first_letter ["ter"] boundSim) "ter" [] eq_refl Ha Hp).
Defined.

(** ** Interface names (C8) *)

Lemma mapGet_mapSet {V : Type} (m : GoMap V) (k : string) (v : V) :
  mapGet (mapSet m k v) k = Some v.
Proof.
  induction m as [| [k0 v0] m IH]; cbn.
  - now rewrite String.eqb_refl.
  - destruct (String.eqb k0 k) eqn:E; cbn.
    + now rewrite String.eqb_refl.
    + now rewrite E.
Qed.

(** C8: the interface handler splits [g0/0], [gi0/0] and
    [GigabitEthernet0/0] into a type and the number [0/0]; the three
    normalize to the one name [GigabitEthernet0/0]; and in any state the
    three calls end alike, in interface mode, bound to that name, which
    has an entry in the map of interfaces. *)
Theorem interface_names_canonical (sim : CiscoDeviceSimulator) :
  matchInterface "g0/0" = Some ("g", "0/0")
  /\ matchInterface "gi0/0" = Some ("gi", "0/0")
  /\ matchInterface "GigabitEthernet0/0" = Some ("GigabitEthernet", "0/0")
  /\ normalizeInterfaceName "g" "0/0" = inl "GigabitEthernet0/0"
  /\ normalizeInterfaceName "gi" "0/0" = inl "GigabitEthernet0/0"
  /\ normalizeInterfaceName "GigabitEthernet" "0/0" = inl "GigabitEthernet0/0"
  /\ doInterface ["g0/0"] sim = doInterface ["GigabitEthernet0/0"] sim
  /\ doInterface ["gi0/0"] sim = doInterface ["GigabitEthernet0/0"] sim
  /\ exists sim',
       doInterface ["GigabitEthernet0/0"] sim = Returned sim' [] None
       /\ mode sim' = ModeInterfaceConfig
       /\ currentInterface sim' = "GigabitEthernet0/0"
       /\ exists intfData,
            mapGet (Interfaces (runningConfig sim')) "GigabitEthernet0/0"
              = Some intfData
            /\ (mapGet (Interfaces (runningConfig sim)) "GigabitEthernet0/0"
                  = None ->
                intfData = {| IPAddress := ""; SubnetMask := "";
                              Status := "administratively down";
                              AdminStatus := "down" |}).
Proof.
  do 8 (split; [reflexivity |]).
  exists (setMode
            (setCurrentInterface
               match mapGet (Interfaces (runningConfig sim))
                            "GigabitEthernet0/0" with
               | Some _ => sim
               | None =>
                   setInterface sim "GigabitEthernet0/0"
                     {| IPAddress := ""; SubnetMask := "";
                        Status := "administratively down";
                        AdminStatus := "down" |}
               end "GigabitEthernet0/0")
            ModeInterfaceConfig).
  do 3 (split; [reflexivity |]).
  destruct (mapGet (Interfaces (runningConfig sim)) "GigabitEthernet0/0")
    as [d |] eqn:G.
  - exists d. split; [exact G | discriminate].
  - eexists. split; [apply mapGet_mapSet | reflexivity].
Qed.

(** ** The sub-commands of show (C10) *)

Lemma proper_prefix_of_run (l : string) :
  String.prefix l "run" = true -> l <> "run" ->
  l = "" \/ l = "r" \/ l = "ru".
Proof.
  intros Hp Hn.
  destruct l as [| c1 [| c2 [| c3 [| c4 r]]]]; cbn in Hp;
    repeat match type of Hp with
    | context [ascii_dec ?a ?b] => destruct (ascii_dec a b); subst
    end; try discriminate; auto.
  contradiction.
Qed.

(** C10: the sub-commands that [run] abbreviates are [running-config] and
    [run]; a token that is [run], case being ignored, is answered by the
    renderer of the running configuration; and one that is a shorter
    prefix of [run], such as [ru] or [r], by the ambiguity error. *)
Theorem show_run (token : string) (rest : list string)
    (sim : CiscoDeviceSimulator) :
  filter (fun opt => strings.HasPrefix opt (strings.ToLower "run")) showOptions
    = ["running-config"; "run"]
  /\ filter (fun opt => strings.HasPrefix opt (strings.ToLower "ru")) showOptions
    = ["running-config"; "run"]
  /\ filter (fun opt => strings.HasPrefix opt (strings.ToLower "r")) showOptions
    = ["running-config"; "run"]
  /\ (strings.ToLower token = "run" ->
      doShow (token :: rest) sim = showRunningConfig rest sim)
  /\ (String.prefix (strings.ToLower token) "run" = true ->
      strings.ToLower token <> "run" ->
      doShow (token :: rest) sim
      = Returned sim [] (Some (Wrapped ErrAmbiguousCommand ("show " +++ token)))).
Proof.
  do 3 (split; [reflexivity |]).
  split.
  - intros E. unfold doShow, pickExact. rewrite E. reflexivity.
  - intros Hp Hn.
    destruct (proper_prefix_of_run _ Hp Hn) as [E | [E | E]];
      unfold doShow, pickExact; rewrite E; reflexivity.
Qed.

Lemma show_run_witness :
  doShow ["RUN"] boundSim = showRunningConfig [] boundSim
  /\ doShow ["ru"] boundSim
     = Returned boundSim [] (Some (Wrapped ErrAmbiguousCommand "show ru"))
  /\ doShow ["r"] boundSim
     = Returned boundSim [] (Some (Wrapped ErrAmbiguousCommand "show r")).
Proof.
  split; [| split].
  - apply (proj1 (proj2 (proj2 (proj2 (show_run "RUN" [] boundSim))))).
    reflexivity.
  - apply (proj2 (proj2 (proj2 (proj2 (show_run "ru" [] boundSim)))));
      [reflexivity | discriminate].
  - apply (proj2 (proj2 (proj2 (proj2 (show_run "r" [] boundSim)))));
      [reflexivity | discriminate].
Defined.

(** ** The order of the listings (C9) *)

Section StableSort.

Context {A K : Type} (key : A -> K) (ltK : K -> K -> bool) (eqK : K -> K -> bool).

Local Abbreviation less := (fun a b => ltK (key a) (key b)).

(** [a] may stand before [b]: [b] is not smaller. *)
Local Abbreviation notAfter := (fun a b => ltK (key b) (key a) = false).

Hypothesis ltK_asym : forall x y, ltK x y = true -> ltK y x = false.
Hypothesis ltK_negtrans :
  forall x y z, ltK y x = false -> ltK z y = false -> ltK z x = false.
Hypothesis eqK_trans_lt :
  forall k x y, eqK k x = true -> eqK k y = true -> ltK y x = false.

Lemma insert_perm (x : A) (l : list A) :
  Permutation (sort.insert less x l) (x :: l).
Proof.
  induction l as [| y ys IH]; cbn; [apply Permutation_refl |].
  destruct (less y x); [| apply Permutation_refl].
  eapply Permutation_trans; [apply perm_skip, IH | apply perm_swap].
Qed.

Lemma SliceStable_perm (l : list A) :
  Permutation (sort.SliceStable less l) l.
Proof.
  induction l as [| x xs IH]; cbn; [constructor |].
  eapply Permutation_trans; [apply insert_perm | now apply perm_skip].
Qed.





End StableSort.

Lemma SliceStable_ext {A : Type} (less less' : A -> A -> bool) (l : list A) :
  (forall a b, less a b = less' a b) ->
  sort.SliceStable less l = sort.SliceStable less' l.
Proof.
  intros H. induction l as [| x xs IH]; cbn; [reflexivity |].
  rewrite IH. generalize (sort.SliceStable less' xs). intros r.
  induction r as [| y ys IHr]; cbn; [reflexivity |].
  now rewrite H, IHr.
Qed.

Lemma interfaceLess_key (a b : string) :
  interfaceLess a b = keyLtb (sortInterfaceKey a) (sortInterfaceKey b).
Proof.
  unfold interfaceLess, keyLtb.
  destruct (sortInterfaceKey a) as [[? ?] ?], (sortInterfaceKey b) as [[? ?] ?].
  reflexivity.
Qed.








Lemma isDigit_not_letter (c : ascii) : isDigit c = true -> isLetter c = false.
Proof.
  unfold isDigit, isLetter, isUpper, isLower.
  repeat match goal with
  | |- context [N.leb ?a ?b] => destruct (N.leb_spec a b)
  end; cbn; intros; try discriminate; try reflexivity; lia.
Qed.

Lemma span_app (p : ascii -> bool) (a b : string) :
  forallb_string p a = true ->
  match b with String c _ => p c = false | EmptyString => True end ->
  span p (a +++ b) = (a, b).
Proof.
  intros Ha Hb. induction a as [| c a IH]; cbn in *.
  - destruct b as [| c r]; [reflexivity |]. cbn. now rewrite Hb.
  - apply andb_true_iff in Ha. destruct Ha as [Hc Ha].
    now rewrite Hc, (IH Ha).
Qed.

Lemma span_all (p : ascii -> bool) (a : string) :
  forallb_string p a = true -> span p a = (a, "").
Proof.
  intros Ha. induction a as [| c a IH]; cbn in *; [reflexivity |].
  apply andb_true_iff in Ha. destruct Ha as [Hc Ha].
  now rewrite Hc, (IH Ha).
Qed.

Lemma findKey_here (s : string) (m : string * string * string) :
  matchKeyHere s = Some m -> findKey s = Some m.
Proof. intros H. destruct s; cbn [findKey]; now rewrite H. Qed.

Lemma matchKeyHere_named (ty slot port : string) :
  isWord ty = true -> isNumber slot = true -> isNumber port = true ->
  matchKeyHere (ty +++ slot +++ "/" +++ port) = Some (ty, slot, port).
Proof.
  unfold isWord, isNumber. rewrite !andb_true_iff, !negb_true_iff.
  intros [Ht Hty] [Hs Hslot] [Hp Hport].
  unfold matchKeyHere.
  rewrite (span_app isLetter ty), Ht.
  - rewrite (span_app isDigit slot), Hs; [| exact Hslot | reflexivity].
    cbn [String.append]. now rewrite (span_all isDigit port), Hp.
  - exact Hty.
  - destruct slot as [| c r]; [discriminate |]. cbn in *.
    apply andb_true_iff in Hslot. now apply isDigit_not_letter.
Qed.

(** The three tests of [sortInterfaceKey] on the type, one after the
    other, amount to a choice by its first letter. *)
Lemma typeWeight_tests (t : string) :
  (if strings.HasPrefix t "t" then 3
   else if strings.HasPrefix t "g" then 2
   else if strings.HasPrefix t "f" then 1 else 99)
  = match t with
    | String "f" _ => 1
    | String "g" _ => 2
    | String "t" _ => 3
    | _ => 99
    end.
Proof.
  destruct t as [| c r]; [reflexivity |].
  unfold strings.HasPrefix. cbn [String.prefix].
  destruct r; destruct c as [[] [] [] [] [] [] [] []]; reflexivity.
Qed.

Lemma sortInterfaceKey_named (ty slot port : string) :
  isWord ty = true -> isNumber slot = true -> isNumber port = true ->
  sortInterfaceKey (ty +++ slot +++ "/" +++ port)
  = (typeWeight ty, fst (strconv.Atoi slot), fst (strconv.Atoi port)).
Proof.
  intros Ht Hs Hp. unfold sortInterfaceKey.
  rewrite (findKey_here _ _ (matchKeyHere_named _ _ _ Ht Hs Hp)).
  unfold typeWeight. rewrite <- typeWeight_tests.
  destruct (strings.HasPrefix (strings.ToLower ty) "t"),
           (strings.HasPrefix (strings.ToLower ty) "g"),
           (strings.HasPrefix (strings.ToLower ty) "f"); reflexivity.
Qed.

Lemma mapGet_key {V : Type} (m : GoMap V) (k : string) :
  In k (mapKeys m) -> exists v, mapGet m k = Some v.
Proof.
  induction m as [| [k0 v0] m IH]; cbn; [intros [] |].
  intros [-> | H].
  - rewrite String.eqb_refl. eauto.
  - destruct (String.eqb k0 k); eauto.
Qed.

(** The printing loop ends without a nil dereference on names taken from
    the map, and prints the lines of each in turn. *)
Lemma printInterfaces_lines
    (render : string -> InterfaceConfig -> list string)
    (interfaces : GoMap InterfaceConfig) (names : list string) :
  (forall n, In n names -> In n (mapKeys interfaces)) ->
  printInterfaces render interfaces names
  = Some (flat_map (entryLines render interfaces) names).
Proof.
  induction names as [| n rest IH]; intros H; cbn; [reflexivity |].
  destruct (mapGet_key interfaces n (H n (or_introl eq_refl))) as [d G].
  unfold entryLines at 1. rewrite G, IH; [reflexivity |].
  intros x Hx. apply H. now right.
Qed.


Lemma sortedInterfaceNames_perm (sim : CiscoDeviceSimulator) :
  Permutation (sortedInterfaceNames sim)
              (mapKeys (Interfaces (runningConfig sim))).
Proof.
  unfold sortedInterfaceNames.
  rewrite (SliceStable_ext _ _ _ interfaceLess_key).
  apply (SliceStable_perm sortInterfaceKey keyLtb).
Qed.



(** ** Scenarios of the specification *)

Example scenario_running_config :
  match after ["enable"; "conf t"; "hostname Edge1"; "int g0/0";
               "ip address 10.0.0.1 255.255.255.0"; "no shutdown"; "end"] with
  | Some sim =>
      processCommand "show running-config" sim
      = Returned sim
          [ "Building configuration..."; "!"; "version 1.0 (Simulated)"; "!";
            "hostname Edge1"; "!"; "interface GigabitEthernet0/0";
            " ip address 10.0.0.1 255.255.255.0"; "!"; "!"; "end" ]
          None
  | None => False
  end.
Proof. vm_compute. reflexivity. Qed.

Example scenario_sh_is_show :
  findCommandByAbbreviation
    (setMode (NewCiscoDeviceSimulator "Router" 0) ModePrivExec) "sh"
  = inl (mkCommandDef "show" doShow [ModePrivExec]).
Proof.
  rewrite findCommandByAbbreviation_decide by discriminate. reflexivity.
Qed.

Example scenario_no_ip_address :
  option_map (fun sim => Interfaces (runningConfig sim))
    (after ["enable"; "conf t"; "int g0/0"; "no shutdown";
            "ip address 10.0.0.1 255.255.255.0"; "no ip address"])
  = Some [("GigabitEthernet0/0",
           {| IPAddress := ""; SubnetMask := "";
              Status := "down"; AdminStatus := "up" |})].
Proof. vm_compute. reflexivity. Qed.

Example scenario_shutdown_no_shutdown :
  option_map (fun sim => Interfaces (runningConfig sim))
    (after ["enable"; "conf t"; "interface f0/1"; "shutdown"; "no shutdown"])
  = Some [("FastEthernet0/1",
           {| IPAddress := ""; SubnetMask := "";
              Status := "down"; AdminStatus := "up" |})].
Proof. vm_compute. reflexivity. Qed.

Example scenario_exit_stays :
  option_map mode (after ["enable"; "conf t"; "exit"]) = Some ModeGlobalConfig.
Proof. vm_compute. reflexivity. Qed.

(** ** The construction of the command tables *)

Lemma Mode_eqb_eq (a b : Mode) : Mode_eqb a b = true <-> a = b.
Proof. destruct a, b; cbn; split; intros; congruence. Qed.

Lemma existsb_Mode (m : Mode) (l : list Mode) :
  existsb (Mode_eqb m) l = true <-> In m l.
Proof.
  rewrite existsb_exists. split.
  - intros [x [Hin E]]. apply Mode_eqb_eq in E. now subst.
  - intros Hin. exists m. split; [exact Hin | now apply Mode_eqb_eq].
Qed.

Lemma uniqueModes_In (seen modes : list Mode) (m : Mode) :
  In m (uniqueModes seen modes) <-> In m modes /\ ~ In m seen.
Proof.
  revert seen. induction modes as [| x rest IH]; intros seen; cbn.
  - tauto.
  - destruct (existsb (Mode_eqb x) seen) eqn:E.
    + apply existsb_Mode in E. rewrite IH. split.
      * intros [H1 H2]. auto.
      * intros [[-> | H1] H2]; [contradiction | auto].
    + assert (Hx : ~ In x seen).
      { intros H. apply existsb_Mode in H. congruence. }
      cbn. rewrite IH. cbn. split.
      * intros [-> | [H1 H2]]; auto.
      * intros [[-> | H1] H2]; [now left |].
        destruct (Mode_eqb x m) eqn:Exm.
        -- apply Mode_eqb_eq in Exm. now left.
        -- right. split; [exact H1 |]. intros [-> | H3]; [| contradiction].
           assert (Mode_eqb m m = true) by now apply Mode_eqb_eq. congruence.
Qed.

Lemma uniqueModes_NoDup (seen modes : list Mode) :
  NoDup (uniqueModes seen modes).
Proof.
  revert seen. induction modes as [| x rest IH]; intros seen; cbn.
  - constructor.
  - destruct (existsb (Mode_eqb x) seen); [apply IH |].
    constructor; [| apply IH].
    rewrite uniqueModes_In. cbn. tauto.
Qed.

(** The deduplication of [registerCommands] keeps every mode of the list
    once. *)
Theorem uniqueModes_set (modes : list Mode) :
  NoDup (uniqueModes [] modes)
  /\ forall m, In m (uniqueModes [] modes) <-> In m modes.
Proof.
  split; [apply uniqueModes_NoDup |].
  intros m. rewrite uniqueModes_In. cbn. tauto.
Qed.

Lemma mapGet_mapSet_other {V : Type} (m : GoMap V) (k k' : string) (v : V) :
  k <> k' -> mapGet (mapSet m k v) k' = mapGet m k'.
Proof.
  intros Hne. induction m as [| [k0 v0] m IH]; cbn.
  - destruct (String.eqb_spec k k'); [contradiction | reflexivity].
  - destruct (String.eqb_spec k0 k) as [-> | Hk]; cbn.
    + destruct (String.eqb_spec k k'); [contradiction | reflexivity].
    + destruct (String.eqb k0 k'); [reflexivity | exact IH].
Qed.

Lemma find_snoc {A : Type} (p : A -> bool) (l : list A) (c : A) :
  find p (l ++ [c])
  = match find p l with
    | Some x => Some x
    | None => if p c then Some c else None
    end.
Proof.
  induction l as [| a l IH]; cbn; [reflexivity |].
  destruct (p a); [reflexivity | exact IH].
Qed.

Lemma registered_snoc (l : list CommandDef) (c : CommandDef) :
  registered (l ++ [c]) = registerCommand (registered l) c.
Proof. unfold registered. now rewrite fold_left_app. Qed.

Lemma registerCommand_other (defined : GoMap CommandDef) (c : CommandDef)
    (name : string) :
  Name c <> name ->
  mapGet (registerCommand defined c) name = mapGet defined name.
Proof.
  intros Hne. unfold registerCommand.
  destruct (mapGet defined (Name c)); now apply mapGet_mapSet_other.
Qed.

(** Registration, for any list of definitions: a name is in the table
    exactly when the list defines it, under the handler of its first
    definition and with the modes of all its definitions. *)
Theorem registered_first_wins (cmds : list CommandDef) (name : string) :
  match find (fun c => String.eqb (Name c) name) cmds with
  | None => mapGet (registered cmds) name = None
  | Some first =>
      exists d,
        mapGet (registered cmds) name = Some d
        /\ Name d = name
        /\ Handler d = Handler first
        /\ forall m, In m (Modes d) <->
                     exists c, In c cmds /\ Name c = name /\ In m (Modes c)
  end.
Proof.
  induction cmds as [| c l IH] using rev_ind; [reflexivity |].
  rewrite find_snoc, registered_snoc.
  destruct (String.eqb_spec (Name c) name) as [Hc | Hc].
  - destruct (find (fun c0 => String.eqb (Name c0) name) l) as [first |] eqn:F.
    + destruct IH as (e & Hget & Hname & Hh & Hm).
      unfold registerCommand. rewrite Hc, Hget.
      eexists. split; [apply mapGet_mapSet |]. cbn [Name Handler Modes].
      split; [exact Hname |]. split; [exact Hh |].
      assert (Hu : forall l m, In m (uniqueModes [] l) <-> In m l)
        by (intros; rewrite uniqueModes_In; cbn; tauto).
      intros m. rewrite Hu, in_app_iff, Hm. split.
      * intros [(c' & Hin & Hn & Hmc) | Hmc].
        -- exists c'. rewrite in_app_iff. auto.
        -- exists c. rewrite in_app_iff. cbn. auto.
      * intros (c' & Hin & Hn & Hmc). apply in_app_iff in Hin.
        destruct Hin as [Hin | [<- | []]]; [left; eauto | now right].
    + unfold registerCommand. rewrite Hc, IH.
      exists c. split; [apply mapGet_mapSet |].
      split; [exact Hc |]. split; [reflexivity |].
      intros m. split.
      * intros Hmc. exists c. rewrite in_app_iff. cbn. auto.
      * intros (c' & Hin & Hn & Hmc). apply in_app_iff in Hin.
        destruct Hin as [Hin | [<- | []]]; [| exact Hmc].
        pose proof (find_none _ _ F _ Hin) as Hf. cbn in Hf.
        rewrite Hn, String.eqb_refl in Hf. discriminate.
  - rewrite (registerCommand_other _ _ _ Hc).
    assert (Hiff : forall m,
      (exists c0, In c0 l /\ Name c0 = name /\ In m (Modes c0))
      <-> (exists c0, In c0 (l ++ [c]) /\ Name c0 = name /\ In m (Modes c0))).
    { intros m. split; intros (c' & Hin & Hn & Hmc); exists c'.
      - rewrite in_app_iff. auto.
      - apply in_app_iff in Hin.
        destruct Hin as [Hin | [<- | []]]; [auto | contradiction]. }
    destruct (find (fun c0 => String.eqb (Name c0) name) l) as [first |].
    + destruct IH as (e & Hget & Hname & Hh & Hm).
      exists e. repeat split; try assumption.
      * intros Hme. apply Hiff, Hm, Hme.
      * intros Hex. apply Hm, Hiff, Hex.
    + exact IH.
Qed.

Lemma definedCommands_registered : definedCommands = registered commands.
Proof. reflexivity. Qed.

Lemma mapGet_None_keys {V : Type} (m : GoMap V) (k : string) :
  mapGet m k = None <-> ~ In k (mapKeys m).
Proof.
  induction m as [| [k0 v0] m IH]; cbn; [tauto |].
  destruct (String.eqb_spec k0 k) as [-> | Hne].
  - split; [discriminate | intros H; exfalso; auto].
  - rewrite IH. tauto.
Qed.

Lemma mapKeys_mapSet {V : Type} (m : GoMap V) (k : string) (v : V) :
  mapKeys (mapSet m k v)
  = match mapGet m k with
    | Some _ => mapKeys m
    | None => mapKeys m ++ [k]
    end.
Proof.
  unfold mapKeys. induction m as [| [k0 v0] m IH]; cbn; [reflexivity |].
  destruct (String.eqb_spec k0 k) as [-> | Hne]; cbn; [reflexivity |].
  rewrite IH. now destruct (mapGet m k).
Qed.

Lemma mapGet_snoc {V : Type} (m : GoMap V) (k name : string) (v : V) :
  mapGet (m ++ [(k, v)]) name
  = match mapGet m name with
    | Some x => Some x
    | None => if String.eqb k name then Some v else None
    end.
Proof.
  induction m as [| [k0 v0] m IH]; cbn; [reflexivity |].
  destruct (String.eqb k0 name); [reflexivity | exact IH].
Qed.

Lemma mapGet_entry {V : Type} (m : GoMap V) (k : string) (v : V) :
  mapGet m k = Some v -> In (k, v) m.
Proof.
  induction m as [| [k0 v0] m IH]; cbn; [discriminate |].
  destruct (String.eqb_spec k0 k) as [-> | Hne].
  - intros [= ->]. now left.
  - intros H. right. auto.
Qed.

Lemma tableOK_name (t : GoMap CommandDef) (k : string) (d : CommandDef) :
  tableOK t -> mapGet t k = Some d -> Name d = k.
Proof.
  intros [_ Hn] G. rewrite Forall_forall in Hn.
  exact (Hn _ (mapGet_entry _ _ _ G)).
Qed.

Lemma tableOK_mapSet (t : GoMap CommandDef) (d : CommandDef) :
  tableOK t -> tableOK (mapSet t (Name d) d).
Proof.
  intros [Hnd Hn]. split.
  - rewrite mapKeys_mapSet.
    destruct (mapGet t (Name d)) eqn:G; [exact Hnd |].
    apply mapGet_None_keys in G.
    apply NoDup_rev in Hnd. rewrite <- (rev_involutive (_ ++ _)).
    apply NoDup_rev. rewrite rev_app_distr. cbn.
    constructor; [now rewrite <- in_rev | exact Hnd].
  - clear Hnd. induction Hn as [| [k0 d0] t H0 Hn IH]; cbn.
    + repeat constructor.
    + destruct (String.eqb k0 (Name d)); constructor; auto.
Qed.

Lemma registered_tableOK (cmds : list CommandDef) : tableOK (registered cmds).
Proof.
  induction cmds as [| c l IH] using rev_ind.
  - split; constructor.
  - rewrite registered_snoc. unfold registerCommand.
    destruct (mapGet (registered l) (Name c)) as [e |] eqn:G.
    + pose proof (tableOK_name _ _ _ IH G) as He.
      rewrite <- He at 1.
      apply (tableOK_mapSet _
               {| Name := Name e; Handler := Handler e;
                  Modes := uniqueModes [] (Modes e ++ Modes c) |}), IH.
    + now apply tableOK_mapSet.
Qed.

Lemma buildModeCommandMaps_snoc (t : GoMap CommandDef) (k : string)
    (d : CommandDef) (m : Mode) :
  buildModeCommandMaps (t ++ [(k, d)]) m
  = if validIn m d then mapSet (buildModeCommandMaps t m) (Name d) d
    else buildModeCommandMaps t m.
Proof. unfold buildModeCommandMaps. now rewrite fold_left_app. Qed.

Lemma buildModeCommandMaps_lookup (t : GoMap CommandDef) (m : Mode)
    (name : string) :
  tableOK t ->
  mapGet (buildModeCommandMaps t m) name
  = match mapGet t name with
    | Some d => if validIn m d then Some d else None
    | None => None
    end.
Proof.
  induction t as [| [k d] l IH] using rev_ind; intros [Hnd Hn];
    [reflexivity |].
  unfold mapKeys in Hnd. rewrite map_app in Hnd. cbn in Hnd.
  apply NoDup_remove in Hnd. rewrite app_nil_r in Hnd.
  destruct Hnd as [Hnd Hk].
  apply Forall_app in Hn. destruct Hn as [Hn Hd].
  inversion Hd as [| ? ? Hkd _]; subst. cbn in Hkd.
  specialize (IH (conj Hnd Hn)).
  assert (Gk : mapGet l k = None) by now apply mapGet_None_keys.
  rewrite buildModeCommandMaps_snoc, mapGet_snoc, Hkd.
  destruct (String.eqb_spec k name) as [-> | Hne].
  - rewrite Gk. rewrite Gk in IH.
    destruct (validIn m d); [apply mapGet_mapSet | exact IH].
  - destruct (validIn m d).
    + rewrite (mapGet_mapSet_other _ _ _ _ Hne), IH.
      now destruct (mapGet l name).
    + rewrite IH. now destruct (mapGet l name).
Qed.

(** The table of a mode, for any list of definitions: a name is in it
    exactly when it is registered with that mode, and then under its
    registered definition. *)
Theorem modeCommandMap_lookup (cmds : list CommandDef) (m : Mode)
    (name : string) :
  mapGet (buildModeCommandMaps (registered cmds) m) name
  = match mapGet (registered cmds) name with
    | Some d => if existsb (Mode_eqb m) (Modes d) then Some d else None
    | None => None
    end.
Proof. apply buildModeCommandMaps_lookup, registered_tableOK. Qed.

(** ** The resolver and the modes *)

(** The resolver only answers with the help action, for the token [?], or
    with a registered command that is valid in the current mode and whose
    name the token abbreviates: a command outside its modes never reaches
    its handler. *)
Theorem resolver_mode_gate (sim : CiscoDeviceSimulator) (token : string)
    (d : CommandDef) :
  findCommandByAbbreviation sim token = inl d ->
  (token = "?" /\ d = mkCommandDef "?" doHelp [])
  \/ (In d (map snd definedCommands)
      /\ existsb (Mode_eqb (mode sim)) (Modes d) = true
      /\ String.prefix (strings.ToLower token) (strings.ToLower (Name d))
         = true).
Proof.
  destruct (String.eqb_spec token "?") as [-> | Hq].
  - unfold findCommandByAbbreviation. cbn [String.eqb Ascii.eqb Bool.eqb].
    intros [= <-]. now left.
  - rewrite findCommandByAbbreviation_decide by assumption.
    intros H. right.
    apply decide_In, filter_In in H. destruct H as [Hin Hab].
    apply (Permutation_in _ (sortedCommands_perm (mode sim))) in Hin.
    unfold commandsOf in Hin. apply filter_In in Hin.
    destruct Hin as [Hin Hv]. auto.
Qed.

Lemma resolver_mode_gate_witness :
  In (mkCommandDef "show" doShow [ModePrivExec]) (map snd definedCommands)
  /\ existsb (Mode_eqb ModePrivExec) [ModePrivExec] = true.
Proof.
  destruct (resolver_mode_gate
              (setMode (NewCiscoDeviceSimulator "Router" 0) ModePrivExec)
              "sh" (mkCommandDef "show" doShow [ModePrivExec]))
    as [[H _] | [H1 [H2 _]]].
  - rewrite findCommandByAbbreviation_decide by discriminate. reflexivity.
  - discriminate H.
  - split; [exact H1 | exact H2].
Defined.

(** ** What the handlers leave alone *)

Ltac frame_fields :=
  cbn [hostname mode runningConfig currentInterface commandHistory startTime
       clock setMode setCurrentInterface setRunningConfig setInterface
       setHostname Hostname Interfaces].

Ltac frame_goal :=
  frame_fields;
  repeat match goal with
  | |- _ /\ _ => split
  | |- ?a = ?a => reflexivity
  | |- forall k, k <> _ -> _ => intros k Hk
  | |- forall k, In k _ -> _ => intros k Hk
  | |- bound _ -> bound _ => intros Hb
  end;
  try reflexivity; try assumption;
  try (apply mapGet_mapSet_other; congruence);
  try (rewrite mapKeys_mapSet;
       match goal with
       | G : mapGet ?m ?c = _ |- context [mapGet ?m ?c] => rewrite G
       end; try assumption; apply in_or_app; now left);
  try (left; reflexivity);
  try (right; eexists; frame_fields; apply mapGet_mapSet);
  try (right; eexists; frame_fields; eassumption);
  try (right; assumption);
  try (right; match goal with
              | E : negb ?b = false |- ?b = true =>
                  now apply negb_false_iff in E
              end).

Ltac frames :=
  intros args sim sim' out err H; case_outcome H;
  repeat match goal with
  | |- context [match mapGet ?m ?k with _ => _ end] =>
      destruct (mapGet m k) eqn:?
  end;
  frame_goal.

Lemma doHelp_framed : framed doHelp.
Proof. unfold doHelp. frames. Qed.

Lemma doExitQuit_framed : framed doExitQuit.
Proof. unfold doExitQuit. frames. Qed.

Lemma doExitMode_framed : framed doExitMode.
Proof. unfold doExitMode. frames. Qed.

Lemma doEnd_framed : framed doEnd.
Proof. unfold doEnd. frames. Qed.

Lemma doEnable_framed : framed doEnable.
Proof. unfold doEnable. frames. Qed.

Lemma doDisable_framed : framed doDisable.
Proof. unfold doDisable. frames. Qed.

Lemma doConfigure_framed : framed doConfigure.
Proof. unfold doConfigure. frames. Qed.

Lemma doHostname_framed : framed doHostname.
Proof. unfold doHostname. frames. Qed.

Lemma doInterface_framed : framed doInterface.
Proof. unfold doInterface. frames. Qed.

Lemma doIP_framed : framed doIP.
Proof. unfold doIP. frames. Qed.

Lemma doShutdown_framed : framed doShutdown.
Proof. unfold doShutdown. frames. Qed.

Lemma noShutdown_framed : framed noShutdown.
Proof. unfold noShutdown. frames. Qed.

Lemma noIPAddress_framed : framed noIPAddress.
Proof. unfold noIPAddress. frames. Qed.

Lemma doNo_framed : framed doNo.
Proof.
  unfold doNo. intros args sim sim' out err H. case_outcome H;
    try (now apply (noShutdown_framed _ _ _ _ _ H));
    try (now apply (noIPAddress_framed _ _ _ _ _ H));
    frame_goal.
Qed.

Lemma showVersion_framed : framed showVersion.
Proof. unfold showVersion. frames. Qed.

Lemma showRunningConfig_framed : framed showRunningConfig.
Proof. unfold showRunningConfig. frames. Qed.

Lemma showIPInterfaceBrief_framed : framed showIPInterfaceBrief.
Proof. unfold showIPInterfaceBrief. frames. Qed.

Lemma showHistoryCmd_framed : framed showHistoryCmd.
Proof. unfold showHistoryCmd. frames. Qed.

Lemma doShow_framed : framed doShow.
Proof.
  unfold doShow. intros args sim sim' out err H. case_outcome H;
    try (now apply (showVersion_framed _ _ _ _ _ H));
    try (now apply (showRunningConfig_framed _ _ _ _ _ H));
    try (now apply (showIPInterfaceBrief_framed _ _ _ _ _ H));
    try (now apply (showHistoryCmd_framed _ _ _ _ _ H));
    frame_goal.
Qed.

Lemma handlers_framed : Forall framed handlers.
Proof.
  unfold handlers.
  repeat (constructor;
          [ first [ exact doHelp_framed | exact doExitQuit_framed
                  | exact doExitMode_framed | exact doEnd_framed
                  | exact doEnable_framed | exact doDisable_framed
                  | exact doConfigure_framed | exact doHostname_framed
                  | exact doInterface_framed | exact doIP_framed
                  | exact doShutdown_framed | exact doNo_framed
                  | exact noShutdown_framed | exact noIPAddress_framed
                  | exact doShow_framed | exact showVersion_framed
                  | exact showRunningConfig_framed
                  | exact showIPInterfaceBrief_framed
                  | exact showHistoryCmd_framed ] |]).
  constructor.
Qed.

Lemma processCommand_framed (line : string) :
  framed (fun _ => processCommand line).
Proof.
  intros args sim sim' out err H. unfold processCommand in H.
  destruct (strings.Fields line) as [| userCmdInput rest].
  - case_outcome H. frame_goal.
  - destruct (findCommandByAbbreviation sim userCmdInput) as [d | e] eqn:F.
    + pose proof (resolved_handler _ _ _ F) as Hin.
      pose proof handlers_framed as Hall. rewrite Forall_forall in Hall.
      exact (Hall _ Hin _ _ _ _ _ H).
    + case_outcome H. frame_goal.
Qed.

(** Opens a call by the way it ended, for the two ways other than a
    return. *)
Ltac case_end H :=
  unfold fail in H;
  repeat match type of H with
  | context [match ?x with _ => _ end] => destruct x eqn:?; try discriminate H
  end.

Ltac no_panic :=
  match goal with
  | Hb : bound ?sim, E : isEmpty (currentInterface ?sim) = false,
    G : mapGet _ (currentInterface ?sim) = None |- _ =>
      destruct Hb as [Hb | [d Hb]];
      [rewrite Hb in E; discriminate E | congruence]
  end.

Ltac guards :=
  intros args sim; split;
  [ intros Hb H; case_end H; try discriminate H; try no_panic
  | intros out0 H; case_end H; try discriminate H;
    try (injection H as <-; split; [reflexivity | auto]) ].

Lemma doHelp_guarded : guarded doHelp.
Proof. unfold doHelp. guards. Qed.

Lemma doExitQuit_guarded : guarded doExitQuit.
Proof. unfold doExitQuit. guards. Qed.

Lemma doExitMode_guarded : guarded doExitMode.
Proof. unfold doExitMode. guards. Qed.

Lemma doEnd_guarded : guarded doEnd.
Proof. unfold doEnd. guards. Qed.

Lemma doEnable_guarded : guarded doEnable.
Proof. unfold doEnable. guards. Qed.

Lemma doDisable_guarded : guarded doDisable.
Proof. unfold doDisable. guards. Qed.

Lemma doConfigure_guarded : guarded doConfigure.
Proof. unfold doConfigure. guards. Qed.

Lemma doHostname_guarded : guarded doHostname.
Proof. unfold doHostname. guards. Qed.

Lemma doInterface_guarded : guarded doInterface.
Proof. unfold doInterface. guards. Qed.

Lemma doIP_guarded : guarded doIP.
Proof. unfold doIP. guards. Qed.

Lemma doShutdown_guarded : guarded doShutdown.
Proof. unfold doShutdown. guards. Qed.

Lemma noShutdown_guarded : guarded noShutdown.
Proof. unfold noShutdown. guards. Qed.

Lemma noIPAddress_guarded : guarded noIPAddress.
Proof. unfold noIPAddress. guards. Qed.

Lemma doNo_guarded : guarded doNo.
Proof.
  unfold doNo. intros args sim. split.
  - intros Hb H. case_end H;
      first [ exact (proj1 (noShutdown_guarded _ _) Hb H)
            | exact (proj1 (noIPAddress_guarded _ _) Hb H) ].
  - intros out0 H. case_end H;
      first [ destruct (proj2 (noShutdown_guarded _ _) _ H) as [Ho Hm]
            | destruct (proj2 (noIPAddress_guarded _ _) _ H) as [Ho Hm] ];
      (split; [exact Ho | destruct Hm; congruence]).
Qed.

Lemma sortedInterfaceNames_known (sim : CiscoDeviceSimulator) (n : string) :
  In n (sortedInterfaceNames sim) ->
  In n (mapKeys (Interfaces (runningConfig sim))).
Proof. apply Permutation_in, sortedInterfaceNames_perm. Qed.

Lemma showVersion_guarded : guarded showVersion.
Proof. unfold showVersion. guards. Qed.

Lemma showRunningConfig_guarded : guarded showRunningConfig.
Proof.
  unfold showRunningConfig. intros args sim.
  rewrite (printInterfaces_lines _ _ _ (sortedInterfaceNames_known sim)).
  split; [intros _ H | intros out0 H]; destruct args; discriminate H.
Qed.

Lemma showIPInterfaceBrief_guarded : guarded showIPInterfaceBrief.
Proof.
  unfold showIPInterfaceBrief. intros args sim.
  rewrite (printInterfaces_lines _ _ _ (sortedInterfaceNames_known sim)).
  split; [intros _ H | intros out0 H]; destruct args; discriminate H.
Qed.

Lemma showHistoryCmd_guarded : guarded showHistoryCmd.
Proof. unfold showHistoryCmd. guards. Qed.

Lemma doShow_guarded : guarded doShow.
Proof.
  unfold doShow. intros args sim. split.
  - intros Hb H. case_end H;
      first [ exact (proj1 (showVersion_guarded _ _) Hb H)
            | exact (proj1 (showRunningConfig_guarded _ _) Hb H)
            | exact (proj1 (showIPInterfaceBrief_guarded _ _) Hb H)
            | exact (proj1 (showHistoryCmd_guarded _ _) Hb H) ].
  - intros out0 H. case_end H;
      first [ exact (proj2 (showVersion_guarded _ _) _ H)
            | exact (proj2 (showRunningConfig_guarded _ _) _ H)
            | exact (proj2 (showIPInterfaceBrief_guarded _ _) _ H)
            | exact (proj2 (showHistoryCmd_guarded _ _) _ H) ].
Qed.

Lemma handlers_guarded : Forall guarded handlers.
Proof.
  unfold handlers.
  repeat (constructor;
          [ first [ exact doHelp_guarded | exact doExitQuit_guarded
                  | exact doExitMode_guarded | exact doEnd_guarded
                  | exact doEnable_guarded | exact doDisable_guarded
                  | exact doConfigure_guarded | exact doHostname_guarded
                  | exact doInterface_guarded | exact doIP_guarded
                  | exact doShutdown_guarded | exact doNo_guarded
                  | exact noShutdown_guarded | exact noIPAddress_guarded
                  | exact doShow_guarded | exact showVersion_guarded
                  | exact showRunningConfig_guarded
                  | exact showIPInterfaceBrief_guarded
                  | exact showHistoryCmd_guarded ] |]).
  constructor.
Qed.

Lemma processCommand_guarded (line : string) :
  guarded (fun _ => processCommand line).
Proof.
  intros args sim. unfold processCommand.
  destruct (strings.Fields line) as [| userCmdInput rest];
    [split; [intros _ H | intros out0 H]; discriminate H |].
  destruct (findCommandByAbbreviation sim userCmdInput) as [d | e] eqn:F;
    [| split; [intros _ H | intros out0 H]; discriminate H].
  pose proof (resolved_handler _ _ _ F) as Hin.
  pose proof handlers_guarded as Hall. rewrite Forall_forall in Hall.
  exact (Hall _ Hin rest sim).
Qed.

(** ** Sessions *)

Lemma session_bound (lines : list string) (sim sim' : CiscoDeviceSimulator) :
  bound sim -> session lines sim = Some sim' -> bound sim'.
Proof.
  revert sim. induction lines as [| line rest IH]; cbn [session]; intros sim Hb.
  - now intros [= <-].
  - destruct (loopTurn line sim) as [s1 o1 e1 | |] eqn:T; try discriminate.
    apply IH. unfold loopTurn in T.
    destruct (isEmpty (strings.TrimSpace line)).
    + apply Returned_inj in T. destruct T as [<- _]. exact Hb.
    + destruct (processCommand_framed _ [] _ _ _ _ T)
        as (_ & _ & _ & _ & _ & _ & Hkeep & _).
      apply Hkeep. exact Hb.
Qed.

(** No line panics in a state that a session has reached from a fresh
    simulator: the handlers that dereference the entry of the current
    interface always find it. *)
Theorem session_never_panics (name : string) (now : Z) (lines : list string)
    (sim : CiscoDeviceSimulator) (line : string) :
  session lines (NewCiscoDeviceSimulator name now) = Some sim ->
  bound sim /\ processCommand line sim <> Panicked.
Proof.
  intros H.
  assert (Hb : bound sim).
  { eapply session_bound; [| exact H]. now left. }
  split; [exact Hb |].
  exact (proj1 (processCommand_guarded line [] sim) Hb).
Qed.

Lemma session_never_panics_witness :
  processCommand "shutdown"
    {| hostname := "Router";
       mode := ModeInterfaceConfig;
       runningConfig :=
         {| Hostname := "Router";
            Interfaces :=
              [("GigabitEthernet0/0",
                {| IPAddress := ""; SubnetMask := "";
                   Status := "administratively down";
                   AdminStatus := "down" |})] |};
       currentInterface := "GigabitEthernet0/0";
       commandHistory := ["enable"; "conf t"; "int g0/0"];
       startTime := 0;
       clock := 0 |}
  <> Panicked.
Proof.
  apply (session_never_panics "Router" 0 ["enable"; "conf t"; "int g0/0"]).
  vm_compute. reflexivity.
Defined.

(** A line ends the process only through the exit of the two exec modes,
    after its one line of farewell. *)
Theorem exit_only_from_exec (line : string) (sim : CiscoDeviceSimulator)
    (out : list string) :
  processCommand line sim = Exited out ->
  out = ["Exiting simulator."]
  /\ (mode sim = ModeUserExec \/ mode sim = ModePrivExec).
Proof. apply (proj2 (processCommand_guarded line [] sim)). Qed.

Lemma exit_only_from_exec_witness :
  mode (NewCiscoDeviceSimulator "Router" 0) = ModeUserExec
  \/ mode (NewCiscoDeviceSimulator "Router" 0) = ModePrivExec.
Proof.
  apply (exit_only_from_exec "quit" (NewCiscoDeviceSimulator "Router" 0)
           ["Exiting simulator."]).
  reflexivity.
Defined.

(** A line that returns deletes no interface, changes no entry other than
    that of the interface the simulator is bound to afterwards, and leaves
    the history, the start time and the construction-time host name
    alone. *)
Theorem line_touches_bound_interface_only (line : string)
    (sim sim' : CiscoDeviceSimulator) (out : list string) (err : option error) :
  processCommand line sim = Returned sim' out err ->
  (forall k, In k (mapKeys (Interfaces (runningConfig sim))) ->
             In k (mapKeys (Interfaces (runningConfig sim'))))
  /\ (forall k, k <> currentInterface sim' ->
        mapGet (Interfaces (runningConfig sim')) k
        = mapGet (Interfaces (runningConfig sim)) k)
  /\ commandHistory sim' = commandHistory sim
  /\ startTime sim' = startTime sim
  /\ hostname sim' = hostname sim.
Proof.
  intros H.
  destruct (processCommand_framed _ [] _ _ _ _ H)
    as (Hh & Hc & Hs & _ & Hother & Hkeys & _ & _).
  auto.
Qed.

Lemma line_touches_bound_interface_only_witness :
  mapGet (Interfaces (runningConfig
            (setInterface boundSim "GigabitEthernet0/0"
               {| IPAddress := ""; SubnetMask := "";
                  Status := "administratively down";
                  AdminStatus := "down" |})))
         "FastEthernet0/1"
  = mapGet (Interfaces (runningConfig boundSim)) "FastEthernet0/1".
Proof.
  refine (proj1 (proj2 (line_touches_bound_interface_only "shutdown" boundSim
                          _ [] None _)) "FastEthernet0/1" _).
  - reflexivity.
  - discriminate.
Defined.

Lemma splitLast_spec (s init : string) (l : ascii) :
  splitLast s = Some (init, l) -> s = init +++ String l "".
Proof.
  revert init. induction s as [| c r IH]; cbn; [discriminate |].
  destruct (splitLast r) as [[i0 l0] |] eqn:E.
  - intros init [= <- <-]. cbn. now rewrite (IH i0 eq_refl).
  - intros init [= <- <-]. destruct r; [reflexivity |].
    cbn in E. destruct (splitLast r) as [[? ?] |]; discriminate.
Qed.

Lemma length_append (a b : string) :
  String.length (a +++ b) = (String.length a + String.length b)%nat.
Proof. induction a as [| c a IH]; cbn; [reflexivity | now rewrite IH]. Qed.

Lemma forallb_string_append (p : ascii -> bool) (a b : string) :
  forallb_string p (a +++ b) = forallb_string p a && forallb_string p b.
Proof.
  induction a as [| c a IH]; cbn; [reflexivity |].
  now rewrite IH, andb_assoc.
Qed.

(** What the pattern of [doHostname] admits: one to sixty-three letters,
    digits and hyphens, the first and the last no hyphen. *)
Lemma matchHostname_shape (s : string) :
  matchHostname s = true ->
  (1 <= String.length s <= 63)%nat
  /\ forallb_string isHostChar s = true
  /\ (exists c r, s = String c r /\ isAlnum c = true)
  /\ (exists init l, s = init +++ String l "" /\ isAlnum l = true).
Proof.
  unfold matchHostname. destruct s as [| c rest]; [discriminate |].
  intros H. apply andb_true_iff in H. destruct H as [Hc H].
  destruct (splitLast rest) as [[middle l] |] eqn:E.
  - apply splitLast_spec in E. subst rest.
    apply andb_true_iff in H. destruct H as [H Hl].
    apply andb_true_iff in H. destruct H as [Hlen Hmid].
    apply Nat.leb_le in Hlen.
    split; [cbn; rewrite length_append; cbn; lia |].
    split.
    { cbn. rewrite forallb_string_append. cbn.
      unfold isHostChar at 1 3. rewrite Hc, Hl. cbn.
      now rewrite andb_true_r. }
    split; [eauto |].
    exists (String c middle), l. split; [reflexivity | exact Hl].
  - destruct rest as [| c2 r2].
    + split; [cbn; lia |]. split; [cbn; unfold isHostChar; now rewrite Hc |].
      split; [eauto |]. exists "", c. auto.
    + cbn in E. destruct (splitLast r2) as [[? ?] |]; discriminate.
Qed.

Lemma session_hostname (lines : list string) (sim sim' : CiscoDeviceSimulator) :
  matchHostname (Hostname (runningConfig sim)) = true ->
  session lines sim = Some sim' ->
  matchHostname (Hostname (runningConfig sim')) = true.
Proof.
  revert sim. induction lines as [| line rest IH]; cbn [session]; intros sim Hv.
  - now intros [= <-].
  - destruct (loopTurn line sim) as [s1 o1 e1 | |] eqn:T; try discriminate.
    apply IH. unfold loopTurn in T.
    destruct (isEmpty (strings.TrimSpace line)).
    + apply Returned_inj in T. destruct T as [<- _]. exact Hv.
    + destruct (processCommand_framed _ [] _ _ _ _ T)
        as (_ & _ & _ & _ & _ & _ & _ & [Hsame | Hnew]).
      * rewrite Hsame. exact Hv.
      * exact Hnew.
Qed.

(** A session started under a host name of the grammar only ever shows
    host names of the grammar: one to sixty-three letters, digits and
    hyphens, with no hyphen at either end. *)
Theorem session_hostname_valid (name : string) (now : Z) (lines : list string)
    (sim : CiscoDeviceSimulator) :
  matchHostname name = true ->
  session lines (NewCiscoDeviceSimulator name now) = Some sim ->
  let h := Hostname (runningConfig sim) in
  (1 <= String.length h <= 63)%nat
  /\ forallb_string isHostChar h = true
  /\ (exists c r, h = String c r /\ isAlnum c = true)
  /\ (exists init l, h = init +++ String l "" /\ isAlnum l = true).
Proof.
  intros Hv H. apply matchHostname_shape.
  exact (session_hostname lines (NewCiscoDeviceSimulator name now) _ Hv H).
Qed.

Lemma session_hostname_valid_witness :
  (1 <= String.length "Edge-1" <= 63)%nat.
Proof.
  refine (proj1 (session_hostname_valid "Router" 0
                   ["enable"; "conf t"; "hostname Edge-1"; "hostname -bad"]
                   {| hostname := "Router";
                      mode := ModeGlobalConfig;
                      runningConfig :=
                        {| Hostname := "Edge-1"; Interfaces := [] |};
                      currentInterface := "";
                      commandHistory :=
                        ["enable"; "conf t"; "hostname Edge-1";
                         "hostname -bad"];
                      startTime := 0;
                      clock := 0 |}
                   _ _)).
  - reflexivity.
  - vm_compute. reflexivity.
Defined.

(** ** The mode state machine *)

Ltac keeps :=
  intros args sim sim' out err H; case_outcome H;
  repeat match goal with
  | |- context [match mapGet ?m ?k with _ => _ end] =>
      destruct (mapGet m k) eqn:?
  end;
  frame_fields; split; congruence.

Lemma doHelp_keepsContext : keepsContext doHelp.
Proof. unfold doHelp. keeps. Qed.

Lemma doExitQuit_keepsContext : keepsContext doExitQuit.
Proof. unfold doExitQuit. keeps. Qed.

Lemma doHostname_keepsContext : keepsContext doHostname.
Proof. unfold doHostname. keeps. Qed.

Lemma doIP_keepsContext : keepsContext doIP.
Proof. unfold doIP. keeps. Qed.

Lemma doShutdown_keepsContext : keepsContext doShutdown.
Proof. unfold doShutdown. keeps. Qed.

Lemma noShutdown_keepsContext : keepsContext noShutdown.
Proof. unfold noShutdown. keeps. Qed.

Lemma noIPAddress_keepsContext : keepsContext noIPAddress.
Proof. unfold noIPAddress. keeps. Qed.

Lemma doNo_keepsContext : keepsContext doNo.
Proof.
  unfold doNo. intros args sim sim' out err H. case_outcome H;
    try (destruct (noShutdown_keepsContext _ _ _ _ _ H) as [Hm Hc]);
    try (destruct (noIPAddress_keepsContext _ _ _ _ _ H) as [Hm Hc]);
    split; congruence.
Qed.

(** The renderers of [show] and the history command change nothing. *)
Lemma show_read_only (h : CommandHandler) (args : list string)
    (sim sim' : CiscoDeviceSimulator) (out : list string) (err : option error) :
  In h [showVersion; showRunningConfig; showIPInterfaceBrief; showHistoryCmd;
        doHelp] ->
  h args sim = Returned sim' out err -> sim' = sim.
Proof.
  intros Hin H. cbn in Hin.
  destruct Hin as [<- | [<- | [<- | [<- | [<- | []]]]]];
    [ unfold showVersion in H | unfold showRunningConfig in H
    | unfold showIPInterfaceBrief in H | unfold showHistoryCmd in H
    | unfold doHelp in H ];
    case_outcome H; reflexivity.
Qed.

Lemma doShow_read_only (args : list string)
    (sim sim' : CiscoDeviceSimulator) (out : list string) (err : option error) :
  doShow args sim = Returned sim' out err -> sim' = sim.
Proof.
  unfold doShow. intros H. case_outcome H; try reflexivity;
    (eapply show_read_only; [| exact H]); cbn; auto 6.
Qed.

Lemma doShow_keepsContext : keepsContext doShow.
Proof.
  intros args sim sim' out err H. apply doShow_read_only in H. now subst.
Qed.

Lemma showHistoryCmd_keepsContext : keepsContext showHistoryCmd.
Proof. unfold showHistoryCmd. keeps. Qed.

Lemma normalizeInterfaceName_nonempty (ty num name : string) :
  normalizeInterfaceName ty num = inl name -> isEmpty name = false.
Proof.
  unfold normalizeInterfaceName. intros H.
  repeat match type of H with
  | context [strings.HasPrefix ?a ?b] => destruct (strings.HasPrefix a b)
  | context [match ?x with _ => _ end] => destruct x; try discriminate H
  end; try discriminate H; injection H as <-; reflexivity.
Qed.

Lemma modeStep_same (m : Mode) : modeStep m m.
Proof. now left. Qed.

(** What a dispatched command does to the mode and to the binding. *)
Lemma dispatched_step (sim sim' : CiscoDeviceSimulator) (d : CommandDef)
    (args out : list string) (err : option error) :
  In d (sortedCommands (mode sim)) ->
  Handler d args sim = Returned sim' out err ->
  modeStep (mode sim) (mode sim')
  /\ (modeBinding sim = true -> modeBinding sim' = true).
Proof.
  intros Hin H.
  assert (Hkeep : mode sim' = mode sim
                  /\ currentInterface sim' = currentInterface sim ->
                  modeStep (mode sim) (mode sim')
                  /\ (modeBinding sim = true -> modeBinding sim' = true)).
  { intros [Hm Hc]. unfold modeBinding. rewrite Hm, Hc.
    split; [apply modeStep_same | auto]. }
  remember (mode sim) as m eqn:M in Hin. symmetry in M.
  destruct m; cbn [sortedCommands In] in Hin;
    repeat (destruct Hin as [<- | Hin]; [cbn [Handler] in H |]);
    try (destruct Hin);
    try (apply Hkeep;
         first [ exact (doExitQuit_keepsContext _ _ _ _ _ H)
               | exact (doHostname_keepsContext _ _ _ _ _ H)
               | exact (doIP_keepsContext _ _ _ _ _ H)
               | exact (doShutdown_keepsContext _ _ _ _ _ H)
               | exact (doNo_keepsContext _ _ _ _ _ H)
               | exact (doShow_keepsContext _ _ _ _ _ H)
               | exact (showHistoryCmd_keepsContext _ _ _ _ _ H) ]);
    clear Hkeep;
    unfold doEnable, doDisable, doConfigure, doEnd, doInterface in H;
    case_outcome H; try discriminate M;
    repeat match goal with
    | |- context [match mapGet ?m ?k with _ => _ end] =>
        destruct (mapGet m k) eqn:?
    end;
    unfold modeBinding; frame_fields; rewrite ?M;
    (split;
     [ first [left; reflexivity | right; exact I]
     | try (intros K; exact K);
       try (destruct (currentInterface sim); cbn; congruence);
       try (match goal with
            | E : normalizeInterfaceName _ _ = inl ?n |- _ =>
                rewrite (normalizeInterfaceName_nonempty _ _ _ E)
            end; reflexivity) ]).
Qed.

Lemma resolved_in_mode (sim : CiscoDeviceSimulator) (token : string)
    (d : CommandDef) :
  findCommandByAbbreviation sim token = inl d ->
  d = mkCommandDef "?" doHelp [] \/ In d (sortedCommands (mode sim)).
Proof.
  destruct (String.eqb_spec token "?") as [-> | Hq].
  - unfold findCommandByAbbreviation. cbn [String.eqb Ascii.eqb Bool.eqb].
    intros [= <-]. now left.
  - rewrite findCommandByAbbreviation_decide by assumption.
    intros H. right. apply decide_In, filter_In in H. tauto.
Qed.

Lemma processCommand_step (line : string) (sim sim' : CiscoDeviceSimulator)
    (out : list string) (err : option error) :
  processCommand line sim = Returned sim' out err ->
  modeStep (mode sim) (mode sim')
  /\ (modeBinding sim = true -> modeBinding sim' = true).
Proof.
  unfold processCommand. intros H.
  destruct (strings.Fields line) as [| userCmdInput rest].
  - case_outcome H. split; [apply modeStep_same | auto].
  - destruct (findCommandByAbbreviation sim userCmdInput) as [d | e] eqn:F.
    + destruct (resolved_in_mode _ _ _ F) as [-> | Hin].
      * cbn [Handler] in H.
        destruct (doHelp_keepsContext _ _ _ _ _ H) as [Hm Hc].
        unfold modeBinding. rewrite Hm, Hc.
        split; [apply modeStep_same | auto].
      * exact (dispatched_step _ _ _ _ _ _ Hin H).
    + case_outcome H. split; [apply modeStep_same | auto].
Qed.

(** A line changes the mode, if at all, along one of six steps: between
    the two exec modes, from privileged exec into global configuration,
    from there into interface configuration, and from either configuration
    mode back to privileged exec. *)
Theorem mode_transitions (line : string) (sim sim' : CiscoDeviceSimulator)
    (out : list string) (err : option error) :
  processCommand line sim = Returned sim' out err ->
  mode sim' = mode sim
  \/ (mode sim = ModeUserExec /\ mode sim' = ModePrivExec)
  \/ (mode sim = ModePrivExec /\ mode sim' = ModeUserExec)
  \/ (mode sim = ModePrivExec /\ mode sim' = ModeGlobalConfig)
  \/ (mode sim = ModeGlobalConfig /\ mode sim' = ModeInterfaceConfig)
  \/ (mode sim = ModeGlobalConfig /\ mode sim' = ModePrivExec)
  \/ (mode sim = ModeInterfaceConfig /\ mode sim' = ModePrivExec).
Proof.
  intros H. destruct (processCommand_step _ _ _ _ _ H) as [[Hs | Hs] _].
  - now left.
  - right. destruct (mode sim), (mode sim'); cbn in Hs; try contradiction;
      tauto.
Qed.

Lemma mode_transitions_witness :
  ModeGlobalConfig = ModePrivExec
  \/ (ModePrivExec = ModeUserExec /\ ModeGlobalConfig = ModePrivExec)
  \/ (ModePrivExec = ModePrivExec /\ ModeGlobalConfig = ModeUserExec)
  \/ (ModePrivExec = ModePrivExec /\ ModeGlobalConfig = ModeGlobalConfig)
  \/ (ModePrivExec = ModeGlobalConfig /\ ModeGlobalConfig = ModeInterfaceConfig)
  \/ (ModePrivExec = ModeGlobalConfig /\ ModeGlobalConfig = ModePrivExec)
  \/ (ModePrivExec = ModeInterfaceConfig /\ ModeGlobalConfig = ModePrivExec).
Proof.
  apply (mode_transitions "conf t" (setMode boundSim ModePrivExec)
           (setMode boundSim ModeGlobalConfig)
           ["Enter configuration commands, one per line. End with CNTL/Z or 'end'."]
           None).
  reflexivity.
Defined.

Lemma modeBinding_iff (sim : CiscoDeviceSimulator) :
  modeBinding sim = true <->
  (mode sim = ModeInterfaceConfig <-> currentInterface sim <> "").
Proof.
  unfold modeBinding.
  destruct (mode sim), (currentInterface sim); cbn;
    split; try discriminate; try reflexivity; intros H;
    try (split; [discriminate | congruence]);
    try (split; [congruence | reflexivity]).
  all: try (exfalso; destruct H as [H1 H2];
            first [ now apply H1 | discriminate (H2 ltac:(discriminate)) ]).
Qed.

Lemma session_binding (lines : list string) (sim sim' : CiscoDeviceSimulator) :
  modeBinding sim = true -> session lines sim = Some sim' ->
  modeBinding sim' = true.
Proof.
  revert sim. induction lines as [| line rest IH]; cbn [session]; intros sim Hb.
  - now intros [= <-].
  - destruct (loopTurn line sim) as [s1 o1 e1 | |] eqn:T; try discriminate.
    apply IH. unfold loopTurn in T.
    destruct (isEmpty (strings.TrimSpace line)).
    + apply Returned_inj in T. destruct T as [<- _]. exact Hb.
    + exact (proj2 (processCommand_step _ _ _ _ _ T) Hb).
Qed.

(** In every state a session reaches, the simulator is in interface
    configuration mode exactly when it has a current interface, and that
    interface has an entry in the running configuration. *)
Theorem session_interface_mode (name : string) (now : Z)
    (lines : list string) (sim : CiscoDeviceSimulator) :
  session lines (NewCiscoDeviceSimulator name now) = Some sim ->
  (mode sim = ModeInterfaceConfig <-> currentInterface sim <> "")
  /\ (mode sim = ModeInterfaceConfig ->
      exists intfData,
        mapGet (Interfaces (runningConfig sim)) (currentInterface sim)
        = Some intfData).
Proof.
  intros H.
  assert (Hb : modeBinding sim = true)
    by (eapply session_binding; [| exact H]; reflexivity).
  apply modeBinding_iff in Hb. split; [exact Hb |].
  intros Hm. apply Hb in Hm.
  assert (Hbound : bound sim) by (eapply session_bound; [| exact H]; now left).
  destruct Hbound as [E | E]; [contradiction | exact E].
Qed.

Lemma session_interface_mode_witness :
  exists intfData,
    mapGet [("GigabitEthernet0/0",
             {| IPAddress := ""; SubnetMask := "";
                Status := "administratively down"; AdminStatus := "down" |})]
           "GigabitEthernet0/0" = Some intfData.
Proof.
  refine (proj2 (session_interface_mode "Router" 0
                   ["enable"; "conf t"; "int g0/0"]
                   {| hostname := "Router";
                      mode := ModeInterfaceConfig;
                      runningConfig :=
                        {| Hostname := "Router";
                           Interfaces :=
                             [("GigabitEthernet0/0",
                               {| IPAddress := ""; SubnetMask := "";
                                  Status := "administratively down";
                                  AdminStatus := "down" |})] |};
                      currentInterface := "GigabitEthernet0/0";
                      commandHistory := ["enable"; "conf t"; "int g0/0"];
                      startTime := 0;
                      clock := 0 |} _) eq_refl).
  vm_compute. reflexivity.
Defined.

(** ** Canonical interface names *)

Lemma span_spec (p : ascii -> bool) (s a b : string) :
  span p s = (a, b) -> s = a +++ b /\ forallb_string p a = true.
Proof.
  revert a b. induction s as [| c r IH]; cbn; intros a b.
  - intros [= <- <-]. auto.
  - destruct (p c) eqn:Pc.
    + destruct (span p r) as [a0 b0]. intros [= <- <-].
      destruct (IH _ _ eq_refl) as [-> Ha]. cbn. now rewrite Pc, Ha.
    + intros [= <- <-]. auto.
Qed.

Lemma matchSlotPort_spec (s slot port : string) :
  matchSlotPort s = Some (slot, port) ->
  s = slot +++ "/" +++ port /\ isNumber slot = true /\ isNumber port = true.
Proof.
  unfold matchSlotPort, isNumber.
  destruct (span isDigit s) as [a r1] eqn:S1.
  apply span_spec in S1. destruct S1 as [-> Ha].
  destruct (isEmpty a) eqn:Ea; [discriminate |].
  destruct r1 as [| c r2]; [discriminate |].
  destruct (Ascii.eqb_spec c "/") as [-> | Hc].
  - destruct (span isDigit r2) as [b r3] eqn:S2.
    apply span_spec in S2. destruct S2 as [-> Hb].
    destruct (isEmpty b) eqn:Eb; [discriminate |].
    destruct r3; [| discriminate].
    intros [= <- <-]. rewrite Ea, Eb, Ha, Hb.
    assert (E : b +++ "" = b).
    { clear. induction b as [| c b IH]; cbn; [reflexivity | now rewrite IH]. }
    rewrite E. auto.
  - intros H. exfalso.
    destruct c as [[] [] [] [] [] [] [] []]; try discriminate H.
    now apply Hc.
Qed.

Lemma matchSlotPort_number (slot port : string) :
  isNumber slot = true -> isNumber port = true ->
  matchSlotPort (slot +++ "/" +++ port) = Some (slot, port).
Proof.
  unfold isNumber, matchSlotPort.
  rewrite !andb_true_iff, !negb_true_iff.
  intros [Es Hs] [Ep Hp].
  rewrite (span_app isDigit slot), Es; [| exact Hs | reflexivity].
  cbn [String.append]. now rewrite (span_all isDigit port), Ep.
Qed.

Lemma isDigit_not_space (c : ascii) : isDigit c = true -> isReSpace c = false.
Proof.
  destruct c as [[] [] [] [] [] [] [] []]; cbn; intros H;
    try discriminate H; reflexivity.
Qed.

Lemma normalizeInterfaceName_canonical (ty num name : string) :
  normalizeInterfaceName ty num = inl name -> canonicalName name.
Proof.
  unfold normalizeInterfaceName, canonicalName, baseNames. intros H.
  destruct (matchSlotPort num) as [[slot port] |] eqn:M.
  - apply matchSlotPort_spec in M. destruct M as (-> & Hs & Hp).
    repeat match type of H with
    | context [strings.HasPrefix ?a ?b] => destruct (strings.HasPrefix a b)
    end; try discriminate H; injection H as <-;
      first [ exists "GigabitEthernet", slot, port; split; [reflexivity |]
            | exists "FastEthernet", slot, port; split; [reflexivity |]
            | exists "Ethernet", slot, port; split; [reflexivity |] ];
      cbn; auto.
  - repeat match type of H with
    | context [strings.HasPrefix ?a ?b] => destruct (strings.HasPrefix a b)
    end; discriminate H.
Qed.

Lemma canonicalName_parse (name : string) :
  canonicalName name ->
  exists base num,
    matchInterface name = Some (base, num)
    /\ normalizeInterfaceName base num = inl name.
Proof.
  intros (base & slot & port & -> & Hb & Hs & Hp).
  exists base, (slot +++ "/" +++ port).
  assert (Hd : match slot +++ "/" +++ port with
               | String c _ => isDigit c = true
               | EmptyString => False
               end).
  { unfold isNumber in Hs. apply andb_true_iff in Hs. destruct Hs as [E F].
    destruct slot as [| c r]; [discriminate |]. cbn in *.
    now apply andb_true_iff in F. }
  assert (Hw : forallb_string isLetter base = true).
  { cbn in Hb. destruct Hb as [<- | [<- | [<- | []]]]; reflexivity. }
  assert (He : isEmpty base = false).
  { cbn in Hb. destruct Hb as [<- | [<- | [<- | []]]]; reflexivity. }
  split.
  - unfold matchInterface.
    rewrite (span_app isLetter base), He; [| exact Hw |].
    + destruct (slot +++ "/" +++ port) as [| c r] eqn:E; [contradiction |].
      cbn [span]. rewrite (isDigit_not_space _ Hd).
      rewrite <- E, (matchSlotPort_number _ _ Hs Hp). reflexivity.
    + destruct (slot +++ "/" +++ port) as [| c r]; [exact I |].
      now apply isDigit_not_letter.
  - unfold normalizeInterfaceName.
    rewrite (matchSlotPort_number _ _ Hs Hp).
    cbn in Hb. destruct Hb as [<- | [<- | [<- | []]]]; reflexivity.
Qed.

Lemma doInterface_binds (args : list string)
    (sim sim' : CiscoDeviceSimulator) (out : list string) :
  doInterface args sim = Returned sim' out None ->
  exists ty num,
    normalizeInterfaceName ty num = inl (currentInterface sim').
Proof.
  unfold doInterface. intros H. case_outcome H;
    try discriminate;
    match goal with
    | E : normalizeInterfaceName ?t ?n = inl _ |- _ => exists t, n; exact E
    end.
Qed.

(** The name under which the interface handler binds an interface is
    canonical, a full type name followed by slot, stroke and port; given
    back to the handler as its one argument, in any state, it is bound
    again; and its sort key is the weight of its type, 2, 1 or 99, with
    its slot and port. *)
Theorem interface_name_round_trip (args : list string)
    (sim sim' sim2 : CiscoDeviceSimulator) (out : list string) :
  doInterface args sim = Returned sim' out None ->
  let name := currentInterface sim' in
  canonicalName name
  /\ (exists sim3,
        doInterface [name] sim2 = Returned sim3 [] None
        /\ currentInterface sim3 = name
        /\ mode sim3 = ModeInterfaceConfig)
  /\ (exists w slot port,
        sortInterfaceKey name = (w, slot, port) /\ In w [2; 1; 99]).
Proof.
  intros H name.
  destruct (doInterface_binds _ _ _ _ H) as (ty & num & Hn).
  fold name in Hn.
  pose proof (normalizeInterfaceName_canonical _ _ _ Hn) as Hc.
  split; [exact Hc |]. split.
  - destruct (canonicalName_parse _ Hc) as (base & num' & Hm & Hn').
    unfold doInterface. cbn [strings.Join]. rewrite Hm, Hn'.
    eexists. split; [reflexivity |]. frame_fields. auto.
  - destruct Hc as (base & slot & port & E & Hb & Hs & Hp).
    rewrite E.
    assert (Hw : isWord base = true)
      by (cbn in Hb; destruct Hb as [<- | [<- | [<- | []]]]; reflexivity).
    rewrite (sortInterfaceKey_named _ _ _ Hw Hs Hp).
    eexists _, _, _. split; [reflexivity |].
    cbn in Hb. destruct Hb as [<- | [<- | [<- | []]]]; cbn; auto.
Qed.

Lemma interface_name_round_trip_witness :
  canonicalName "FastEthernet0/1".
Proof.
  refine (proj1 (interface_name_round_trip ["fa"; "0/1"]
                   (setMode boundSim ModeGlobalConfig)
                   (setMode
                      (setCurrentInterface
                         (setInterface (setMode boundSim ModeGlobalConfig)
                            "FastEthernet0/1"
                            {| IPAddress := ""; SubnetMask := "";
                               Status := "administratively down";
                               AdminStatus := "down" |})
                         "FastEthernet0/1")
                      ModeInterfaceConfig)
                   boundSim [] _)).
  reflexivity.
Defined.

(** ** Negation, renderers and round trips *)

(** In global configuration mode [no] never succeeds and never changes
    anything: neither the host name nor an interface can be negated. *)
Theorem no_fails_in_global_config (args : list string)
    (sim : CiscoDeviceSimulator) :
  mode sim = ModeGlobalConfig ->
  exists e, doNo args sim = Returned sim [] (Some e).
Proof.
  intros M.
  assert (H : forall o, doNo args sim = o ->
                        exists e, o = Returned sim [] (Some e)).
  { intros o H. unfold doNo in H. case_end H;
      try discriminate M; subst o; eexists; reflexivity. }
  exact (H _ eq_refl).
Qed.

Lemma no_fails_in_global_config_witness :
  exists e,
    doNo ["hostname"] (setMode boundSim ModeGlobalConfig)
    = Returned (setMode boundSim ModeGlobalConfig) [] (Some e).
Proof.
  apply (no_fails_in_global_config ["hostname"]
           (setMode boundSim ModeGlobalConfig)).
  reflexivity.
Defined.

(** The [show] command, whatever its arguments, the history command and
    the help action only print: the state they return is the state they
    were given. *)
Theorem renderers_read_only (h : CommandHandler) (args : list string)
    (sim sim' : CiscoDeviceSimulator) (out : list string) (err : option error) :
  In h [doShow; showVersion; showRunningConfig; showIPInterfaceBrief;
        showHistoryCmd; doHelp] ->
  h args sim = Returned sim' out err ->
  sim' = sim.
Proof.
  intros [<- | Hin] H.
  - exact (doShow_read_only _ _ _ _ _ H).
  - exact (show_read_only _ _ _ _ _ _ Hin H).
Qed.

Lemma renderers_read_only_witness :
  In doShow [doShow; showVersion; showRunningConfig; showIPInterfaceBrief;
             showHistoryCmd; doHelp]
  /\ boundSim = boundSim.
Proof.
  assert (Hin : In doShow [doShow; showVersion; showRunningConfig;
                           showIPInterfaceBrief; showHistoryCmd; doHelp])
    by (now left).
  split; [exact Hin |].
  refine (renderers_read_only doShow ["version"] boundSim boundSim _ None
            Hin _).
  reflexivity.
Defined.

Lemma mapSet_same {V : Type} (m : GoMap V) (k : string) (v : V) :
  mapGet m k = Some v -> mapSet m k v = m.
Proof.
  induction m as [| [k0 v0] m IH]; cbn; [discriminate |].
  destruct (String.eqb_spec k0 k) as [-> | Hne].
  - now intros [= ->].
  - intros H. now rewrite (IH H).
Qed.

Lemma mapSet_twice {V : Type} (m : GoMap V) (k : string) (v w : V) :
  mapSet (mapSet m k v) k w = mapSet m k w.
Proof.
  induction m as [| [k0 v0] m IH]; cbn.
  - now rewrite String.eqb_refl.
  - destruct (String.eqb k0 k) eqn:E; cbn.
    + now rewrite String.eqb_refl.
    + now rewrite E, IH.
Qed.

Lemma setInterface_restore (sim : CiscoDeviceSimulator) (k : string)
    (d w : InterfaceConfig) :
  mapGet (Interfaces (runningConfig sim)) k = Some d ->
  setInterface (setInterface sim k w) k d = sim.
Proof.
  intros G. destruct sim as [h m [hn ifs] c hist st ck].
  unfold setInterface, setRunningConfig. cbn in *.
  now rewrite mapSet_twice, (mapSet_same _ _ _ G).
Qed.

(** On an interface that has no address and satisfies the invariant,
    [ip address] with two valid operands followed by [no ip address]
    gives back the state from before, whether the interface is shut down
    or not. *)
Theorem ip_address_round_trip (kw ipAddr subnetMask : string)
    (sim : CiscoDeviceSimulator) (intfData : InterfaceConfig) :
  currentInterface sim <> "" ->
  mapGet (Interfaces (runningConfig sim)) (currentInterface sim)
    = Some intfData ->
  IPAddress intfData = "" -> SubnetMask intfData = "" ->
  interfaceStateOK intfData ->
  String.prefix "a" (strings.ToLower kw) = true ->
  isValidIP ipAddr = true -> isValidIP subnetMask = true ->
  exists sim1,
    doIP [kw; ipAddr; subnetMask] sim = Returned sim1 [] None
    /\ mapGet (Interfaces (runningConfig sim1)) (currentInterface sim)
       = Some {| IPAddress := ipAddr; SubnetMask := subnetMask;
                 Status := if String.eqb (AdminStatus intfData) "up"
                           then "up" else Status intfData;
                 AdminStatus := AdminStatus intfData |}
    /\ noIPAddress [] sim1 = Returned sim [] None.
Proof.
  intros Hc G Hip Hmask [_ [_ Hdown]] Hkw Hv1 Hv2.
  assert (E : isEmpty (currentInterface sim) = false)
    by (destruct (currentInterface sim); [contradiction | reflexivity]).
  exists (setInterface sim (currentInterface sim)
            {| IPAddress := ipAddr; SubnetMask := subnetMask;
               Status := if String.eqb (AdminStatus intfData) "up"
                         then "up" else Status intfData;
               AdminStatus := AdminStatus intfData |}).
  split; [| split].
  - unfold doIP, strings.HasPrefix.
    rewrite E, Hkw, Hv1, Hv2, G. reflexivity.
  - unfold setInterface. cbn. apply mapGet_mapSet.
  - unfold noIPAddress. frame_fields.
    rewrite E, mapGet_mapSet.
    cbn [IPAddress SubnetMask Status AdminStatus].
    replace {| IPAddress := ""; SubnetMask := "";
               Status := _; AdminStatus := AdminStatus intfData |}
      with intfData.
    + now rewrite (setInterface_restore _ _ _ _ G).
    + destruct intfData as [ip mask st ad]. cbn in *. subst ip mask.
      f_equal.
      destruct (String.eqb_spec ad "up") as [-> | Hne]; [| reflexivity].
      cbn. now apply Hdown.
Qed.

Lemma ip_address_round_trip_witness :
  exists sim1,
    doIP ["address"; "10.0.0.1"; "255.255.255.0"] boundSim
    = Returned sim1 [] None
    /\ mapGet (Interfaces (runningConfig sim1)) (currentInterface boundSim)
       = Some {| IPAddress := "10.0.0.1"; SubnetMask := "255.255.255.0";
                 Status := "up"; AdminStatus := "up" |}
    /\ noIPAddress [] sim1 = Returned boundSim [] None.
Proof.
  refine (ip_address_round_trip "address" "10.0.0.1" "255.255.255.0" boundSim
            {| IPAddress := ""; SubnetMask := "";
               Status := "down"; AdminStatus := "up" |}
            _ eq_refl eq_refl eq_refl _ eq_refl eq_refl eq_refl).
  - discriminate.
  - repeat split; cbn; intros; congruence.
Defined.

(** On an interface that is administratively up and satisfies the
    invariant, [shutdown] followed by [no shutdown] gives back the state
    from before; in between the interface is administratively down with
    its address kept. *)
Theorem shutdown_round_trip (sim : CiscoDeviceSimulator)
    (intfData : InterfaceConfig) :
  currentInterface sim <> "" ->
  mapGet (Interfaces (runningConfig sim)) (currentInterface sim)
    = Some intfData ->
  AdminStatus intfData = "up" ->
  interfaceStateOK intfData ->
  exists sim1,
    doShutdown [] sim = Returned sim1 [] None
    /\ mapGet (Interfaces (runningConfig sim1)) (currentInterface sim)
       = Some {| IPAddress := IPAddress intfData;
                 SubnetMask := SubnetMask intfData;
                 Status := "administratively down";
                 AdminStatus := "down" |}
    /\ noShutdown [] sim1 = Returned sim [] None.
Proof.
  intros Hc G Hup [_ [Hset Hunset]].
  assert (E : isEmpty (currentInterface sim) = false)
    by (destruct (currentInterface sim); [contradiction | reflexivity]).
  exists (setInterface sim (currentInterface sim)
            {| IPAddress := IPAddress intfData;
               SubnetMask := SubnetMask intfData;
               Status := "administratively down";
               AdminStatus := "down" |}).
  split; [| split].
  - unfold doShutdown. rewrite E, G. reflexivity.
  - unfold setInterface. cbn. apply mapGet_mapSet.
  - unfold noShutdown. frame_fields.
    rewrite E, mapGet_mapSet.
    cbn [IPAddress SubnetMask Status AdminStatus].
    replace {| IPAddress := IPAddress intfData;
               SubnetMask := SubnetMask intfData;
               Status := _; AdminStatus := "up" |}
      with intfData.
    + now rewrite (setInterface_restore _ _ _ _ G).
    + destruct intfData as [ip mask st ad]. cbn in *. subst ad.
      f_equal. destruct ip; cbn.
      * now apply Hunset.
      * apply Hset; [reflexivity | discriminate].
Qed.

Lemma shutdown_round_trip_witness :
  exists sim1,
    doShutdown [] boundSim = Returned sim1 [] None
    /\ mapGet (Interfaces (runningConfig sim1)) (currentInterface boundSim)
       = Some {| IPAddress := ""; SubnetMask := "";
                 Status := "administratively down"; AdminStatus := "down" |}
    /\ noShutdown [] sim1 = Returned boundSim [] None.
Proof.
  refine (shutdown_round_trip boundSim
            {| IPAddress := ""; SubnetMask := "";
               Status := "down"; AdminStatus := "up" |}
            _ eq_refl eq_refl _).
  - discriminate.
  - repeat split; cbn; intros; congruence.
Defined.

(** ** Lines, tokens and the history *)

Lemma isToken_snoc (w : string) (c : ascii) :
  strings.isSpace c = false ->
  (w = "" \/ isToken w = true) ->
  isToken (w +++ String c "") = true.
Proof.
  intros Hc Hw. unfold isToken.
  rewrite forallb_string_append. cbn. rewrite Hc. cbn.
  destruct Hw as [-> | Hw]; [reflexivity |].
  unfold isToken in Hw. apply andb_true_iff in Hw. destruct Hw as [He Hf].
  rewrite Hf. destruct w; [discriminate | reflexivity].
Qed.

Lemma fieldsFrom_tokens (s : string) (cur : option string) :
  match cur with Some w => isToken w = true | None => True end ->
  Forall (fun t => isToken t = true) (strings.fieldsFrom cur s).
Proof.
  revert cur. induction s as [| c r IH]; intros cur Hcur; cbn.
  - destruct cur; [repeat constructor; exact Hcur | constructor].
  - destruct (strings.isSpace c) eqn:Hc.
    + destruct cur; [constructor; [exact Hcur |] |]; now apply IH.
    + destruct cur as [w |]; apply IH.
      * apply isToken_snoc; auto.
      * apply (isToken_snoc "" c Hc). now left.
Qed.

Lemma fieldsFrom_concat (s : string) (cur : option string) :
  String.concat "" (strings.fieldsFrom cur s)
  = match cur with Some w => w | None => "" end
    +++ filterString (fun c => negb (strings.isSpace c)) s.
Proof.
  assert (Hnil : forall a, a +++ "" = a).
  { induction a as [| c a IH]; cbn; [reflexivity | now rewrite IH]. }
  assert (Hassoc : forall a b c, (a +++ b) +++ c = a +++ b +++ c).
  { induction a as [| x a IH]; cbn; intros; [reflexivity | now rewrite IH]. }
  assert (Hcons : forall w l,
            String.concat "" (w :: l) = w +++ String.concat "" l).
  { intros w l. destruct l as [| x l]; cbn; [now rewrite Hnil | reflexivity]. }
  revert cur. induction s as [| c r IH]; intros cur; cbn [strings.fieldsFrom filterString].
  - destruct cur; cbn; [now rewrite Hnil | reflexivity].
  - destruct (strings.isSpace c) eqn:Hc; cbn [negb].
    + destruct cur as [w |].
      * rewrite Hcons. now rewrite (IH None).
      * apply (IH None).
    + destruct cur as [w |]; rewrite IH; cbn; [now rewrite Hassoc | reflexivity].
Qed.

(** The words a line is cut into are non-empty and free of white space,
    and put together again they are the line without its white space: a
    handler is never given an empty argument, and nothing but white space
    is lost. *)
Theorem fields_are_tokens (line : string) :
  Forall (fun t => isToken t = true) (strings.Fields line)
  /\ String.concat "" (strings.Fields line)
     = filterString (fun c => negb (strings.isSpace c)) line.
Proof.
  split.
  - now apply fieldsFrom_tokens.
  - apply (fieldsFrom_concat line None).
Qed.

Lemma fieldsFrom_blank (s : string) :
  forallb_string strings.isSpace s = true -> strings.fieldsFrom None s = [].
Proof.
  induction s as [| c r IH]; cbn; [reflexivity |].
  intros H. apply andb_true_iff in H. destruct H as [Hc Hr].
  rewrite Hc. now apply IH.
Qed.

Lemma dropLeft_blank (s : string) :
  forallb_string strings.isSpace s = true ->
  strings.dropLeft strings.isSpace s = "".
Proof.
  induction s as [| c r IH]; cbn; [reflexivity |].
  intros H. apply andb_true_iff in H. destruct H as [Hc Hr].
  rewrite Hc. now apply IH.
Qed.

(** A line of white space only, the empty line among them, does nothing:
    [processCommand] returns without output or error, and the input loop
    does not even record it in the history. *)
Theorem blank_line_ignored (line : string) (sim : CiscoDeviceSimulator) :
  forallb_string strings.isSpace line = true ->
  processCommand line sim = Returned sim [] None
  /\ loopTurn line sim = Returned sim [] None.
Proof.
  intros H. split.
  - unfold processCommand, strings.Fields. now rewrite fieldsFrom_blank.
  - unfold loopTurn, strings.TrimSpace.
    rewrite (dropLeft_blank _ H). reflexivity.
Qed.

Lemma blank_line_ignored_witness :
  loopTurn "   " boundSim = Returned boundSim [] None.
Proof.
  exact (proj2 (blank_line_ignored "   " boundSim eq_refl)).
Defined.

Lemma loopTurn_history (line : string) (sim sim' : CiscoDeviceSimulator)
    (out : list string) (err : option error) :
  loopTurn line sim = Returned sim' out err ->
  commandHistory sim'
  = commandHistory sim
    ++ (if isEmpty (strings.TrimSpace line) then []
        else [strings.TrimSpace line]).
Proof.
  unfold loopTurn.
  destruct (isEmpty (strings.TrimSpace line)).
  - intros H. apply Returned_inj in H. destruct H as [<- _].
    now rewrite app_nil_r.
  - intros H.
    destruct (processCommand_framed _ [] _ _ _ _ H) as (_ & Hh & _).
    exact Hh.
Qed.

(** The history after a session holds, after what it held before, every
    line of the session that was not blank, trimmed and in order,
    whether the line succeeded or failed. *)
Theorem session_history (lines : list string)
    (sim sim' : CiscoDeviceSimulator) :
  session lines sim = Some sim' ->
  commandHistory sim'
  = commandHistory sim
    ++ filter (fun l => negb (isEmpty l)) (map strings.TrimSpace lines).
Proof.
  revert sim. induction lines as [| line rest IH]; cbn [session]; intros sim.
  - intros [= <-]. cbn. now rewrite app_nil_r.
  - destruct (loopTurn line sim) as [s1 o1 e1 | |] eqn:T; try discriminate.
    intros H. rewrite (IH _ H), (loopTurn_history _ _ _ _ _ T).
    cbn [map filter].
    destruct (isEmpty (strings.TrimSpace line)); cbn [negb].
    + now rewrite app_nil_r.
    + now rewrite <- app_assoc.
Qed.

Lemma session_history_witness :
  ["enable"; "bogus  line"; "conf t"]
  = [] ++ filter (fun l => negb (isEmpty l))
                 (map strings.TrimSpace
                      ["  enable "; ""; "bogus  line"; "conf t"]).
Proof.
  refine (session_history ["  enable "; ""; "bogus  line"; "conf t"]
            (NewCiscoDeviceSimulator "Router" 0)
            {| hostname := "Router";
               mode := ModeGlobalConfig;
               runningConfig := {| Hostname := "Router"; Interfaces := [] |};
               currentInterface := "";
               commandHistory := ["enable"; "bogus  line"; "conf t"];
               startTime := 0;
               clock := 0 |} _).
  vm_compute. reflexivity.
Defined.

(** ** The prompt *)

Lemma append_inj_left (h a b : string) : h +++ a = h +++ b -> a = b.
Proof.
  induction h as [| c h IH]; cbn; [auto |].
  intros [= H]. auto.
Qed.

(** The prompt is the host name of the running configuration followed by
    the mark of the mode; under one host name, different modes have
    different prompts. *)
Theorem prompt_shows_mode (s1 s2 : CiscoDeviceSimulator) :
  Hostname (runningConfig s1) = Hostname (runningConfig s2) ->
  getPrompt s1 = getPrompt s2 ->
  mode s1 = mode s2.
Proof.
  unfold getPrompt. intros ->.
  destruct (mode s1), (mode s2); intros H; try reflexivity;
    apply append_inj_left in H; discriminate H.
Qed.

Lemma prompt_shows_mode_witness :
  mode boundSim = mode (setCurrentInterface boundSim "FastEthernet0/1").
Proof.
  apply prompt_shows_mode; reflexivity.
Defined.

(** ** The diagnostics of the input loop *)

Lemma prefix_nil (s : string) : String.prefix "" s = true.
Proof. now destruct s. Qed.

Lemma splitFirst_sentinel (k : Sentinel) (text : string) :
  splitFirst ": " (sentinelText k +++ ": " +++ text)
  = Some (sentinelText k, text).
Proof.
  destruct k; cbn; rewrite prefix_nil; reflexivity.
Qed.

(** The input loop recovers from the message of a wrapped error exactly
    the text that the handler or the resolver put into it, whatever that
    text is, and reports an ambiguity by naming it between quotes, an
    incomplete command or bad arguments by the whole message, and any
    other error to the logger only. *)
Theorem error_report (line text : string) (k : Sentinel) :
  reportedPart line (Wrapped k text) = text
  /\ reportError line (Wrapped ErrAmbiguousCommand text)
     = (["% Ambiguous command: " +++ quote +++ text +++ quote], [])
  /\ reportError line (Wrapped ErrInvalidInput text)
     = (printInvalidInputMarker line text, [])
  /\ reportError line (Wrapped ErrIncompleteCommand text)
     = (["% incomplete command: " +++ text], [])
  /\ reportError line (Wrapped ErrBadArguments text)
     = (["% invalid input or arguments: " +++ text], [])
  /\ reportError line (Plain text)
     = ([], ["Error processing command: " +++ text]).
Proof.
  assert (H : forall k', reportedPart line (Wrapped k' text) = text).
  { intros k'. unfold reportedPart, SplitN2. cbn [errorText].
    now rewrite splitFirst_sentinel. }
  split; [apply H |].
  unfold reportError. cbn [errorsIs orb].
  rewrite !H. repeat split.
Qed.

Lemma append_nil_r (a : string) : a +++ "" = a.
Proof. induction a as [| c a IH]; cbn; [reflexivity | now rewrite IH]. Qed.

Lemma append_assoc (a b c : string) : (a +++ b) +++ c = a +++ b +++ c.
Proof. induction a as [| x a IH]; cbn; [reflexivity | now rewrite IH]. Qed.

Lemma prefix_append (a b : string) : String.prefix a (a +++ b) = true.
Proof.
  induction a as [| c a IH]; cbn; [apply prefix_nil |].
  destruct (ascii_dec c c); [exact IH | congruence].
Qed.

Lemma ToLower_append (a b : string) :
  strings.ToLower (a +++ b) = strings.ToLower a +++ strings.ToLower b.
Proof. induction a as [| c a IH]; cbn; [reflexivity | now rewrite IH]. Qed.

Lemma rev_string_acc (s acc : string) :
  strings.rev_string s acc = strings.rev_string s "" +++ acc.
Proof.
  revert acc. induction s as [| c s IH]; intros acc; cbn; [reflexivity |].
  rewrite IH, (IH (String c "")), append_assoc. reflexivity.
Qed.

Lemma rev_string_append (a b acc : string) :
  strings.rev_string (a +++ b) acc
  = strings.rev_string b (strings.rev_string a acc).
Proof.
  revert acc. induction a as [| c a IH]; intros acc; cbn; [reflexivity |].
  apply IH.
Qed.

Lemma dropLeft_head (p : ascii -> bool) (s : string) :
  match strings.dropLeft p s with
  | String c _ => p c = false
  | EmptyString => True
  end.
Proof.
  induction s as [| c s IH]; cbn; [exact I |].
  destruct (p c) eqn:E; [exact IH | exact E].
Qed.

Lemma dropLeft_keep (p : ascii -> bool) (u v : string) (c : ascii) :
  p c = false ->
  strings.dropLeft p (u +++ String c v)
  = strings.dropLeft p u +++ String c v.
Proof.
  intros Hc. induction u as [| x u IH]; cbn.
  - now rewrite Hc.
  - destruct (p x); [exact IH | reflexivity].
Qed.

(** A trimmed line is empty or begins with the first character of the
    line that is no white space. *)
Lemma TrimSpace_head (s : string) :
  match strings.TrimSpace s with
  | String c _ => strings.isSpace c = false
  | EmptyString => True
  end.
Proof.
  unfold strings.TrimSpace.
  pose proof (dropLeft_head strings.isSpace s) as Hh.
  destruct (strings.dropLeft strings.isSpace s) as [| c r]; [exact I |].
  cbn [strings.rev_string]. rewrite (rev_string_acc r (String c "")).
  rewrite (dropLeft_keep _ _ _ _ Hh), rev_string_append.
  cbn [strings.rev_string]. exact Hh.
Qed.

Lemma fieldsFrom_first (r w tok : string) (rest : list string) :
  strings.fieldsFrom (Some w) r = tok :: rest ->
  exists tail, w +++ r = tok +++ tail.
Proof.
  revert w. induction r as [| x r IH]; intros w; cbn.
  - intros [= <- _]. now exists "".
  - destruct (strings.isSpace x).
    + intros [= <- _]. now exists (String x r).
    + intros H. destruct (IH _ H) as [tail E]. exists tail.
      now rewrite <- E, append_assoc.
Qed.

(** The first word of a line that does not begin with white space is
    the beginning of the line. *)
Lemma Fields_first_prefix (l tok : string) (rest : list string) :
  match l with String c _ => strings.isSpace c = false | _ => True end ->
  strings.Fields l = tok :: rest ->
  String.prefix tok l = true.
Proof.
  destruct l as [| c r]; [discriminate |].
  intros Hc H. unfold strings.Fields in H.
  cbn [strings.fieldsFrom] in H. rewrite Hc in H.
  destruct (fieldsFrom_first _ _ _ _ H) as [tail E].
  cbn [String.append] in E. rewrite E. apply prefix_append.
Qed.

Lemma prefix_decompose (a b : string) :
  String.prefix a b = true -> exists t, b = a +++ t.
Proof.
  revert b. induction a as [| c a IH]; intros b; [now exists b |].
  destruct b as [| d b]; cbn; [discriminate |].
  destruct (ascii_dec c d) as [-> | _]; [| discriminate].
  intros H. destruct (IH _ H) as [t ->]. now exists t.
Qed.

Lemma indexFrom_here (i : Z) (s sub : string) :
  String.prefix sub s = true -> indexFrom i s sub = i.
Proof. intros H. destruct s; cbn [indexFrom]; now rewrite H. Qed.

Lemma marker_at_start (tok t : string) :
  printInvalidInputMarker (tok +++ t) tok
  = [ "% Invalid input detected at '^' marker.";
      "  " +++ tok +++ t;
      "  ^" ].
Proof.
  unfold printInvalidInputMarker, Index.
  rewrite ToLower_append, (indexFrom_here _ _ _ (prefix_append _ _)).
  reflexivity.
Qed.

(** An unknown command is always marked at the first column: when the
    first word of a trimmed line is no command of the mode, processing
    the line leaves the state, and the loop prints the line with the
    caret under its first character. *)
Theorem unknown_command_caret (line token : string) (rest : list string)
    (sim : CiscoDeviceSimulator) :
  strings.Fields (strings.TrimSpace line) = token :: rest ->
  findCommandByAbbreviation sim token = inr (Wrapped ErrInvalidInput token) ->
  processCommand (strings.TrimSpace line) sim
    = Returned sim [] (Some (Wrapped ErrInvalidInput token))
  /\ reportError (strings.TrimSpace line) (Wrapped ErrInvalidInput token)
     = ([ "% Invalid input detected at '^' marker.";
          "  " +++ strings.TrimSpace line;
          "  ^" ], []).
Proof.
  intros Hf Hr. split.
  - unfold processCommand. now rewrite Hf, Hr.
  - pose proof (Fields_first_prefix _ _ _ (TrimSpace_head line) Hf) as Hp.
    destruct (prefix_decompose _ _ Hp) as [t E].
    unfold reportError. cbn [errorsIs].
    assert (Hpart : reportedPart (strings.TrimSpace line)
                      (Wrapped ErrInvalidInput token) = token).
    { unfold reportedPart, SplitN2. cbn [errorText].
      now rewrite splitFirst_sentinel. }
    rewrite Hpart, E, marker_at_start. reflexivity.
Qed.

Lemma unknown_command_caret_witness :
  reportError (strings.TrimSpace "  bogus 1 ") (Wrapped ErrInvalidInput "bogus")
  = ([ "% Invalid input detected at '^' marker.";
       "  " +++ strings.TrimSpace "  bogus 1 ";
       "  ^" ], []).
Proof.
  refine (proj2 (unknown_command_caret "  bogus 1 " "bogus" ["1"]
                   (NewCiscoDeviceSimulator "Router" 0) _ _)).
  - reflexivity.
  - rewrite findCommandByAbbreviation_decide by discriminate. reflexivity.
Defined.

Lemma indexFrom_first (sub a c : string) (i : Z) :
  (forall j, (j < String.length a)%nat ->
             String.prefix sub (dropN j (a +++ sub +++ c)) = false) ->
  indexFrom i (a +++ sub +++ c) sub = i + Z.of_nat (String.length a).
Proof.
  revert i. induction a as [| x a IH]; intros i H.
  - cbn [String.append String.length]. rewrite indexFrom_here by apply prefix_append.
    cbn. lia.
  - pose proof (H 0%nat ltac:(cbn; lia)) as H0. cbn [dropN] in H0.
    cbn [String.append] in *. cbn [indexFrom]. rewrite H0.
    rewrite IH.
    + cbn [String.length]. lia.
    + intros j Hj. apply (H (S j)). cbn [String.length]. lia.
Qed.

(** The caret of the invalid-input marker stands under the first place
    where the reported text occurs in the line, case being ignored, also
    when that place lies in an earlier word than the one that was wrong. *)
Theorem caret_first_occurrence (line badPart a c : string) :
  strings.ToLower line = a +++ strings.ToLower badPart +++ c ->
  (forall j, (j < String.length a)%nat ->
     String.prefix (strings.ToLower badPart)
                   (dropN j (a +++ strings.ToLower badPart +++ c)) = false) ->
  printInvalidInputMarker line badPart
  = [ "% Invalid input detected at '^' marker.";
      "  " +++ line;
      "  " +++ fmt.spaces (String.length a) +++ "^" ].
Proof.
  intros E H. unfold printInvalidInputMarker, Index.
  rewrite E, (indexFrom_first _ _ _ 0 H).
  destruct (Z.eqb_spec (0 + Z.of_nat (String.length a)) (-1)) as [F | _];
    [lia |].
  cbv zeta. now rewrite Z.add_0_l, Nat2Z.id.
Qed.

Lemma caret_first_occurrence_witness :
  printInvalidInputMarker "sh show show" "show show"
  = [ "% Invalid input detected at '^' marker.";
      "  sh show show";
      "     ^" ].
Proof.
  refine (caret_first_occurrence "sh show show" "show show" "sh " "" _ _).
  - reflexivity.
  - intros j Hj. destruct j as [| [| [| j]]]; [reflexivity .. |].
    cbn in Hj. lia.
Defined.

(** ** Completion *)

Lemma index_Some (parts : list string) (i : Z) :
  0 <= i < Z.of_nat (length parts) -> exists p, index parts i = Some p.
Proof.
  intros H. unfold index.
  destruct (Z.leb_spec 0 i) as [_ | F]; [| lia].
  destruct (nth_error parts (Z.to_nat i)) as [p |] eqn:E; [now exists p |].
  apply nth_error_None in E. lia.
Qed.

Lemma completeShow_total (parts : list string) (text : string) (w : Z) :
  w <= Z.of_nat (length parts) ->
  exists cs, completeShow parts text w = Some cs.
Proof.
  intros H. unfold completeShow.
  destruct (Z.eqb_spec w 1) as [_ | _]; [eauto |].
  destruct (Z.eqb_spec w 2) as [-> | _].
  - destruct (index_Some parts 1 ltac:(lia)) as [p ->].
    destruct (strings.HasPrefix p "ip"); eauto.
  - destruct (Z.eqb_spec w 3) as [-> | _]; [| eauto].
    destruct (index_Some parts 1 ltac:(lia)) as [p ->].
    destruct (strings.HasPrefix p "ip"); [| eauto].
    destruct (index_Some parts 2 ltac:(lia)) as [q ->].
    destruct (strings.HasPrefix q "int"); eauto.
Qed.

Lemma completeInterface_total (parts : list string) (text : string) (w : Z)
    (sim : CiscoDeviceSimulator) :
  w <= Z.of_nat (length parts) ->
  exists cs, completeInterface parts text w sim = Some cs.
Proof.
  intros H. unfold completeInterface.
  destruct (Z.eqb_spec w 1) as [_ | N]; [eauto |].
  destruct (Z.leb_spec 1 w) as [L | _]; [| eauto].
  unfold slice.
  destruct (Z.leb_spec 0 1) as [_ | F]; [| lia].
  destruct (Z.leb_spec 1 w) as [_ | F]; [| lia].
  destruct (Z.leb_spec w (Z.of_nat (length parts))) as [_ | F]; [| lia].
  cbn [andb]. rewrite andb_false_r. cbn [andb]. eauto.
Qed.

Lemma wordToComplete_total (line : string) (parts : list string) :
  exists w text,
    wordToComplete line parts = Some (w, text)
    /\ 0 <= w <= Z.of_nat (length parts).
Proof.
  unfold wordToComplete. destruct (HasSuffix line " ").
  - do 2 eexists. split; [reflexivity | lia].
  - destruct (Z.ltb_spec 0 (Z.of_nat (length parts))) as [L | L].
    + destruct (index_Some parts (Z.of_nat (length parts) - 1) ltac:(lia))
        as [p ->].
      do 2 eexists. split; [reflexivity | lia].
    + do 2 eexists. split; [reflexivity | lia].
Qed.

(** Completion never indexes a word that is not there: whatever the line
    and the state, [getDynamicCompletions] returns a list, although
    [completeShow] and [completeInterface] read [parts[1]], [parts[2]]
    and [parts[1:wordIndex]] without a check of their own. *)
Theorem completion_never_panics (line : string) (sim : CiscoDeviceSimulator) :
  exists completions, getDynamicCompletions line sim = Some completions.
Proof.
  unfold getDynamicCompletions.
  destruct (wordToComplete_total line (strings.Fields line))
    as (w & text & -> & Hw).
  destruct (Z.eqb_spec w 0) as [_ | N]; [eauto |].
  destruct (Z.ltb_spec 0 (Z.of_nat (length (strings.Fields line))))
    as [L | _]; [| eauto].
  destruct (index_Some (strings.Fields line) 0 ltac:(lia)) as [p ->].
  cbv zeta.
  repeat match goal with
  | |- context [if String.eqb ?a ?b then _ else _] => destruct (String.eqb a b)
  | |- context [if Mode_eqb ?a ?b then _ else _] => destruct (Mode_eqb a b)
  | |- context [if Mode_eqb ?a ?b && ?c then _ else _] =>
      destruct (Mode_eqb a b && c)
  | |- context [if ?a =? ?b then _ else _] => destruct (a =? b)
  | |- context [if ?a && ?b && ?c then _ else _] => destruct (a && b && c)
  end;
  eauto using completeShow_total, completeInterface_total with zarith.
Qed.

Lemma prefix_ToLower (a b : string) :
  String.prefix a b = true ->
  String.prefix (strings.ToLower a) (strings.ToLower b) = true.
Proof.
  intros H. destruct (prefix_decompose _ _ H) as [t ->].
  rewrite ToLower_append. apply prefix_append.
Qed.

Lemma valid_command_resolves (sim : CiscoDeviceSimulator) (c : string) :
  In c (getValidCommandsForMode sim) ->
  exists d, findCommandByAbbreviation sim c = inl d /\ Name d = c.
Proof.
  rewrite getValidCommandsForMode_sorted. intros [<- | H].
  - eexists. split; reflexivity.
  - assert (Hq : c <> "?").
    { intros ->. destruct (mode sim); cbn in H; intuition discriminate. }
    rewrite findCommandByAbbreviation_decide by exact Hq.
    destruct (mode sim); cbn in H;
      repeat (destruct H as [<- | H]; [eexists; split; reflexivity |]);
      contradiction.
Qed.

Lemma decide_not_invalid (token e : string) (l : list CommandDef) :
  l <> [] -> decide token l <> inr (Wrapped ErrInvalidInput e).
Proof.
  unfold decide. destruct l as [| a [| b r]]; [congruence | discriminate |].
  intros _. destruct (find _ _); discriminate.
Qed.

Lemma wordToComplete_first (line text : string) :
  HasSuffix line " " = false ->
  wordToComplete line [text] = Some (0, text).
Proof. intros H. unfold wordToComplete. now rewrite H. Qed.

(** Completing the first word of a line: the commands offered are exactly
    the commands of the mode, help included, that begin with the text
    typed; each of them, entered as it is offered, resolves to the command
    of that name; and a word for which something is offered is never
    rejected as invalid input. *)
Theorem first_word_completions (line text : string)
    (sim : CiscoDeviceSimulator) :
  strings.Fields line = [text] ->
  HasSuffix line " " = false ->
  exists completions,
    getDynamicCompletions line sim = Some completions
    /\ (forall c, In c completions <->
                  In c (getValidCommandsForMode sim)
                  /\ String.prefix text c = true)
    /\ (forall c, In c completions ->
                  exists d, findCommandByAbbreviation sim c = inl d
                            /\ Name d = c)
    /\ (completions <> [] ->
        forall e, findCommandByAbbreviation sim text
                  <> inr (Wrapped ErrInvalidInput e)).
Proof.
  intros Hf Hs. unfold getDynamicCompletions.
  rewrite Hf, (wordToComplete_first _ _ Hs). cbn [Z.eqb].
  eexists. split; [reflexivity |].
  assert (Hin : forall c, In c (beginningWith text (getValidCommandsForMode sim))
                  <-> In c (getValidCommandsForMode sim)
                      /\ String.prefix text c = true).
  { intros c. unfold beginningWith. now rewrite filter_In. }
  split; [exact Hin |]. split.
  - intros c Hc. apply valid_command_resolves, (proj1 (Hin c) Hc).
  - intros Hne e.
    destruct (beginningWith text (getValidCommandsForMode sim))
      as [| c rest] eqn:E; [congruence |].
    destruct (proj1 (Hin c) ltac:(now left)) as [Hc Hp].
    destruct (String.eqb_spec text "?") as [-> | Hq].
    { unfold findCommandByAbbreviation. cbn [String.eqb Ascii.eqb Bool.eqb].
      discriminate. }
    rewrite findCommandByAbbreviation_decide by exact Hq.
    apply decide_not_invalid.
    rewrite getValidCommandsForMode_sorted in Hc.
    destruct Hc as [<- | Hc].
    + assert (text = "") as ->.
      { destruct text as [| x [| y t]]; [reflexivity | | ].
        - cbn in Hp. destruct (ascii_dec x "?"); [congruence | discriminate].
        - cbn in Hp. destruct (ascii_dec x "?"); discriminate. }
      destruct (mode sim); discriminate.
    + apply in_map_iff in Hc. destruct Hc as (d & <- & Hd).
      intros F.
      assert (Hx : In d (filter (abbreviates text) (sortedCommands (mode sim)))).
      { apply filter_In. split; [exact Hd |]. now apply prefix_ToLower. }
      rewrite F in Hx. exact Hx.
Qed.

Lemma first_word_completions_witness :
  exists completions,
    getDynamicCompletions "e" (NewCiscoDeviceSimulator "Router" 0)
    = Some completions
    /\ In "enable" completions.
Proof.
  destruct (first_word_completions "e" "e" (NewCiscoDeviceSimulator "Router" 0))
    as (cs & E & Hin & _); [reflexivity | reflexivity |].
  exists cs. split; [exact E |].
  apply Hin. split; [| reflexivity].
  rewrite getValidCommandsForMode_eq. cbn. auto.
Defined.

Lemma showVersion_recognised (args : list string) (sim : CiscoDeviceSimulator) :
  recognised (showVersion args sim) = true.
Proof.
  unfold showVersion.
  repeat match goal with
  | |- context [match ?x with _ => _ end] => destruct x
  end; reflexivity.
Qed.

Lemma showRunningConfig_recognised (args : list string)
    (sim : CiscoDeviceSimulator) :
  recognised (showRunningConfig args sim) = true.
Proof.
  unfold showRunningConfig.
  repeat match goal with
  | |- context [match ?x with _ => _ end] => destruct x
  end; reflexivity.
Qed.

Lemma showIPInterfaceBrief_recognised (args : list string)
    (sim : CiscoDeviceSimulator) :
  recognised (showIPInterfaceBrief args sim) = true.
Proof.
  unfold showIPInterfaceBrief.
  repeat match goal with
  | |- context [match ?x with _ => _ end] => destruct x
  end; reflexivity.
Qed.

Lemma showHistoryCmd_recognised (args : list string)
    (sim : CiscoDeviceSimulator) :
  recognised (showHistoryCmd args sim) = true.
Proof.
  unfold showHistoryCmd.
  repeat match goal with
  | |- context [match ?x with _ => _ end] => destruct x
  end; reflexivity.
Qed.

Lemma noShutdown_recognised (args : list string) (sim : CiscoDeviceSimulator) :
  recognised (noShutdown args sim) = true.
Proof.
  unfold noShutdown.
  repeat match goal with
  | |- context [match ?x with _ => _ end] => destruct x
  end; reflexivity.
Qed.

Lemma noIPAddress_recognised (args : list string) (sim : CiscoDeviceSimulator) :
  recognised (noIPAddress args sim) = true.
Proof.
  unfold noIPAddress.
  repeat match goal with
  | |- context [match ?x with _ => _ end] => destruct x
  end; reflexivity.
Qed.

Lemma beginningWith_In (text c : string) (opts : list string) :
  In c (beginningWith text opts) <-> In c opts /\ String.prefix text c = true.
Proof. unfold beginningWith. now rewrite filter_In. Qed.

(** The sub-commands that completion offers after [show] and after [no]
    are sub-commands the handlers know: entered as they are offered, with
    any further arguments, they are never answered with invalid input or
    with an ambiguity. *)
Theorem subcommand_completions_recognised (parts args : list string)
    (text c : string) (sim : CiscoDeviceSimulator) :
  (forall completions,
     completeShow parts text 1 = Some completions ->
     In c completions ->
     recognised (doShow (c :: args) sim) = true)
  /\ (In c (completeNoSubcommand text sim) ->
      recognised (doNo (c :: args) sim) = true).
Proof.
  split.
  - intros completions E Hin.
    change (completeShow parts text 1)
      with (Some (beginningWith text showOptions)) in E.
    assert (completions = beginningWith text showOptions) as -> by congruence.
    apply beginningWith_In in Hin. destruct Hin as [Hin _].
    unfold showOptions in Hin. cbn [In] in Hin.
    unfold doShow.
    repeat (destruct Hin as [<- | Hin];
            [lower_literals; cbn;
             auto using showVersion_recognised, showRunningConfig_recognised,
               showHistoryCmd_recognised |]);
      [| contradiction].
    destruct args as [| s0 [| s1 [| s2 r]]]; try reflexivity;
      repeat match goal with
      | |- context [if negb ?b then _ else _] => destruct b; cbn [negb]
      end; try reflexivity; apply showIPInterfaceBrief_recognised.
  - intros Hin. unfold completeNoSubcommand in Hin.
    apply beginningWith_In in Hin. destruct Hin as [Hin _].
    unfold doNo.
    destruct (mode sim); cbn [In] in Hin; try contradiction;
      repeat (destruct Hin as [<- | Hin];
              [lower_literals; cbn;
               auto using noShutdown_recognised |]);
      try contradiction.
    destruct args as [| s0 r]; [reflexivity |].
    destruct (strings.HasPrefix _ _); cbn [negb]; [| reflexivity].
    apply noIPAddress_recognised.
Qed.

Lemma subcommand_completions_recognised_witness :
  recognised (doShow ["run"]
                (setMode (NewCiscoDeviceSimulator "Router" 0) ModePrivExec))
  = true
  /\ recognised (doNo ["ip"; "address"]
                   (setMode (NewCiscoDeviceSimulator "Router" 0)
                            ModeInterfaceConfig))
     = true.
Proof.
  split.
  - refine (proj1 (subcommand_completions_recognised ["show"; "r"] [] "r" "run"
                     _) ["running-config"; "run"] _ _).
    + reflexivity.
    + right. left. reflexivity.
  - refine (proj2 (subcommand_completions_recognised [] ["address"] "i" "ip"
                     _) _).
    left. reflexivity.
Defined.

Lemma uniqueStrings_In (c : string) (l seen : list string) :
  In c (uniqueStrings seen l) -> In c l.
Proof.
  revert seen. induction l as [| x l IH]; intros seen; cbn; [tauto |].
  destruct (contains seen x); [eauto |].
  intros [-> | H]; eauto.
Qed.

Lemma contains_In (l : list string) (c : string) :
  contains l c = true <-> In c l.
Proof.
  unfold contains. rewrite existsb_exists. split.
  - intros (x & Hx & E). apply String.eqb_eq in E. now subst.
  - intros H. exists c. split; [exact H | apply String.eqb_refl].
Qed.

Lemma uniqueStrings_NoDup (l seen : list string) :
  NoDup (uniqueStrings seen l)
  /\ forall c, In c (uniqueStrings seen l) -> ~ In c seen.
Proof.
  revert seen. induction l as [| x l IH]; intros seen; cbn.
  - split; [constructor | tauto].
  - destruct (contains seen x) eqn:E; [apply IH |].
    destruct (IH (x :: seen)) as [Hn Hs]. split.
    + constructor; [| exact Hn].
      intros F. apply (Hs _ F). now left.
    + intros c [<- | H].
      * intros F. apply contains_In in F. congruence.
      * intros F. apply (Hs _ H). now right.
Qed.

Lemma Some_eq {A : Type} (a b : A) : Some a = Some b -> a = b.
Proof. congruence. Qed.

(** The completions of an interface name hold no duplicate and are taken
    from the names of the interfaces that are configured and, for the
    word right after [interface] only, from the six type words: the port
    numbers 0/0 to 0/4 that the source prepares are never proposed as
    such. *)
Theorem interface_completions (parts : list string) (text : string)
    (wordIndex : Z) (sim : CiscoDeviceSimulator) (completions : list string) :
  completeInterface parts text wordIndex sim = Some completions ->
  NoDup completions
  /\ forall c, In c completions ->
       (wordIndex = 1 /\ In c interfaceTypes)
       \/ In c (mapKeys (Interfaces (runningConfig sim))).
Proof.
  unfold completeInterface.
  destruct (Z.eqb_spec wordIndex 1) as [-> | N].
  - intros E. apply Some_eq in E. subst completions.
    split; [apply uniqueStrings_NoDup |].
    intros c Hc. apply uniqueStrings_In, filter_In in Hc.
    destruct Hc as [Hc _].
    apply (Permutation_in _ (SliceStable_perm (fun x => x) String.ltb _)),
      in_app_or in Hc.
    destruct Hc; auto.
  - destruct (1 <=? wordIndex).
    + destruct (slice parts 1 wordIndex) as [between |]; [| discriminate].
      cbv zeta. rewrite andb_false_r. cbn [andb].
      intros E. apply Some_eq in E. subst completions.
      split; [apply uniqueStrings_NoDup |].
      intros c Hc. apply uniqueStrings_In, filter_In in Hc. now right.
    + intros E. apply Some_eq in E. subst completions.
      split; [constructor | intros c []].
Qed.

Lemma interface_completions_witness :
  NoDup ["GigabitEthernet"; "g"; "gi"].
Proof.
  refine (proj1 (interface_completions ["interface"; "g"] "g" 1
                   (NewCiscoDeviceSimulator "Router" 0) _ _)).
  reflexivity.
Defined.
